(** * AppStat: parameter scans, goodness-of-fit evaluators and validation

    A shallow embedding of the code cells of the course notebooks
    (LikelihoodFit, TheChiSquareMiracle, Chi2_minimization_animation and the
    error-propagation notebook) and the properties of their specification.

    Python floats and numpy float64 values are IEEE 754 binary64 numbers;
    they are embedded as Rocq's primitive [float], whose operations are the
    same binary64 operations (round to nearest, ties to even). The routines
    of the C library, numpy and scipy that are not such operations ([pow],
    [np.exp], [np.log], [np.sum], [stats.poisson.pmf]) are parameters of the
    cells that call them. *)

From Stdlib Require Import ZArith Bool Floats.
From Stdlib Require Uint63.
From Stdlib Require QArith Qabs Qpower Lqa.
From stdpp Require Import base tactics option numbers list.

#[local] Set Warnings "-inexact-float".


(** * Part I: the embedding *)

(** ** Binary64 numbers *)

Module F64.

(** A number: neither NaN nor an infinity. *)
Definition finite (x : float) : Prop :=
match Prim2SF x with
| S754_zero _ | S754_finite _ _ _ => True
| _ => False
end.

(** A value of sign [s] (false for [+]) that is not NaN. *)
Definition signed (s : bool) (x : spec_float) : Prop :=
match x with
| S754_nan => False
| S754_zero s' | S754_infinity s' | S754_finite s' _ _ => s' = s
end.

End F64.

(** ** Python values and exceptions *)

Module Py.

(** The exceptions the modelled cells can raise. [ValueError] carries the
    number formatted into its message. *)
Inductive exn : Type :=
| ZeroDivisionError
| IndexError
| NameError
| OverflowError
| ValueError (shown : float).

(** A cell or expression either yields a value or raises. *)
Inductive result (A : Type) : Type :=
| Ok (a : A)
| Raise (e : exn).
Arguments Ok {A} a.
Arguments Raise {A} e.

#[export] Instance result_ret : MRet result := fun A a => Ok a.
#[export] Instance result_bind : MBind result := fun A B f m =>
match m with
| Ok a => f a
| Raise e => Raise e
end.
#[export] Instance result_fmap : FMap result := fun A B f m =>
match m with
| Ok a => Ok (f a)
| Raise e => Raise e
end.

(** [a[i]] on a list or a numpy array, for an index [i >= 0]. *)
Definition index {A} (a : list A) (i : nat) : result A :=
match a !! i with
| Some x => Ok x
| None => Raise IndexError
end.

(** [for i in xs: st = body(st, i)], stopping at the first exception. *)
Fixpoint for_each {S I} (body : S -> I -> result S) (xs : list I) (st : S)
  : result S :=
match xs with
| [] => Ok st
| i :: rest => st' ← body st i; for_each body rest st'
end.

(** [range(n)] *)
Definition range (n : nat) : list nat := seq 0 n.

(** [float(n)] for a non-negative int below 2^63 (exact below 2^53, rounded
    to nearest above, as the int-to-float64 conversion is). *)
Definition float_of_int (z : Z) : float :=
PrimFloat.of_uint63 (Uint63.of_Z z).

Definition float_of_nat (n : nat) : float := float_of_int (Z.of_nat n).

(** [x**2] on a float64: the correctly rounded square. *)
Definition sq (x : float) : float := (x * x)%float.

(** [a / n] for a float [a] and an int [n]. *)
Definition div_int (a : float) (n : nat) : result float :=
match n with
| O => Raise ZeroDivisionError
| _ => Ok (a / float_of_nat n)%float
end.

(** The value of a variable that is bound only once it has been assigned. *)
Definition name {A} (v : option A) : result A :=
match v with
| Some x => Ok x
| None => Raise NameError
end.

End Py.

Import Py.

(** ** Operations on Python floats *)

Module PyFloat.

#[local] Open Scope float_scope.

(** [a / b] on two Python floats: a zero divisor, of either sign, raises. *)
Definition truediv (a b : float) : result float :=
if b =? 0 then Raise ZeroDivisionError else Ok (a / b).


End PyFloat.

(** ** LikelihoodFit: evaluators, grid scan, parabolas, uncertainties *)

Module LikelihoodFit.

#[local] Open Scope float_scope.

(** *** Goodness-of-fit evaluators (the inner loops of the tau scan)

    [np.exp], [np.log] and [scipy.stats.poisson.pmf] are library routines:
    the evaluators take them as parameters. So is the power: on a float64
    scalar numpy's [**] is the C library's [pow], whose result is close to
    the rounded product but need not be it. *)

Section Evaluators.

Variable libm_pow : float -> float -> float.
Variable np_exp np_log : float -> float.
Variable poisson_pmf : Z -> float -> float.

(** Problem settings and data: [Ntimes] events [t], histogrammed into
    [Nbins] counts [yExp] between the edges [xExp_edges]. *)
Variable Ntimes Nbins : nat.
Variable xExp_edges : list float.
Variable yExp : list Z.
Variable t : list float.

(** [nexp = Ntimes * (np.exp(-xlow_bin/tau_hypo) - np.exp(-xhigh_bin/tau_hypo))] *)
Definition nexp_bin (xlow_bin xhigh_bin tau_hypo : float) : float :=
float_of_nat Ntimes
* (np_exp (- xlow_bin / tau_hypo) - np_exp (- xhigh_bin / tau_hypo)).

(** [(nobs-nexp)**2 / nobs], on the float64 scalar [nobs-nexp]. *)
Definition chi2_term (nobs : Z) (nexp : float) : float :=
libm_pow (float_of_int nobs - nexp) 2 / float_of_int nobs.

(** [-2.0*np.log(stats.poisson.pmf(int(nobs), nexp))] *)
Definition bllh_term (nobs : Z) (nexp : float) : float :=
-2.0 * np_log (poisson_pmf nobs nexp).

(** Body of [for ibin in range(Nbins)], on the pair
    [(chi2[itau], bllh[itau])]. *)
Definition bin_body (tau_hypo : float) (acc : float * float) (ibin : nat)
  : result (float * float) :=
xlow_bin ← index xExp_edges ibin;
xhigh_bin ← index xExp_edges (ibin + 1);
let nexp := nexp_bin xlow_bin xhigh_bin tau_hypo in
nobs ← index yExp ibin;
let chi2 :=
  if (0 <? nobs)%Z then fst acc + chi2_term nobs nexp else fst acc in
let bllh := snd acc + bllh_term nobs nexp in
Ok (chi2, bllh).

(** [chi2[itau] = 0.0; bllh[itau] = 0.0; for ibin in range(Nbins): ...] *)
Definition binned_scores (tau_hypo : float) : result (float * float) :=
for_each (bin_body tau_hypo) (range Nbins) (0, 0).

Definition chi2_score (tau_hypo : float) : result float :=
fst <$> binned_scores tau_hypo.

Definition bllh_score (tau_hypo : float) : result float :=
snd <$> binned_scores tau_hypo.

(** [ullh[itau] = 0.0; for time in t: ullh[itau] += -2.0*np.log(1.0/tau_hypo*np.exp(-time/tau_hypo))] *)
Definition ullh_score (tau_hypo : float) : float :=
fold_left
  (fun ullh time =>
     ullh + -2.0 * np_log (1.0 / tau_hypo * np_exp (- time / tau_hypo)))
  t 0.

(** The histogram as the list of its bins [(xlow, xhigh, nobs)]. *)
Definition bins : list (float * float * Z) :=
zip (zip xExp_edges (drop 1 xExp_edges)) yExp.

(** The predicted count of a bin. *)
Definition nexp_of (tau_hypo : float) (b : float * float * Z) : float :=
nexp_bin (fst (fst b)) (snd (fst b)) tau_hypo.

(** The effect of one pass of the loop body on the two sums, for the
    bin [b]. *)
Definition bin_step (tau_hypo : float) (acc : float * float)
    (b : float * float * Z) : float * float :=
let nexp := nexp_of tau_hypo b in
(if (0 <? snd b)%Z then fst acc + chi2_term (snd b) nexp else fst acc,
 snd acc + bllh_term (snd b) nexp).

(** The chi-square terms of the bins with [nobs > 0], summed bin after
    bin. *)
Definition chi2_sum (tau_hypo : float) : float :=
fold_left
  (fun s b => s + chi2_term (snd b) (nexp_of tau_hypo b))
  (filter (fun b => (0 < snd b)%Z) bins) 0.

(** The binned-likelihood terms of all the bins, summed bin after bin. *)
Definition bllh_sum (tau_hypo : float) : float :=
fold_left
  (fun s b => s + bllh_term (snd b) (nexp_of tau_hypo b))
  bins 0.

End Evaluators.

(** The library routines at the arguments the examples below rely on, as
    the C library, numpy and scipy return them. A table answers NaN at any
    other argument; no example states a value that comes from there.

    [np.exp]: [exp(0.0) = exp(-0.0) = 1.0]; [exp(-2000.0) = exp(-4000.0) = 0.0]
    (underflow); [exp(2000.0) = exp(4000.0) = inf] (overflow). *)
Definition exp_table (x : float) : float :=
if x =? 0 then 1
else if PrimFloat.Leibniz.eqb x (-2000) then 0
else if PrimFloat.Leibniz.eqb x (-4000) then 0
else if PrimFloat.Leibniz.eqb x 2000 then infinity
else if PrimFloat.Leibniz.eqb x 4000 then infinity
else nan.

(** [np.log]: [log(1.0) = 0.0]; the logarithm of NaN is NaN. *)
Definition log_table (x : float) : float :=
if PrimFloat.Leibniz.eqb x 1 then 0 else nan.

(** [stats.poisson.pmf]: a mean below zero, or NaN, is invalid and gives
    NaN; [pmf(0, 0.0) = 1.0] (a Poisson law of mean 0 is the point mass
    at 0). *)
Definition pmf_table (k : Z) (mu : float) : float :=
if (mu <? 0) || is_nan mu then nan
else if (k =? 0)%Z && PrimFloat.Leibniz.eqb mu 0 then 1
else nan.

(** The C library's [pow] with the exponent 2: [pow(0.0, 2) = pow(-0.0, 2) = 0.0],
    [pow(inf, 2) = pow(-inf, 2) = inf] and a NaN base gives NaN (the C
    standard fixes these); [pow(3.0, 2) = 9.0] (an exact square);
    [pow(1e200, 2) = inf] (overflow); and
    [pow(0.2523 - 1.2, 2) = 0x1.cbd86383ddf08p-1], where
    [0.2523 - 1.2 = -0x1.e538ef34d6a16p-1], for either sign of the base, as
    glibc answers it: one unit in the last place below the rounded product
    [0x1.cbd86383ddf09p-1]. *)
Definition pow_table (x y : float) : float :=
if negb (PrimFloat.Leibniz.eqb y 2) then nan
else if x =? 0 then 0
else if is_infinity x then infinity
else if abs x =? 3 then 9
else if abs x =? 1e200 then infinity
else if abs x =? 0x1.e538ef34d6a16p-1 then 0x1.cbd86383ddf08p-1
else nan.

(** *** The tau scan (grid scanner)

    One loop fills the grid [tau] and the three score curves and tracks the
    minimum of each. The evaluators are parameters: [binned] gives the
    chi-square and the binned likelihood of a hypothesis, [unbinned] the
    unbinned likelihood. *)

Section Scan.

Variable binned : float -> result (float * float).
Variable unbinned : float -> float.

Variable Ntau_steps : nat.
Variable min_tau max_tau : float.

(** [delta_tau = (max_tau-min_tau) / Ntau_steps] *)
Definition delta_tau : result float :=
div_int (max_tau - min_tau) Ntau_steps.

(** [tau_hypo = min_tau + itau*delta_tau] *)
Definition tau_hypo_at (delta : float) (itau : nat) : float :=
min_tau + float_of_nat itau * delta.

(** The variables of the scan. [evaluated] is a ghost log of the
    hypotheses the evaluators were run on; the code has no such list. *)
Record scan_state : Type := {
  tau : list float;
  chi2 : list float;
  bllh : list float;
  ullh : list float;
  chi2_minval : float;
  chi2_minpos : float;
  bllh_minval : float;
  bllh_minpos : float;
  ullh_minval : float;
  ullh_minpos : float;
  evaluated : list float
}.

(** [chi2_minval = 999999.9; chi2_minpos = 0.0; ...; tau = np.zeros(Ntau_steps+1); ...] *)
Definition scan_start : scan_state := {|
  tau := replicate (Ntau_steps + 1) 0;
  chi2 := replicate (Ntau_steps + 1) 0;
  bllh := replicate (Ntau_steps + 1) 0;
  ullh := replicate (Ntau_steps + 1) 0;
  chi2_minval := 999999.9;
  chi2_minpos := 0.0;
  bllh_minval := 999999.9;
  bllh_minpos := 0.0;
  ullh_minval := 999999.9;
  ullh_minpos := 0.0;
  evaluated := []
|}.

(** [if (score < minval): minval = score; minpos = tau_hypo] *)
Definition search_minimum (score tau_hypo : float) (m : float * float)
  : float * float :=
if score <? fst m then (score, tau_hypo) else m.

(** The minimum search alone, over the (score, hypothesis) pairs of a curve
    in grid order. *)
Definition minimum_of (curve : list (float * float)) : float * float :=
fold_left (fun m sp => search_minimum (fst sp) (snd sp) m) curve (999999.9, 0.0).

(** Body of [for itau in range(Ntau_steps+1)]. *)
Definition scan_body (delta : float) (st : scan_state) (itau : nat)
  : result scan_state :=
let tau_hypo := tau_hypo_at delta itau in
cb ← binned tau_hypo;
let u := unbinned tau_hypo in
let mc := search_minimum (fst cb) tau_hypo (chi2_minval st, chi2_minpos st) in
let mb := search_minimum (snd cb) tau_hypo (bllh_minval st, bllh_minpos st) in
let mu := search_minimum u tau_hypo (ullh_minval st, ullh_minpos st) in
Ok {|
  tau := <[itau := tau_hypo]> (tau st);
  chi2 := <[itau := fst cb]> (chi2 st);
  bllh := <[itau := snd cb]> (bllh st);
  ullh := <[itau := u]> (ullh st);
  chi2_minval := fst mc;
  chi2_minpos := snd mc;
  bllh_minval := fst mb;
  bllh_minpos := snd mb;
  ullh_minval := fst mu;
  ullh_minpos := snd mu;
  evaluated := evaluated st ++ [tau_hypo]
|}.

(** The scan: the cells from [delta_tau = ...] to the end of the loop. *)
Definition tau_scan : result scan_state :=
delta ← delta_tau;
for_each (scan_body delta) (range (Ntau_steps + 1)) scan_start.

End Scan.

(** What the minimum search reports for a curve on the grid [tau]: no score
    of the curve is below [minval]; and either no score is below the start
    value, which is then reported at position 0.0, or [minval] is the score
    of a grid point, [minpos] is that point and no earlier point has a score
    as low. *)
Definition searched_minimum (tau curve : list float) (minval minpos : float)
  : Prop :=
(forall j c, curve !! j = Some c -> (c <? minval) = false)
/\ ((minval = 999999.9 /\ minpos = 0
     /\ forall j c, curve !! j = Some c -> (c <? 999999.9) = false)
    \/ exists i,
         curve !! i = Some minval /\ tau !! i = Some minpos
         /\ (minval <? 999999.9) = true
         /\ forall j c, (j < i)%nat -> curve !! j = Some c ->
                        (c <=? minval) = false).

(** *** Parabolas *)


Section Parabolas.

(** The C library's [pow], behind [**] on float64 scalars and on Python
    floats. *)
Variable libm_pow : float -> float -> float.



End Parabolas.

(** *** Uncertainty from the curvature: [err = 1.0 / np.sqrt(quadratic)] *)
Definition err (quadratic : float) : float :=
1.0 / sqrt quadratic.

(** *** Uncertainty from the threshold scan (the [ScanChi2] cell) *)

(** [(chi2[itau] - chi2_minval) < 1.0] and [(chi2[itau] - chi2_minval) > 1.0] *)
Definition below_band (chi2_minval c : float) : bool :=
c - chi2_minval <? 1.0.

Definition above_band (chi2_minval c : float) : bool :=
1.0 <? c - chi2_minval.

(** The variables of the cell; [tau_lower] and [tau_upper] are unbound
    until the loop assigns them. *)
Record band : Type := {
  found_lower : bool;
  found_upper : bool;
  tau_lower : option float;
  tau_upper : option float
}.

(** What the cell prints. *)
Inductive scan_report : Type :=
| Chi2ScanGives (minpos plus minus : float)
| ErrorRequirements
| NoScan.

Section Threshold.

Variable Ntau_steps : nat.
Variable tau chi2 : list float.
Variable chi2_minval chi2_minpos : float.

(** [found_lower = False; found_upper = False] *)
Definition band_start : band := {|
  found_lower := false;
  found_upper := false;
  tau_lower := None;
  tau_upper := None
|}.

(** First [if] of the loop body. *)
Definition mark_lower (b : band) (itau : nat) : result band :=
if negb (found_lower b) then
  c ← index chi2 itau;
  if below_band chi2_minval c then
    x ← index tau itau;
    Ok {| found_lower := true;
          found_upper := found_upper b;
          tau_lower := Some x;
          tau_upper := tau_upper b |}
  else Ok b
else Ok b.

(** Second [if] of the loop body. *)
Definition mark_upper (b : band) (itau : nat) : result band :=
if found_lower b && negb (found_upper b) then
  c ← index chi2 itau;
  if above_band chi2_minval c then
    x ← index tau itau;
    Ok {| found_lower := found_lower b;
          found_upper := true;
          tau_lower := tau_lower b;
          tau_upper := Some x |}
  else Ok b
else Ok b.

(** Body of [for itau in range (Ntau_steps+1)]. *)
Definition band_body (b : band) (itau : nat) : result band :=
b' ← mark_lower b itau;
mark_upper b' itau.

(** [((chi2[0] - chi2_minval) > 1.0) and ((chi2[Ntau_steps] - chi2_minval) > 1.0)] *)
Definition boundaries_above : result bool :=
c0 ← index chi2 0;
if above_band chi2_minval c0 then
  cN ← index chi2 Ntau_steps;
  Ok (above_band chi2_minval cN)
else Ok false.

(** The loop, then the values formatted by the [print]. *)
Definition scan_band : result band :=
for_each band_body (range (Ntau_steps + 1)) band_start.

Definition chi2_scan (ScanChi2 : bool) : result scan_report :=
if ScanChi2 then
  above ← boundaries_above;
  if (above : bool) then
    b ← scan_band;
    up ← name (tau_upper b);
    lo ← name (tau_lower b);
    Ok (Chi2ScanGives chi2_minpos (up - chi2_minpos) (chi2_minpos - lo))
  else Ok ErrorRequirements
else Ok NoScan.

(** The effect of the loop body on the cell's variables at a grid point
    [(tau[itau], chi2[itau])]. *)
Definition band_step (b : band) (p : float * float) : band :=
let b' :=
  if negb (found_lower b) && below_band chi2_minval (snd p)
  then {| found_lower := true;
          found_upper := found_upper b;
          tau_lower := Some (fst p);
          tau_upper := tau_upper b |}
  else b in
if found_lower b' && negb (found_upper b') && above_band chi2_minval (snd p)
then {| found_lower := found_lower b';
        found_upper := true;
        tau_lower := tau_lower b';
        tau_upper := Some (fst p) |}
else b'.

End Threshold.

(** The scan cell followed by the [ScanChi2] cell, which reads the grid, the
    chi-square curve and its minimum. *)
Definition scan_and_report (binned : float -> result (float * float))
    (unbinned : float -> float) (Ntau_steps : nat) (min_tau max_tau : float)
    (ScanChi2 : bool) : result scan_report :=
st ← tau_scan binned unbinned Ntau_steps min_tau max_tau;
chi2_scan Ntau_steps (tau st) (chi2 st) (chi2_minval st) (chi2_minpos st) ScanChi2.

End LikelihoodFit.

(** ** Chi2_minimization_animation: the accumulator lists *)

Module Chi2Animation.

#[local] Open Scope float_scope.

Section Animation.

(** [np.sum] is a library routine (its summation order is numpy's). *)
Variable np_sum : list float -> float.

(** The fixed data of the notebook. *)
Variable x y sy : list float.

(** [def linear(x, a): y = a*x], on an array. *)
Definition linear (x : list float) (a : float) : list float :=
(fun xi => a * xi) <$> x.

(** [def calc_chi2(yhat, y, sy): chi2 = np.sum((yhat-y)**2 / sy**2)] *)
Definition calc_chi2 (yhat y sy : list float) : float :=
np_sum (zip_with (fun d s => sq d / sq s) (zip_with sub yhat y) sy).

(** The two global lists. *)
Record accumulators : Type := {
  p0_list : list float;
  chi2_list : list float
}.

(** [p0_list = []; chi2_list = []] *)
Definition empty_lists : accumulators :=
{| p0_list := []; chi2_list := [] |}.

(** [def animate_linear_chi2_fit(p0=0)]: its effect on the two lists (the
    figure it draws is not modelled). *)
Definition animate_linear_chi2_fit (p0 : float) (g : accumulators)
  : accumulators :=
let yhat := linear x p0 in
let chi2 := calc_chi2 yhat y sy in
{| p0_list := p0_list g ++ [p0];
   chi2_list := chi2_list g ++ [chi2] |}.

(** The chi-square of a slope on the fixed data. *)
Definition chi2_of (p0 : float) : float :=
calc_chi2 (linear x p0) y sy.

(** The widget calls the function once for every value the slider takes. *)
Definition interact (values : list float) (g : accumulators) : accumulators :=
fold_left (fun g p0 => animate_linear_chi2_fit p0 g) values g.

End Animation.

End Chi2Animation.

(** ** Error propagation: the check of the correlation parameter *)

Module ErrorPropagation.

#[local] Open Scope float_scope.

(** The parameter cell: [mu1 = 3.5; sig1 = 0.4; mu2 = 0.8; sig2 = 0.2; rho12 = 0.0]. *)
Record parameters : Type := {
  mu1 : float;
  sig1 : float;
  mu2 : float;
  sig2 : float;
  rho12 : float
}.

(** [if not (-1.0 <= rho12 <= 1.0): raise ValueError(...)] *)
Definition check_correlation (rho12 : float) : result unit :=
if negb ((-1.0 <=? rho12) && (rho12 <=? 1.0))
then Raise (ValueError rho12)
else Ok tt.

(** The code cells that follow the parameter cell, in notebook order. *)
Inductive cell : Type :=
| CheckCorrelation
| LatexPrinter
| Derivatives
| AnalyticPropagation
| Imports
| SimulationSettings
| CorrelatedNumbers
| Histogram2D
| GaussianFunction
| Perimeter
| Area
| Diagonal.

Definition notebook : list cell :=
[ CheckCorrelation; LatexPrinter; Derivatives; AnalyticPropagation; Imports;
  SimulationSettings; CorrelatedNumbers; Histogram2D; GaussianFunction;
  Perimeter; Area; Diagonal ].

Section Run.

(** What the cells after the check do is left open. *)
Variable later : cell -> parameters -> result unit.

Definition run_cell (p : parameters) (c : cell) : result unit :=
match c with
| CheckCorrelation => check_correlation (rho12 p)
| _ => later c p
end.

(** Running the cells in order: the cells that completed, and the
    exception that stopped the run, if any. *)
Fixpoint run_cells (p : parameters) (cs executed : list cell)
  : list cell * option exn :=
match cs with
| [] => (executed, None)
| c :: rest =>
    match run_cell p c with
    | Ok _ => run_cells p rest (executed ++ [c])
    | Raise e => (executed, Some e)
    end
end.

Definition run_notebook (p : parameters) : list cell * option exn :=
run_cells p notebook [].

End Run.

End ErrorPropagation.

(** ** Numbers that are not negative *)

Module F64Sign.

(** NaN, or a value of sign [+] (a zero, a number or the infinity): what a
    square, and a sum of squares, can be. *)
Definition not_negative (x : float) : Prop :=
Prim2SF x = S754_nan \/ F64.signed false (Prim2SF x).

End F64Sign.

(** ** numpy boolean masks *)

Module Np.

(** The entries of [a] at the positions where [mask] is True. *)
Fixpoint select {A} (a : list A) (mask : list bool) : list A :=
match a, mask with
| x :: a', b :: mask' => if b then x :: select a' mask' else select a' mask'
| _, _ => []
end.

(** [a[mask]] for a boolean array [mask]: numpy raises IndexError when the
    mask and the array differ in length. *)
Definition mask_index {A} (a : list A) (mask : list bool) : result (list A) :=
if (length mask =? length a)%nat then Ok (select a mask) else Raise IndexError.

(** [np.ones_like(a)] *)
Definition ones_like (a : list float) : list float :=
replicate (length a) 1%float.

End Np.

(** ** LikelihoodFit: the cells around the scan *)

Module LikelihoodFitCells.

Import LikelihoodFit.

#[local] Open Scope float_scope.

(** *** The listing of the generated times

    [for index, time in enumerate(t): print(...); if index > 10: break]:
    the rows printed from position [index] on. *)
Fixpoint print_times (index : nat) (t : list float) : list (nat * float) :=
match t with
| [] => []
| time :: rest =>
    (index, time) :: (if (10 <? index)%nat then [] else print_times (S index) rest)
end.

(** The cell: [if (veryverbose): for index, time in enumerate(t): ...]. *)
Definition listed_times (veryverbose : bool) (t : list float) : list (nat * float) :=
if veryverbose then print_times 0 t else [].

(** *** The scan on the notebook's own evaluators *)

Section ScanCell.

Variable libm_pow : float -> float -> float.
Variable np_exp np_log : float -> float.
Variable poisson_pmf : Z -> float -> float.

Variable Ntimes Nbins : nat.
Variable xExp_edges : list float.
Variable yExp : list Z.
Variable t : list float.

Variable Ntau_steps : nat.
Variable min_tau max_tau : float.

(** Body of [for time in t]:
    [ullh[itau] += -2.0*np.log(1.0/tau_hypo*np.exp(-time/tau_hypo))].
    [tau_hypo] is a Python float, so [1.0/tau_hypo] is Python's division;
    [time] is a numpy float64, so [-time/tau_hypo] is numpy's, which does
    not raise. *)
Definition ullh_body (tau_hypo : float) (ullh time : float) : result float :=
w ← PyFloat.truediv 1.0 tau_hypo;
Ok (ullh + -2.0 * np_log (w * np_exp (- time / tau_hypo))).

(** [ullh[itau] = 0.0; for time in t: ...] *)
Definition ullh_loop (tau_hypo : float) : result float :=
for_each (ullh_body tau_hypo) t 0.

(** Body of [for itau in range(Ntau_steps+1)] as the notebook has it: the
    loop over the bins, the loop over the events, then the stores and the
    minimum search on the scores found. *)
Definition scan_pass (delta : float) (st : scan_state) (itau : nat)
  : result scan_state :=
let tau_hypo := tau_hypo_at min_tau delta itau in
cb ← binned_scores libm_pow np_exp np_log poisson_pmf Ntimes Nbins xExp_edges yExp
       tau_hypo;
u ← ullh_loop tau_hypo;
scan_body (fun _ => Ok cb) (fun _ => u) min_tau delta st itau.

(** The cells from [delta_tau = ...] to the end of the scan loop. *)
Definition scan_cells : result scan_state :=
delta ← delta_tau Ntau_steps min_tau max_tau;
for_each (scan_pass delta) (range (Ntau_steps + 1)) (scan_start Ntau_steps).

End ScanCell.

(** *** The points handed to the parabola fits *)

(** [indexes = (tau>chi2_minpos-min_fit) & (tau<chi2_minpos+max_fit)] *)
Definition fit_window (tau : list float) (chi2_minpos min_fit max_fit : float)
  : list bool :=
(fun x => (chi2_minpos - min_fit <? x) && (x <? chi2_minpos + max_fit)) <$> tau.

(** [sy = np.ones_like(tau)], then the three arrays
    [tau[indexes], chi2[indexes], sy[indexes]] given to [cost.LeastSquares]. *)
Definition fit_points (tau chi2 : list float) (chi2_minpos min_fit max_fit : float)
  : result (list float * list float * list float) :=
let indexes := fit_window tau chi2_minpos min_fit max_fit in
let sy := Np.ones_like tau in
x ← Np.mask_index tau indexes;
y ← Np.mask_index chi2 indexes;
s ← Np.mask_index sy indexes;
Ok (x, y, s).

(** *** The points handed to the chi-square fit of the histogram *)

(** [indexes = yExp>0] *)
Definition nonempty_bins (yExp : list Z) : list bool :=
(fun nobs => (0 <? nobs)%Z) <$> yExp.

(** [xExp = (xExp_edges[1:] + xExp_edges[:-1])/2] *)
Definition bin_centers (xExp_edges : list float) : list float :=
zip_with (fun hi lo => (hi + lo) / 2) (drop 1 xExp_edges) (removelast xExp_edges).

(** [syExp = np.sqrt(yExp)] *)
Definition count_errors (yExp : list Z) : list float :=
(fun nobs => sqrt (float_of_int nobs)) <$> yExp.

(** The three arrays [xExp[indexes], yExp[indexes], syExp[indexes]] given to
    [cost.LeastSquares]. *)
Definition fit_input (xExp_edges : list float) (yExp : list Z)
  : result (list float * list Z * list float) :=
let indexes := nonempty_bins yExp in
let xExp := bin_centers xExp_edges in
let syExp := count_errors yExp in
x ← Np.mask_index xExp indexes;
y ← Np.mask_index yExp indexes;
s ← Np.mask_index syExp indexes;
Ok (x, y, s).

(** A bin of the histogram as the fit sees it: center, count, uncertainty. *)
Definition fit_point (b : float * float * Z) : float * Z * float :=
((snd (fst b) + fst (fst b)) / 2, snd b, sqrt (float_of_int (snd b))).

End LikelihoodFitCells.

(** ** TheChiSquareMiracle: the chi-square of the Gaussian model *)

Module ChiSquareMiracle.

#[local] Open Scope float_scope.

(** The points of the fit: bin centers, counts and their uncertainties. *)
Record points : Type := {
  x : list float;
  y : list Z;
  sy : list float
}.

(** [x = 0.5*(bin_edges[:-1] + bin_edges[1:])[counts>0]; y = counts[counts>0];
    sy = np.sqrt(y)] *)
Definition histogram_points (counts : list Z) (bin_edges : list float)
  : result points :=
let filled := (fun n => (0 <? n)%Z) <$> counts in
sums ← Np.mask_index
         (zip_with PrimFloat.add (removelast bin_edges) (drop 1 bin_edges)) filled;
y ← Np.mask_index counts filled;
Ok {| x := (fun s => 0.5 * s) <$> sums;
      y := y;
      sy := (fun n => sqrt (float_of_int n)) <$> y |}.

(** [np.pi] *)
Definition np_pi : float := 3.141592653589793.

Section Chi2.

(** [np.exp] and [np.sum] are library routines. *)
Variable np_exp : float -> float.
Variable np_sum : list float -> float.

(** [binwidth = (xmax-xmin)/Nbins] *)
Variable binwidth : float.

(** [def func_gauss(x, N, mu, sigma)], on an array [x]. *)
Definition func_gauss (x : list float) (N mu sigma : float) : list float :=
let z := (fun xi => (xi - mu) / sigma) <$> x in
(fun zi => N * binwidth / sqrt (2 * np_pi) / sigma * np_exp (-0.5 * sq zi)) <$> z.

(** [def chi2_owncalc(N, mu, sigma)], on the points [x], [y], [sy] of the
    notebook, which have the same length. *)
Definition chi2_owncalc (d : points) (N mu sigma : float) : float :=
let y_fit := func_gauss (x d) N mu sigma in
np_sum (sq <$> zip_with PrimFloat.div
                 (zip_with (fun yi fi => float_of_int yi - fi) (y d) y_fit)
                 (sy d)).

(** [y_chi2 = np.zeros(len(x_chi2));
     for i in range(len(y_chi2)): y_chi2[i] = chi2_owncalc(N, x_chi2[i], sigma)] *)
Definition chi2_curve (d : points) (N sigma : float) (x_chi2 : list float)
  : result (list float) :=
for_each
  (fun y_chi2 i =>
     mu ← index x_chi2 i;
     Ok (<[i := chi2_owncalc d N mu sigma]> y_chi2))
  (range (length x_chi2))
  (replicate (length x_chi2) 0).

(** The term of a filled bin [(low edge, high edge, count)] in the sum. *)
Definition chi2_bin (N mu sigma : float) (b : float * float * Z) : float :=
let xi := 0.5 * (fst (fst b) + snd (fst b)) in
let z := (xi - mu) / sigma in
let y_fit := N * binwidth / sqrt (2 * np_pi) / sigma * np_exp (-0.5 * sq z) in
sq ((float_of_int (snd b) - y_fit) / sqrt (float_of_int (snd b))).

End Chi2.

(** [np.sum] on the arrays the examples reach: the sum of no entry is 0.0
    and the sum of one entry is that entry. *)
Definition sum_table (a : list float) : float :=
match a with
| [] => 0
| [v] => v
| _ => nan
end.

End ChiSquareMiracle.

(** ** Error propagation: the correlation term of the analytic formula *)

Module ErrorPropagationCells.

#[local] Open Scope float_scope.

(** [sCorr = sqrt(rho*dL*dW); fSC = lambdify((rho,dL,dW),sCorr);
     vSigmaCorr = fSC(rho12,vdL,vdW)]: the expression evaluated on floats
    with numpy's square root, which gives NaN below zero and does not
    raise. *)
Definition fSC (rho dL dW : float) : float :=
sqrt (rho * dL * dW).

(** [vL, vdL = mu1,sig1; vW, vdW = mu2,sig2; vSigmaCorr = fSC(rho12,vdL,vdW)] *)
Definition vSigmaCorr (p : ErrorPropagation.parameters) : float :=
fSC (ErrorPropagation.rho12 p) (ErrorPropagation.sig1 p) (ErrorPropagation.sig2 p).

(** The covariance the simulation uses: the off-diagonal entry
    [rho12*sig1*sig2] of [cov]. *)
Definition cov12 (p : ErrorPropagation.parameters) : float :=
ErrorPropagation.rho12 p * ErrorPropagation.sig1 p * ErrorPropagation.sig2 p.

End ErrorPropagationCells.

(** ** The evaluators in the words of the specification *)

Module Specification.

#[local] Open Scope float_scope.

Section Evaluators.

(** The square, the exponential, the logarithm and the Poisson
    probability, as the program computes them. *)
Variable square : float -> float.
Variable exp log : float -> float.
Variable Poisson_pmf : Z -> float -> float.

(** The total event count and the hypothesis. *)
Variable N : nat.
Variable tau : float.

(** The closed-form integral of the density [exp(-t/tau)/tau] over a bin. *)
Definition bin_integral (xlow xhigh : float) : float :=
exp (- xlow / tau) - exp (- xhigh / tau).

(** The predicted count of the bin: the integral scaled by the total event
    count. *)
Definition predicted (xlow xhigh : float) : float :=
float_of_nat N * bin_integral xlow xhigh.

(** Chi-square: the sum over the bins with [nobs > 0] of
    [(nobs - nexp)^2 / nobs]. *)
Definition chi_square (bins : list (float * float * Z)) : float :=
fold_left
  (fun sum '(xlow, xhigh, nobs) =>
     sum + square (float_of_int nobs - predicted xlow xhigh) / float_of_int nobs)
  (filter (fun b : float * float * Z => (0 < snd b)%Z) bins) 0.

(** Binned likelihood: the sum over every bin of
    [-2 * log(Poisson_pmf(nobs, nexp))]. *)
Definition binned_likelihood (bins : list (float * float * Z)) : float :=
fold_left
  (fun sum '(xlow, xhigh, nobs) =>
     sum + -2 * log (Poisson_pmf nobs (predicted xlow xhigh)))
  bins 0.

End Evaluators.

End Specification.

(** ** Exact values of binary64 numbers *)

Module F64Exact.

Import QArith.

#[local] Open Scope Z_scope.


#[local] Open Scope Q_scope.



(** A number of size below [2^B]. *)
Definition below (B : Z) (x : float) : bool :=
match Prim2SF x with
| S754_zero _ => true
| S754_finite _ m e => (Zpos (digits2_pos m) + e <=? B)%Z
| _ => false
end.

End F64Exact.

(** * Part II: properties *)

(** ** Facts of binary64 arithmetic used by the notebooks *)

Module F64Facts.

Import F64.

#[local] Open Scope float_scope.

Lemma of_spec (x : float) (s : spec_float) : Prim2SF x = s -> x = SF2Prim s.
Proof. intros <-. symmetry. apply SF2Prim_Prim2SF. Qed.

Lemma nan_of_spec (x : float) : Prim2SF x = S754_nan -> x = nan.
Proof. intros H. apply of_spec in H. exact H. Qed.

Lemma is_nan_spec (x : float) : is_nan x = true <-> x = nan.
Proof.
  unfold is_nan. rewrite FloatAxioms.eqb_spec. split.
  - intros H. apply nan_of_spec. unfold SFeqb in H.
    destruct (Prim2SF x) as [s|s| |s m e] eqn:E; try reflexivity; exfalso.
    + discriminate H.
    + destruct s; discriminate H.
    + simpl in H. destruct s; rewrite Z.compare_refl in H;
        rewrite ?Pos.compare_cont_refl in H; discriminate H.
  - intros ->. reflexivity.
Qed.

(** NaN is absorbing for the four operations. *)
Lemma add_nan_l (y : float) : nan + y = nan.
Proof. apply nan_of_spec. rewrite add_spec. reflexivity. Qed.

Lemma add_nan_r (x : float) : x + nan = nan.
Proof.
  apply nan_of_spec. rewrite add_spec. change (Prim2SF nan) with S754_nan.
  destruct (Prim2SF x); reflexivity.
Qed.

Lemma mul_nan_r (x : float) : x * nan = nan.
Proof.
  apply nan_of_spec. rewrite mul_spec. change (Prim2SF nan) with S754_nan.
  destruct (Prim2SF x); reflexivity.
Qed.

Lemma div_nan_r (x : float) : x / nan = nan.
Proof.
  apply nan_of_spec. rewrite div_spec. change (Prim2SF nan) with S754_nan.
  destruct (Prim2SF x); reflexivity.
Qed.

(** Comparisons: [<] and [>=] exclude each other. *)
Lemma SFcompare_antisym (a b : spec_float) :
  SFcompare b a = option_map CompOpp (SFcompare a b).
Proof.
  destruct a as [sa|sa| |sa ma ea], b as [sb|sb| |sb mb eb]; simpl;
    try reflexivity; try (destruct sa; reflexivity);
    try (destruct sb; reflexivity); try (destruct sa, sb; reflexivity).
  assert (Hm : Pos.compare_cont Eq mb ma = CompOpp (Pos.compare_cont Eq ma mb))
    by (symmetry; apply (Pos.compare_cont_antisym ma mb Eq)).
  f_equal. rewrite (Z.compare_antisym ea eb), Hm.
  destruct sa, sb, (ea ?= eb)%Z, (Pos.compare_cont Eq ma mb); reflexivity.
Qed.

Lemma ltb_leb_false (x y : float) : (x <? y) = true -> (y <=? x) = false.
Proof.
  rewrite FloatAxioms.ltb_spec, FloatAxioms.leb_spec. unfold SFltb, SFleb.
  rewrite (SFcompare_antisym (Prim2SF x) (Prim2SF y)).
  destruct (SFcompare (Prim2SF x) (Prim2SF y)) as [[]|]; simpl; congruence.
Qed.


Lemma ltb_gtb_false (x y : float) : (x <? y) = true -> (y <? x) = false.
Proof.
  rewrite !FloatAxioms.ltb_spec. unfold SFltb. rewrite (SFcompare_antisym (Prim2SF x) (Prim2SF y)).
  destruct (SFcompare (Prim2SF x) (Prim2SF y)) as [[]|]; simpl; congruence.
Qed.

(** Cancellation and zeros. *)
Lemma sub_diag (x : float) : finite x -> x - x = 0.
Proof.
  unfold finite. intros H. apply (of_spec _ (S754_zero false)).
  rewrite sub_spec. destruct (Prim2SF x) as [s|s| |s m e]; try contradiction.
  - destruct s; reflexivity.
  - unfold SF64sub, SFsub. rewrite Z.sub_diag. reflexivity.
Qed.


Lemma mul_zero_l (q : float) :
  finite q -> exists s, Prim2SF (0 * q) = S754_zero s.
Proof.
  unfold finite. intros H. rewrite mul_spec.
  change (Prim2SF 0) with (S754_zero false).
  destruct (Prim2SF q) as [s|s| |s m e]; try contradiction; simpl; eauto.
Qed.

Lemma SFcompare_refl (a : spec_float) :
  a <> S754_nan -> SFcompare a a = Some Eq.
Proof.
  destruct a as [s|s| |s m e]; simpl; try congruence.
  - destruct s; reflexivity.
  - intros _. rewrite Z.compare_refl, Pos.compare_cont_refl. destruct s; reflexivity.
Qed.


(** Square roots and reciprocals at the edge of their domain. *)
Lemma sqrt_neg (x : float) : (x <? 0) = true -> sqrt x = nan.
Proof.
  rewrite FloatAxioms.ltb_spec. change (Prim2SF 0) with (S754_zero false).
  intros H. apply nan_of_spec. rewrite sqrt_spec.
  destruct (Prim2SF x) as [s|s| |s m e]; try reflexivity.
  - discriminate H.
  - destruct s; [reflexivity | discriminate H].
  - destruct s; [reflexivity | discriminate H].
Qed.

Lemma inv_sqrt_zero (x : float) :
  (x =? 0) = true -> is_infinity (1 / sqrt x) = true.
Proof.
  rewrite FloatAxioms.eqb_spec. change (Prim2SF 0) with (S754_zero false).
  intros H.
  assert (E : exists s, Prim2SF x = S754_zero s).
  { destruct (Prim2SF x) as [s|s| |s m e]; [eauto | | |].
    - destruct s; discriminate H.
    - discriminate H.
    - destruct s; discriminate H. }
  destruct E as [s E].
  assert (R : 1 / sqrt x = SF2Prim (S754_infinity s)).
  { apply of_spec. rewrite div_spec, sqrt_spec, E. destruct s; reflexivity. }
  rewrite R. destruct s; reflexivity.
Qed.

(** The order of binary64 numbers is transitive. *)
Lemma mag_spec (m1 m2 : positive) (e1 e2 : Z) :
  match (e1 ?= e2)%Z with
  | Lt => Lt | Gt => Gt | Eq => Pos.compare_cont Eq m1 m2
  end
  = if decide (e1 < e2 \/ (e1 = e2 /\ Zpos m1 < Zpos m2))%Z then Lt
    else if decide (e1 = e2 /\ m1 = m2) then Eq else Gt.
Proof.
  change (Pos.compare_cont Eq m1 m2) with (Pos.compare m1 m2).
  destruct (Z.compare_spec e1 e2), (Pos.compare_spec m1 m2);
    repeat case_decide; try reflexivity; exfalso; lia.
Qed.

Lemma mag_opp_spec (m1 m2 : positive) (e1 e2 : Z) :
  match (e1 ?= e2)%Z with
  | Lt => Gt | Gt => Lt | Eq => CompOpp (Pos.compare_cont Eq m1 m2)
  end
  = if decide (e1 < e2 \/ (e1 = e2 /\ Zpos m1 < Zpos m2))%Z then Gt
    else if decide (e1 = e2 /\ m1 = m2) then Eq else Lt.
Proof.
  change (Pos.compare_cont Eq m1 m2) with (Pos.compare m1 m2).
  destruct (Z.compare_spec e1 e2), (Pos.compare_spec m1 m2);
    repeat case_decide; try reflexivity; exfalso; lia.
Qed.

Lemma SFcompare_trans (a b c : spec_float) :
  SFcompare a b = Some Lt \/ SFcompare a b = Some Eq ->
  SFcompare b c = Some Lt ->
  SFcompare a c = Some Lt.
Proof.
  destruct a as [sa|sa| |sa ma ea], b as [sb|sb| |sb mb eb],
    c as [sc|sc| |sc mc ec]; simpl; rewrite ?mag_spec, ?mag_opp_spec;
    repeat match goal with s : bool |- _ => destruct s end; simpl;
    intros [H1|H1] H2; try discriminate; try reflexivity;
    repeat case_decide; simpl in *; try discriminate; try reflexivity;
    exfalso; lia.
Qed.

Lemma ltb_irrefl (x : float) : (x <? x) = false.
Proof.
  rewrite FloatAxioms.ltb_spec. unfold SFltb.
  destruct (Prim2SF x) as [s|s| |s m e] eqn:E; try reflexivity;
    rewrite SFcompare_refl by discriminate; reflexivity.
Qed.

Lemma ltb_trans (a b c : float) :
  (a <? b) = true -> (b <? c) = true -> (a <? c) = true.
Proof.
  rewrite !FloatAxioms.ltb_spec. unfold SFltb. intros H1 H2.
  rewrite (SFcompare_trans (Prim2SF a) (Prim2SF b) (Prim2SF c)); [reflexivity| |].
  - left. destruct (SFcompare (Prim2SF a) (Prim2SF b)) as [[]|]; congruence.
  - destruct (SFcompare (Prim2SF b) (Prim2SF c)) as [[]|]; congruence.
Qed.

Lemma leb_ltb_trans (a b c : float) :
  (a <=? b) = true -> (b <? c) = true -> (a <? c) = true.
Proof.
  rewrite FloatAxioms.leb_spec, !FloatAxioms.ltb_spec. unfold SFleb, SFltb.
  intros H1 H2.
  rewrite (SFcompare_trans (Prim2SF a) (Prim2SF b) (Prim2SF c)); [reflexivity| |].
  - destruct (SFcompare (Prim2SF a) (Prim2SF b)) as [[]|]; auto; congruence.
  - destruct (SFcompare (Prim2SF b) (Prim2SF c)) as [[]|]; congruence.
Qed.

(** Signs of square roots and reciprocals. *)
Lemma iter_pos_inv {A} (P : A -> Prop) (f : A -> A) :
  (forall x, P x -> P (f x)) -> forall n x, P x -> P (SpecFloat.iter_pos f n x).
Proof. intros Hf. induction n as [n IH|n IH|]; intros x Hx; simpl; auto. Qed.

Lemma shr_1_nonneg (mrs : shr_record) :
  (0 <= shr_m mrs)%Z -> (0 <= shr_m (shr_1 mrs))%Z.
Proof.
  destruct mrs as [m r s]. destruct m as [|p|p]; simpl; try lia;
    destruct p; simpl; lia.
Qed.

Lemma shr_fexp_nonneg (m e : Z) (l : location) :
  (0 <= m)%Z -> (0 <= shr_m (fst (shr_fexp prec emax m e l)))%Z.
Proof.
  intros Hm. unfold shr_fexp, shr.
  assert (H0 : (0 <= shr_m (shr_record_of_loc m l))%Z)
    by (destruct l as [|[]]; exact Hm).
  destruct (fexp prec emax (Zdigits2 m + e) - e)%Z; simpl; try exact H0.
  apply iter_pos_inv; [apply shr_1_nonneg | exact H0].
Qed.

Lemma round_nearest_even_nonneg (m : Z) (l : location) :
  (0 <= m)%Z -> (0 <= round_nearest_even m l)%Z.
Proof.
  intros Hm. destruct l as [|[]]; simpl; try lia. destruct (Z.even m); lia.
Qed.

(** Rounding a non-negative mantissa gives a value of the requested sign,
    never NaN. *)
Lemma binary_round_aux_signed (s : bool) (mx ex : Z) (lx : location) :
  (0 <= mx)%Z -> signed s (binary_round_aux prec emax s mx ex lx).
Proof.
  intros Hm. unfold binary_round_aux.
  pose proof (shr_fexp_nonneg mx ex lx Hm) as H1.
  destruct (shr_fexp prec emax mx ex lx) as [mrs' e']. simpl in H1.
  pose proof (shr_fexp_nonneg _ e' loc_Exact
                (round_nearest_even_nonneg _ (loc_of_shr_record mrs') H1)) as H2.
  destruct (shr_fexp prec emax (round_nearest_even (shr_m mrs') (loc_of_shr_record mrs')) e' loc_Exact)
    as [mrs'' e'']. simpl in H2.
  destruct (shr_m mrs'') as [|p|p]; simpl; try reflexivity; try lia.
  destruct (e'' <=? emax - prec)%Z; reflexivity.
Qed.

Lemma positive_spec (q : float) :
  (0 <? q) = true ->
  (exists m e, Prim2SF q = S754_finite false m e) \/ Prim2SF q = S754_infinity false.
Proof.
  rewrite FloatAxioms.ltb_spec. change (Prim2SF 0) with (S754_zero false).
  destruct (Prim2SF q) as [s|s| |s m e]; simpl; try discriminate.
  - destruct s; [discriminate | auto].
  - destruct s; [discriminate | eauto].
Qed.

Lemma sqrt_signed (q : float) :
  (0 <? q) = true -> signed false (Prim2SF (sqrt q)).
Proof.
  intros H. rewrite sqrt_spec.
  destruct (positive_spec q H) as [(m & e & ->)| ->]; [|reflexivity].
  unfold SF64sqrt, SFsqrt.
  destruct (SFsqrt_core_binary prec emax (Z.pos m) e) as [[mz ez] lz] eqn:E.
  apply binary_round_aux_signed.
  unfold SFsqrt_core_binary in E.
  match type of E with context [Z.sqrtrem ?a] =>
    pose proof (Z.sqrtrem_sqrt a) as Hs; pose proof (Z.sqrt_nonneg a) as Hn;
    destruct (Z.sqrtrem a) as [qq rr] end.
  simpl in Hs. inversion E; subst. exact Hn.
Qed.

Lemma inv_signed (y : float) :
  signed false (Prim2SF y) -> signed false (Prim2SF (1 / y)).
Proof.
  intros H. rewrite div_spec.
  change (Prim2SF 1) with (S754_finite false 4503599627370496 (-52)).
  destruct (Prim2SF y) as [s|s| |s m e]; simpl in H; try contradiction; subst s;
    try reflexivity.
  unfold SF64div, SFdiv.
  destruct (SFdiv_core_binary prec emax 4503599627370496 (-52) (Z.pos m) e)
    as [[mz ez] lz] eqn:E.
  apply binary_round_aux_signed.
  unfold SFdiv_core_binary in E.
  match type of E with context [Z.div_eucl ?a ?b] =>
    pose proof (Z.div_pos a b) as Hd;
    unfold Z.div in Hd; destruct (Z.div_eucl a b) as [qq rr] eqn:Eq end.
  inversion E; subst. apply Hd; [|lia].
  match goal with |- (0 <= match ?s with _ => _ end)%Z => destruct s end; try lia.
  apply Z.shiftl_nonneg. lia.
Qed.

Lemma signed_not_nan (x : float) : signed false (Prim2SF x) ->
  is_nan x = false /\ (x <? 0) = false.
Proof.
  intros H. split.
  - destruct (is_nan x) eqn:E; [|reflexivity].
    unfold is_nan in E. rewrite FloatAxioms.eqb_spec in E. unfold SFeqb in E.
    destruct (Prim2SF x) as [s|s| |s m e]; simpl in H; try contradiction; subst s;
      simpl in E; try discriminate.
    rewrite Z.compare_refl, Pos.compare_cont_refl in E. discriminate.
  - rewrite FloatAxioms.ltb_spec. change (Prim2SF 0) with (S754_zero false).
    destruct (Prim2SF x) as [s|s| |s m e]; simpl in H; try contradiction; subst s;
      reflexivity.
Qed.

End F64Facts.

(** ** Facts about the Python layer *)

Module PyFacts.

Lemma index_Ok {A} (a : list A) (i : nat) (x : A) :
  a !! i = Some x -> index a i = Ok x.
Proof. unfold index. intros ->. reflexivity. Qed.

Lemma index_lt {A} (a : list A) (i : nat) :
  i < length a -> exists x, a !! i = Some x /\ index a i = Ok x.
Proof.
  intros H. destruct (lookup_lt_is_Some_2 a i H) as [x Hx].
  exists x. split; [exact Hx | apply index_Ok, Hx].
Qed.

(** A loop whose body never raises is a left fold. *)
Lemma for_each_pure {S I} (body : S -> I -> result S) (g : S -> I -> S)
    (xs : list I) :
  (forall st i, i ∈ xs -> body st i = Ok (g st i)) ->
  forall st, for_each body xs st = Ok (fold_left g xs st).
Proof.
  induction xs as [|i xs IH]; intros H st; simpl; [reflexivity|].
  rewrite H by apply list_elem_of_here. simpl.
  apply IH. intros st' j Hj. apply H. apply list_elem_of_further, Hj.
Qed.

Lemma for_each_app {S I} (body : S -> I -> result S) (xs ys : list I) (st : S) :
  for_each body (xs ++ ys) st = for_each body xs st ≫= for_each body ys.
Proof.
  revert st. induction xs as [|i xs IH]; intros st; simpl; [reflexivity|].
  destruct (body st i) as [st'|e]; simpl; [apply IH | reflexivity].
Qed.

Lemma range_S (n : nat) : range (S n) = range n ++ [n].
Proof. unfold range. rewrite seq_S. reflexivity. Qed.

Lemma length_range (n : nat) : length (range n) = n.
Proof. apply length_seq. Qed.

(** A loop over the indices of a list whose body reads the list there. *)
Lemma for_each_index {S A} (body : S -> nat -> result S) (g : S -> A -> S)
    (l : list A) :
  (forall st i x, l !! i = Some x -> body st i = Ok (g st x)) ->
  forall st, for_each body (range (length l)) st = Ok (fold_left g l st).
Proof.
  induction l as [|x l IH] using rev_ind; intros H st; [reflexivity|].
  rewrite length_app, Nat.add_1_r, range_S, for_each_app, fold_left_app.
  rewrite IH.
  - simpl. rewrite (H _ (length l) x); [reflexivity|].
    apply list_lookup_middle. reflexivity.
  - intros st' i y Hy. apply H. apply lookup_app_l_Some, Hy.
Qed.

End PyFacts.

(** ** Uncertainty from the curvature *)

Module Curvature.

Import F64 F64Facts LikelihoodFit.
#[local] Open Scope float_scope.

(** C5, as stated, fails: for the negative curvature [-1.0] the cell does
    not stop with a failure, it binds [err] to NaN. *)
Lemma err_negative_curvature_nan : err (-1) = nan.
Proof. reflexivity. Qed.

(** C5 (amended): the uncertainty cell returns [1 / sqrt(quadratic)] for
    every curvature and has no failure branch: for a positive curvature the
    value is not NaN and not negative, for a negative curvature it is NaN,
    for a zero curvature it is an infinity. *)
Theorem err_of_curvature (quadratic : float) :
  err quadratic = 1 / sqrt quadratic
  /\ ((0 <? quadratic) = true ->
      is_nan (err quadratic) = false /\ (err quadratic <? 0) = false)
  /\ ((quadratic <? 0) = true -> err quadratic = nan)
  /\ ((quadratic =? 0) = true -> is_infinity (err quadratic) = true).
Proof.
  split; [reflexivity|]. split; [|split].
  - intros H. apply signed_not_nan, inv_signed, sqrt_signed, H.
  - intros H. unfold err. rewrite (sqrt_neg _ H). apply div_nan_r.
  - intros H. apply inv_sqrt_zero, H.
Qed.

Lemma err_of_curvature_witness :
  (is_nan (err 3) = false /\ (err 3 <? 0) = false)
  /\ err (-4) = nan /\ is_infinity (err 0) = true.
Proof.
  split; [|split].
  - apply (proj1 (proj2 (err_of_curvature 3))). reflexivity.
  - apply (proj1 (proj2 (proj2 (err_of_curvature (-4))))). reflexivity.
  - apply (proj2 (proj2 (proj2 (err_of_curvature 0)))). reflexivity.
Defined.

End Curvature.

(** ** The check of the correlation parameter *)

Module Correlation.

Import F64Facts ErrorPropagation.
#[local] Open Scope float_scope.

Lemma check_outside (rho : float) :
  (rho <? -1) || (1 <? rho) = true ->
  check_correlation rho = Raise (ValueError rho).
Proof.
  intros H. unfold check_correlation.
  apply orb_true_iff in H as [H|H]; apply ltb_leb_false in H; rewrite H.
  - reflexivity.
  - rewrite andb_false_r. reflexivity.
Qed.

Lemma check_inside (rho : float) :
  (-1 <=? rho) && (rho <=? 1) = true -> check_correlation rho = Ok tt.
Proof. intros H. unfold check_correlation. rewrite H. reflexivity. Qed.

(** C9: a correlation outside [-1, 1] stops the notebook with a
    [ValueError] at the check, the first cell after the parameters, so that
    no later cell has run, whatever the later cells do; a correlation inside
    [-1, 1] passes the check and the run goes on with the next cell. *)
Theorem correlation_checked_first
    (later : cell -> parameters -> result unit) (p : parameters) :
  ((rho12 p <? -1) || (1 <? rho12 p) = true ->
     run_notebook later p = ([], Some (ValueError (rho12 p))))
  /\ ((-1 <=? rho12 p) && (rho12 p <=? 1) = true ->
        check_correlation (rho12 p) = Ok tt
        /\ run_notebook later p
           = run_cells later p (tail notebook) [CheckCorrelation]).
Proof.
  split; intros H.
  - unfold run_notebook. simpl. rewrite (check_outside _ H). reflexivity.
  - split; [apply check_inside, H|].
    unfold run_notebook. simpl run_cells at 1.
    rewrite (check_inside _ H). reflexivity.
Qed.

Lemma correlation_checked_first_witness :
  run_notebook (fun _ _ => Ok tt)
    {| mu1 := 3.5; sig1 := 0.4; mu2 := 0.8; sig2 := 0.2; rho12 := 1.5 |}
  = ([], Some (ValueError 1.5))
  /\ check_correlation 0.5 = Ok tt.
Proof.
  split.
  - apply (proj1 (correlation_checked_first (fun _ _ => Ok tt)
      {| mu1 := 3.5; sig1 := 0.4; mu2 := 0.8; sig2 := 0.2; rho12 := 1.5 |})).
    reflexivity.
  - apply (proj2 (correlation_checked_first (fun _ _ => Ok tt)
      {| mu1 := 3.5; sig1 := 0.4; mu2 := 0.8; sig2 := 0.2; rho12 := 0.5 |})).
    reflexivity.
Defined.

End Correlation.

(** ** The accumulator lists of the animation *)

Module Accumulators.

Import Chi2Animation.

Section Animation.

Variable np_sum : list float -> float.
Variable x y sy : list float.

Let animate := animate_linear_chi2_fit np_sum x y sy.
Let chi2_of := chi2_of np_sum x y sy.

Lemma interact_snoc (values : list float) (p0 : float) (g : accumulators) :
  interact np_sum x y sy (values ++ [p0]) g
  = animate p0 (interact np_sum x y sy values g).
Proof. unfold interact. rewrite fold_left_app. reflexivity. Qed.

Lemma interact_lists (values : list float) :
  p0_list (interact np_sum x y sy values empty_lists) = values
  /\ chi2_list (interact np_sum x y sy values empty_lists) = chi2_of <$> values.
Proof.
  induction values as [|p0 values IH] using rev_ind; [split; reflexivity|].
  rewrite interact_snoc. destruct IH as [IHp IHc]. simpl.
  rewrite IHp, IHc, fmap_app. split; reflexivity.
Qed.

(** C10: a call appends exactly one element to each list, and after any
    sequence of calls the lists have the same length and the i-th
    chi-square is the chi-square of the i-th parameter on the fixed data. *)
Theorem accumulators_in_step :
  (forall p0 g,
      p0_list (animate p0 g) = p0_list g ++ [p0]
      /\ chi2_list (animate p0 g) = chi2_list g ++ [chi2_of p0]
      /\ length (p0_list (animate p0 g)) = S (length (p0_list g))
      /\ length (chi2_list (animate p0 g)) = S (length (chi2_list g)))
  /\ (forall values,
        let g := interact np_sum x y sy values empty_lists in
        length (p0_list g) = length (chi2_list g)
        /\ length (p0_list g) = length values
        /\ forall i p0, p0_list g !! i = Some p0 ->
                        chi2_list g !! i = Some (chi2_of p0)).
Proof.
  split.
  - intros p0 g. simpl. rewrite !length_app. simpl.
    repeat split; try reflexivity; lia.
  - intros values g. subst g.
    destruct (interact_lists values) as [-> ->].
    rewrite length_fmap. repeat split; try reflexivity.
    intros i p0 Hi. rewrite list_lookup_fmap, Hi. reflexivity.
Qed.

End Animation.

Lemma accumulators_in_step_witness :
  chi2_list
    (interact (fun l => fold_left PrimFloat.add l 0%float)
       [1; 2]%float [1.5; 3]%float [1; 1]%float [0; 1.5]%float empty_lists)
    !! 1%nat
  = Some (chi2_of (fun l => fold_left PrimFloat.add l 0%float)
            [1; 2]%float [1.5; 3]%float [1; 1]%float 1.5%float).
Proof.
  apply (proj2 (accumulators_in_step
                  (fun l => fold_left PrimFloat.add l 0%float)
                  [1; 2]%float [1.5; 3]%float [1; 1]%float)
           [0; 1.5]%float).
  reflexivity.
Defined.

End Accumulators.
(** ** The parabolas *)

Module Parabola.

Import F64 F64Facts LikelihoodFit.
#[local] Open Scope float_scope.

Section Power.

Variable libm_pow : float -> float -> float.




End Power.




End Parabola.

(** ** The chi-square and binned-likelihood evaluators *)

Module Evaluators.

Import F64 F64Facts PyFacts LikelihoodFit.
#[local] Open Scope float_scope.

(** Conversion of a count that binary64 represents exactly. *)
Lemma digits2_lower (p : positive) :
  (2 ^ (Zpos (digits2_pos p) - 1) <= Zpos p)%Z.
Proof.
  induction p as [p IH|p IH|]; simpl digits2_pos.
  - rewrite Pos2Z.inj_succ. replace (Z.succ (Zpos (digits2_pos p)) - 1)%Z
      with (Z.succ (Zpos (digits2_pos p) - 1))%Z by lia.
    rewrite Z.pow_succ_r by lia. lia.
  - rewrite Pos2Z.inj_succ. replace (Z.succ (Zpos (digits2_pos p)) - 1)%Z
      with (Z.succ (Zpos (digits2_pos p) - 1))%Z by lia.
    rewrite Z.pow_succ_r by lia. lia.
  - simpl. lia.
Qed.

Lemma digits2_iter (p k : positive) :
  digits2_pos (Pos.iter xO p k) = (digits2_pos p + k)%positive.
Proof.
  induction k as [|k IH] using Pos.peano_ind.
  - simpl. lia.
  - rewrite Pos.iter_succ. simpl. rewrite IH. lia.
Qed.

Lemma round_canonical (s : bool) (m : positive) (e : Z) :
  fexp prec emax (Zpos (digits2_pos m) + e) = e ->
  (e <= emax - prec)%Z ->
  binary_round_aux prec emax s (Zpos m) e loc_Exact = S754_finite s m e.
Proof.
  intros Hc He. unfold binary_round_aux, shr_fexp. simpl Zdigits2.
  rewrite Hc, Z.sub_diag. simpl. rewrite Hc, Z.sub_diag. simpl.
  destruct (Z.leb_spec e (emax - prec)); [reflexivity | lia].
Qed.

Lemma float_of_int_pos (z : Z) :
  (0 < z < 2 ^ 53)%Z ->
  exists m e, Prim2SF (float_of_int z) = S754_finite false m e.
Proof.
  intros Hz. unfold float_of_int. rewrite of_uint63_spec, Uint63.of_Z_spec.
  rewrite Z.mod_small by (change Uint63.wB with (2 ^ 63)%Z; lia).
  destruct z as [|p|p]; try lia.
  pose proof (digits2_lower p) as Hd.
  assert (Hd53 : (Zpos (digits2_pos p) <= 53)%Z).
  { destruct (Z.le_gt_cases (Zpos (digits2_pos p)) 53) as [|Hgt]; [assumption|].
    assert ((2 ^ 53 <= 2 ^ (Zpos (digits2_pos p) - 1))%Z)
      by (apply Z.pow_le_mono_r; lia).
    lia. }
  unfold binary_normalize, binary_round.
  assert (Hf : fexp prec emax (Zpos (digits2_pos p) + 0)
               = (Zpos (digits2_pos p) - 53)%Z).
  { unfold fexp, SpecFloat.emin, prec, emax. lia. }
  rewrite Hf. unfold shl_align.
  destruct (Zpos (digits2_pos p) - 53 - 0)%Z as [|k|k] eqn:Ek; try lia.
  - eexists _, _. apply round_canonical; [|unfold emax, prec; lia].
    unfold fexp, SpecFloat.emin, prec, emax. lia.
  - eexists _, _. apply round_canonical; [|unfold emax, prec; lia].
    rewrite digits2_iter. unfold fexp, SpecFloat.emin, prec, emax. lia.
Qed.

(** A float that compares equal to a positive number is that number. *)
Lemma eqb_positive_eq (x y : float) (m : positive) (e : Z) :
  Prim2SF x = S754_finite false m e -> (x =? y) = true -> y = x.
Proof.
  intros Hx. rewrite FloatAxioms.eqb_spec, Hx. unfold SFeqb. intros H.
  apply Prim2SF_inj. rewrite Hx.
  destruct (Prim2SF y) as [s|s| |s m' e']; simpl in H; try discriminate H.
  - destruct s; discriminate H.
  - destruct s; [discriminate H|].
    destruct (Z.compare_spec e e'); try discriminate H. subst e'.
    change (Pos.compare_cont Eq m m') with (Pos.compare m m') in H.
    destruct (Pos.compare_spec m m'); try discriminate H. subst m'.
    reflexivity.
Qed.

(** A count equal to the expectation gives the term 0.0, the power of 0.0
    being 0.0. *)
Lemma chi2_term_exact (libm_pow : float -> float -> float) (nobs : Z)
    (nexp : float) :
  libm_pow 0 2 = 0 ->
  (0 < nobs < 2 ^ 53)%Z -> (float_of_int nobs =? nexp) = true ->
  chi2_term libm_pow nobs nexp = 0.
Proof.
  intros H0 Hn He. destruct (float_of_int_pos nobs Hn) as (m & e & Hs).
  rewrite (eqb_positive_eq _ _ m e Hs He). unfold chi2_term.
  rewrite sub_diag by (unfold finite; rewrite Hs; exact I).
  rewrite H0. apply (of_spec _ (S754_zero false)).
  rewrite div_spec, Hs. reflexivity.
Qed.

End Evaluators.

Module EvaluatorLoops.

Import F64 F64Facts PyFacts LikelihoodFit Evaluators.
#[local] Open Scope float_scope.

Lemma fold_left_ext {A B} (f g : A -> B -> A) (l : list B) (a : A) :
  (forall a b, f a b = g a b) -> fold_left f l a = fold_left g l a.
Proof.
  intros H. revert a. induction l as [|b l IH]; intros a; [reflexivity|].
  simpl. rewrite H. apply IH.
Qed.

Section Loops.

Variable libm_pow : float -> float -> float.
Variable np_exp np_log : float -> float.
Variable poisson_pmf : Z -> float -> float.
Variable Ntimes Nbins : nat.
Variable xExp_edges : list float.
Variable yExp : list Z.

(** The histogram invariant: one more edge than counts. *)
Hypothesis counts_length : length yExp = Nbins.
Hypothesis edges_length : length xExp_edges = (Nbins + 1)%nat.

Let bins := bins xExp_edges yExp.
Let nexp_of := nexp_of np_exp Ntimes.
Let bin_step := bin_step libm_pow np_exp np_log poisson_pmf Ntimes.
Let bin_body := bin_body libm_pow np_exp np_log poisson_pmf Ntimes xExp_edges yExp.
Let chi2_score :=
  chi2_score libm_pow np_exp np_log poisson_pmf Ntimes Nbins xExp_edges yExp.
Let bllh_score :=
  bllh_score libm_pow np_exp np_log poisson_pmf Ntimes Nbins xExp_edges yExp.

Lemma bins_lookup (ibin : nat) (xlow xhigh : float) (nobs : Z) :
  bins !! ibin = Some (xlow, xhigh, nobs)
  <-> xExp_edges !! ibin = Some xlow
      /\ xExp_edges !! (ibin + 1)%nat = Some xhigh
      /\ yExp !! ibin = Some nobs.
Proof using Type.
  unfold bins, LikelihoodFit.bins. rewrite lookup_zip_with_Some. split.
  - intros ([xl xh] & n & E & Hz & Hn). injection E as E1 E2 E3.
    subst xl xh n.
    apply lookup_zip_with_Some in Hz as (a & b & E' & Ha & Hb).
    injection E' as E1 E2. subst a b. rewrite lookup_drop in Hb.
    rewrite Nat.add_comm. auto.
  - intros (Hl & Hh & Hn). exists (xlow, xhigh), nobs.
    split; [reflexivity|]. split; [|exact Hn].
    apply lookup_zip_with_Some. exists xlow, xhigh.
    split; [reflexivity|]. split; [exact Hl|].
    rewrite lookup_drop, Nat.add_comm. exact Hh.
Qed.

Lemma bins_length : length bins = Nbins.
Proof using counts_length edges_length.
  unfold bins, LikelihoodFit.bins.
  rewrite !length_zip_with, length_drop. lia.
Qed.

Lemma bin_body_step (tau_hypo : float) (acc : float * float) (ibin : nat)
    (b : float * float * Z) :
  bins !! ibin = Some b -> bin_body tau_hypo acc ibin = Ok (bin_step tau_hypo acc b).
Proof using Type.
  destruct b as [[xlow xhigh] nobs]. intros H.
  apply bins_lookup in H as (Hl & Hh & Hn).
  unfold bin_body, LikelihoodFit.bin_body.
  rewrite (index_Ok _ _ _ Hl), (index_Ok _ _ _ Hh), (index_Ok _ _ _ Hn).
  reflexivity.
Qed.

Lemma binned_scores_fold (tau_hypo : float) :
  binned_scores libm_pow np_exp np_log poisson_pmf Ntimes Nbins xExp_edges yExp
    tau_hypo
  = Ok (fold_left (bin_step tau_hypo) bins (0, 0)).
Proof using counts_length edges_length.
  unfold binned_scores. rewrite <- bins_length.
  apply for_each_index. intros st i b Hb. apply bin_body_step, Hb.
Qed.

Lemma fold_chi2 (tau_hypo : float) (l : list (float * float * Z))
    (acc : float * float) :
  fst (fold_left (bin_step tau_hypo) l acc)
  = fold_left (fun s b => s + chi2_term libm_pow (snd b) (nexp_of tau_hypo b))
      (filter (fun b => (0 < snd b)%Z) l) (fst acc).
Proof.
  revert acc. induction l as [|b l IH]; intros acc; [reflexivity|].
  simpl fold_left at 1. rewrite IH. rewrite filter_cons.
  unfold bin_step, LikelihoodFit.bin_step at 1. simpl fst.
  destruct (Z.ltb_spec 0 (snd b)) as [Hp|Hn].
  - rewrite decide_True by exact Hp. reflexivity.
  - rewrite decide_False by lia. reflexivity.
Qed.

Lemma fold_bllh (tau_hypo : float) (l : list (float * float * Z))
    (acc : float * float) :
  snd (fold_left (bin_step tau_hypo) l acc)
  = fold_left (fun s b => s + bllh_term np_log poisson_pmf (snd b) (nexp_of tau_hypo b))
      l (snd acc).
Proof.
  revert acc. induction l as [|b l IH]; intros acc; [reflexivity|].
  simpl fold_left at 1. rewrite IH. reflexivity.
Qed.

(** A NaN term makes the sum NaN. *)
Lemma fold_add_nan {A} (f : A -> float) (l : list A) :
  fold_left (fun s b => s + f b) l nan = nan.
Proof.
  induction l as [|b l IH]; [reflexivity|]. simpl. rewrite add_nan_l. exact IH.
Qed.

Lemma fold_add_nan_term {A} (f : A -> float) (l : list A) (b : A) (s : float) :
  b ∈ l -> f b = nan -> fold_left (fun s b => s + f b) l s = nan.
Proof.
  intros Hb Hf. revert s. induction l as [|c l IH]; intros s.
  - inversion Hb.
  - simpl. apply elem_of_cons in Hb as [->|Hb].
    + rewrite Hf, add_nan_r. apply fold_add_nan.
    + apply IH, Hb.
Qed.

(** The two loops and the sums of the specification. *)
Lemma chi2_score_sum (tau_hypo : float) :
  chi2_score tau_hypo
  = Ok (Specification.chi_square (fun d => libm_pow d 2) np_exp Ntimes tau_hypo bins).
Proof using counts_length edges_length.
  unfold chi2_score, LikelihoodFit.chi2_score. rewrite binned_scores_fold. simpl.
  rewrite fold_chi2. f_equal. apply fold_left_ext.
  intros s [[xlow xhigh] nobs]. reflexivity.
Qed.

Lemma bllh_score_sum (tau_hypo : float) :
  bllh_score tau_hypo
  = Ok (Specification.binned_likelihood np_exp np_log poisson_pmf Ntimes tau_hypo
          bins).
Proof using counts_length edges_length.
  unfold bllh_score, LikelihoodFit.bllh_score. rewrite binned_scores_fold. simpl.
  rewrite fold_bllh. f_equal. apply fold_left_ext.
  intros s [[xlow xhigh] nobs]. reflexivity.
Qed.

(** One pass of the loop body at a bin of the histogram. *)
Lemma bin_body_bin (tau_hypo : float) (acc : float * float) (ibin : nat)
    (xlow xhigh : float) (nobs : Z) :
  bins !! ibin = Some (xlow, xhigh, nobs) ->
  let nexp := Specification.predicted np_exp Ntimes tau_hypo xlow xhigh in
  bin_body tau_hypo acc ibin
  = Ok (if (0 <? nobs)%Z
        then fst acc + libm_pow (float_of_int nobs - nexp) 2 / float_of_int nobs
        else fst acc,
        snd acc + -2 * np_log (poisson_pmf nobs nexp)).
Proof using Type.
  intros Hb nexp. rewrite (bin_body_step _ _ _ _ Hb). reflexivity.
Qed.

(** C4 (amended): on a histogram, the binned-likelihood evaluator returns
    the sum over every bin, empty or not, of
    [-2 log(Poisson_pmf(nobs, nexp))], [nexp] being the integral of the
    density over the bin scaled by the number of events; it has no test on
    [nexp] and no failure branch: the score is NaN as soon as the logarithm
    of the probability is NaN for some bin, which is the case for a negative
    [nexp] when the probability of an invalid mean is NaN and so is the
    logarithm of NaN. *)
Theorem bllh_evaluator (tau_hypo : float) :
  let nexp := Specification.predicted np_exp Ntimes tau_hypo in
  exists hist : list (float * float * Z),
    length hist = Nbins
    /\ (forall ibin xlow xhigh nobs,
          hist !! ibin = Some (xlow, xhigh, nobs)
          <-> xExp_edges !! ibin = Some xlow
              /\ xExp_edges !! (ibin + 1)%nat = Some xhigh
              /\ yExp !! ibin = Some nobs)
    /\ bllh_score tau_hypo
       = Ok (Specification.binned_likelihood np_exp np_log poisson_pmf Ntimes
               tau_hypo hist)
    /\ (forall ibin xlow xhigh nobs acc,
          hist !! ibin = Some (xlow, xhigh, nobs) ->
          exists chi2,
            bin_body tau_hypo acc ibin
            = Ok (chi2, snd acc + -2 * np_log (poisson_pmf nobs (nexp xlow xhigh))))
    /\ (forall xlow xhigh nobs, (xlow, xhigh, nobs) ∈ hist ->
          np_log (poisson_pmf nobs (nexp xlow xhigh)) = nan ->
          bllh_score tau_hypo = Ok nan)
    /\ ((forall k mu, (mu <? 0) = true -> poisson_pmf k mu = nan) ->
        np_log nan = nan ->
        forall xlow xhigh nobs, (xlow, xhigh, nobs) ∈ hist ->
          (nexp xlow xhigh <? 0) = true ->
          bllh_score tau_hypo = Ok nan).
Proof using counts_length edges_length.
  intros nexp.
  assert (N : forall xlow xhigh nobs, (xlow, xhigh, nobs) ∈ bins ->
        np_log (poisson_pmf nobs (nexp xlow xhigh)) = nan ->
        bllh_score tau_hypo = Ok nan).
  { intros xlow xhigh nobs Hb Hnan. rewrite bllh_score_sum. f_equal.
    unfold Specification.binned_likelihood.
    rewrite (fold_left_ext _
      (fun s (b : float * float * Z) =>
         s + -2 * np_log (poisson_pmf (snd b) (nexp (fst (fst b)) (snd (fst b))))))
      by (intros s [[xl xh] n]; reflexivity).
    apply (fold_add_nan_term _ _ (xlow, xhigh, nobs)); [exact Hb|].
    simpl. rewrite Hnan. apply mul_nan_r. }
  exists bins. split; [apply bins_length|]. split; [apply bins_lookup|].
  split; [apply bllh_score_sum|]. split; [|split; [exact N|]].
  - intros ibin xlow xhigh nobs acc Hb.
    rewrite (bin_body_bin _ _ _ _ _ _ Hb). eexists. reflexivity.
  - intros Hpmf Hlog xlow xhigh nobs Hb Hneg. apply (N _ _ _ Hb).
    rewrite (Hpmf _ _ Hneg). exact Hlog.
Qed.

End Loops.

(** With no events ([Ntimes = 0]) the single empty bin has [nexp = 0.0],
    and with any library routines that take the four values
    [exp(-0.0) = 1], [exp(-2000.0) = 0], [pmf(0, 0.0) = 1] and [log(1.0) = 0]
    the binned likelihood is the number 0.0. *)
Lemma bllh_without_events (libm_pow : float -> float -> float)
    (np_exp np_log : float -> float) (poisson_pmf : Z -> float -> float) :
  np_exp (-0) = 1 -> np_exp (-2000) = 0 ->
  poisson_pmf 0%Z 0 = 1 -> np_log 1 = 0 ->
  nexp_bin np_exp 0 0 1000 0.5 = 0
  /\ bllh_score libm_pow np_exp np_log poisson_pmf 0 1 [0; 1000] [0%Z] 0.5 = Ok 0.
Proof.
  intros He0 Heu Hpmf Hlog.
  assert (N : nexp_bin np_exp 0 0 1000 0.5 = 0).
  { assert (E0 : np_exp (PrimFloat.opp 0 / 0.5) = 1) by exact He0.
    assert (Eu : np_exp (PrimFloat.opp 1000 / 0.5) = 0) by exact Heu.
    unfold nexp_bin. rewrite E0, Eu. reflexivity. }
  split; [exact N|].
  unfold bllh_score, binned_scores. simpl.
  unfold bllh_term. rewrite N, Hpmf, Hlog. reflexivity.
Qed.

(** C4, as stated, fails: with no events the single empty bin has
    [nexp = 0.0 <= 0], and the score is the number 0.0, not NaN. *)
Lemma bllh_zero_expectation_is_a_number :
  nexp_bin exp_table 0 0 1000 0.5 = 0
  /\ (nexp_bin exp_table 0 0 1000 0.5 <=? 0) = true
  /\ bllh_score pow_table exp_table log_table pmf_table 0 1 [0; 1000] [0%Z] 0.5
     = Ok 0
  /\ is_nan 0 = false.
Proof.
  destruct (bllh_without_events pow_table exp_table log_table pmf_table
              eq_refl eq_refl eq_refl eq_refl) as [N B].
  split; [exact N|]. split; [rewrite N; reflexivity|].
  split; [exact B | reflexivity].
Qed.

(** A mean below zero is not the one entry of the table of probabilities. *)
Lemma pmf_table_invalid (k : Z) (mu : float) :
  (mu <? 0) = true -> pmf_table k mu = nan.
Proof. intros H. unfold pmf_table. rewrite H. reflexivity. Qed.

Lemma bllh_evaluator_witness :
  Specification.predicted exp_table 3 (-0.5) 0 1000 = neg_infinity
  /\ bllh_score pow_table exp_table log_table pmf_table 3 2 [0; 1000; 2000]
       [3%Z; 0%Z] (-0.5)
     = Ok nan.
Proof.
  split; [reflexivity|].
  destruct (bllh_evaluator pow_table exp_table log_table pmf_table 3 2
              [0; 1000; 2000] [3%Z; 0%Z] eq_refl eq_refl (-0.5))
    as (hist & _ & Hbins & _ & _ & _ & Hneg).
  apply (Hneg pmf_table_invalid eq_refl 0 1000 3%Z).
  - apply list_elem_of_lookup. exists 0%nat. apply Hbins. repeat split.
  - reflexivity.
Defined.

End EvaluatorLoops.

(** ** The tau scan *)

Module Scan.

Import F64 F64Facts PyFacts LikelihoodFit.
#[local] Open Scope float_scope.

(** *** The minimum search *)

Lemma minimum_of_snoc (l : list (float * float)) (s p : float) :
  minimum_of (l ++ [(s, p)]) = search_minimum s p (minimum_of l).
Proof. unfold minimum_of. rewrite fold_left_app. reflexivity. Qed.

(** The search keeps the first least score below the start value, and the
    start value when there is none. *)
Lemma minimum_of_spec (l : list (float * float)) :
  (forall j s p, l !! j = Some (s, p) -> (s <? fst (minimum_of l)) = false)
  /\ ((minimum_of l = (999999.9, 0)
       /\ forall j s p, l !! j = Some (s, p) -> (s <? 999999.9) = false)
      \/ exists i s p,
           l !! i = Some (s, p) /\ minimum_of l = (s, p)
           /\ (s <? 999999.9) = true
           /\ forall j s' p', (j < i)%nat -> l !! j = Some (s', p') ->
                              (s' <=? s) = false).
Proof.
  induction l as [|[s p] l [IHmin IH]] using rev_ind.
  - split; [intros j s p H; inversion H|].
    left. split; [reflexivity|]. intros j s p H. inversion H.
  - rewrite minimum_of_snoc. unfold search_minimum.
    destruct (s <? fst (minimum_of l)) eqn:Hlt.
    + (* a new minimum *)
      assert (Hprev : forall j s' p', l !! j = Some (s', p') -> (s' <=? s) = false).
      { intros j s' p' Hj. destruct (s' <=? s) eqn:Hle; [|reflexivity].
        specialize (IHmin j s' p' Hj).
        rewrite (leb_ltb_trans _ _ _ Hle Hlt) in IHmin. discriminate IHmin. }
      split.
      * intros j s' p' Hj. simpl.
        destruct (decide (j < length l)%nat) as [Hjl|Hjl].
        -- rewrite lookup_app_l in Hj by exact Hjl.
           destruct (s' <? s) eqn:Hs; [|reflexivity].
           specialize (IHmin j s' p' Hj).
           rewrite (ltb_trans _ _ _ Hs Hlt) in IHmin. discriminate IHmin.
        -- rewrite lookup_app_r in Hj by lia.
           destruct (j - length l)%nat; simpl in Hj; [|inversion Hj].
           inversion Hj; subst. apply ltb_irrefl.
      * right. exists (length l), s, p.
        split; [|split; [reflexivity|split]].
        -- apply list_lookup_middle. reflexivity.
        -- destruct IH as [[E Hall]|(i & s0 & p0 & Hi & E & Hs0 & _)].
           ++ rewrite E in Hlt. exact Hlt.
           ++ rewrite E in Hlt. apply (ltb_trans _ _ _ Hlt Hs0).
        -- intros j s' p' Hj Hl. rewrite lookup_app_l in Hl by exact Hj.
           apply (Hprev j s' p' Hl).
    + (* the minimum stays *)
      split.
      * intros j s' p' Hj.
        destruct (decide (j < length l)%nat) as [Hjl|Hjl].
        -- rewrite lookup_app_l in Hj by exact Hjl. apply (IHmin j s' p' Hj).
        -- rewrite lookup_app_r in Hj by lia.
           destruct (j - length l)%nat; simpl in Hj; [|inversion Hj].
           inversion Hj; subst. exact Hlt.
      * destruct IH as [[E Hall]|(i & s0 & p0 & Hi & E & Hs0 & Hfirst)].
        -- left. split; [exact E|]. intros j s' p' Hj.
           destruct (decide (j < length l)%nat) as [Hjl|Hjl].
           ++ rewrite lookup_app_l in Hj by exact Hjl. apply (Hall j s' p' Hj).
           ++ rewrite lookup_app_r in Hj by lia.
              destruct (j - length l)%nat; simpl in Hj; [|inversion Hj].
              inversion Hj; subst. rewrite E in Hlt. exact Hlt.
        -- right. exists i, s0, p0.
           split; [apply lookup_app_l_Some, Hi|].
           split; [exact E|]. split; [exact Hs0|].
           intros j s' p' Hj Hl.
           pose proof (lookup_lt_Some _ _ _ Hi) as Hil.
           rewrite lookup_app_l in Hl by lia.
           apply (Hfirst j s' p' Hj Hl).
Qed.

(** *** The loop *)

Lemma fill_next {A} (f : nat -> A) (z : A) (k n : nat) :
  (k < n)%nat ->
  <[k := f k]> ((f <$> range k) ++ replicate (n - k) z)
  = (f <$> range (S k)) ++ replicate (n - S k) z.
Proof.
  intros Hk. rewrite insert_app_r_alt by (rewrite length_fmap, length_range; lia).
  rewrite length_fmap, length_range, Nat.sub_diag.
  replace (n - k)%nat with (S (n - S k)) by lia.
  rewrite (range_S k), fmap_app, <- app_assoc. reflexivity.
Qed.

Lemma lookup_grid {A} (f : nat -> A) (n i : nat) :
  (i < n)%nat -> (f <$> range n) !! i = Some (f i).
Proof.
  intros Hi. rewrite list_lookup_fmap. unfold range.
  rewrite lookup_seq_lt by exact Hi. reflexivity.
Qed.

Section Grid.

Variable binned : float -> result (float * float).
Variable unbinned : float -> float.

(** The evaluators return a score for every hypothesis. *)
Variable scores : float -> float * float.
Hypothesis binned_total : forall x, binned x = Ok (scores x).

Variable Ntau_steps : nat.
Variable min_tau max_tau delta : float.

Let grid (i : nat) : float := tau_hypo_at min_tau delta i.
Let chi2_at (i : nat) : float := fst (scores (grid i)).
Let bllh_at (i : nat) : float := snd (scores (grid i)).
Let ullh_at (i : nat) : float := unbinned (grid i).
Let curve (score_at : nat -> float) (k : nat) : list (float * float) :=
  (fun i => (score_at i, grid i)) <$> range k.

(** The state after the first [k] passes of the loop. *)
Lemma scan_prefix (k : nat) :
  (k <= Ntau_steps + 1)%nat ->
  exists st,
    for_each (scan_body binned unbinned min_tau delta) (range k)
      (scan_start Ntau_steps) = Ok st
    /\ tau st = (grid <$> range k) ++ replicate (Ntau_steps + 1 - k) 0
    /\ chi2 st = (chi2_at <$> range k) ++ replicate (Ntau_steps + 1 - k) 0
    /\ bllh st = (bllh_at <$> range k) ++ replicate (Ntau_steps + 1 - k) 0
    /\ ullh st = (ullh_at <$> range k) ++ replicate (Ntau_steps + 1 - k) 0
    /\ evaluated st = grid <$> range k
    /\ (chi2_minval st, chi2_minpos st) = minimum_of (curve chi2_at k)
    /\ (bllh_minval st, bllh_minpos st) = minimum_of (curve bllh_at k)
    /\ (ullh_minval st, ullh_minpos st) = minimum_of (curve ullh_at k).
Proof using binned_total.
  induction k as [|k IH]; intros Hk.
  - eexists. split; [reflexivity|]. rewrite Nat.sub_0_r.
    repeat split; reflexivity.
  - destruct IH as (st & Hst & Ht & Hc & Hb & Hu & He & Mc & Mb & Mu); [lia|].
    rewrite range_S, for_each_app, Hst. simpl.
    unfold scan_body. rewrite binned_total. simpl.
    eexists. split; [reflexivity|]. simpl.
    rewrite Ht, Hc, Hb, Hu, He, <- !range_S.
    split; [apply (fill_next grid); lia|].
    split; [apply (fill_next chi2_at); lia|].
    split; [apply (fill_next bllh_at); lia|].
    split; [apply (fill_next ullh_at); lia|].
    split; [rewrite range_S, fmap_app; reflexivity|].
    unfold curve. rewrite !range_S, !fmap_app. simpl.
    rewrite !minimum_of_snoc. fold (curve chi2_at k) (curve bllh_at k) (curve ullh_at k).
    rewrite <- Mc, <- Mb, <- Mu.
    repeat split; symmetry; apply surjective_pairing.
Qed.

Lemma searched_minimum_curve (score_at : nat -> float) (n : nat) (m : float * float) :
  m = minimum_of (curve score_at n) ->
  searched_minimum (grid <$> range n) (score_at <$> range n) (fst m) (snd m).
Proof.
  intros ->. destruct (minimum_of_spec (curve score_at n)) as [Hmin Hfirst].
  assert (L : forall j c, (score_at <$> range n) !! j = Some c ->
                          curve score_at n !! j = Some (c, grid j)).
  { intros j c Hj. pose proof (lookup_lt_Some _ _ _ Hj) as Hlt.
    rewrite length_fmap, length_range in Hlt.
    rewrite lookup_grid in Hj by exact Hlt. inversion Hj; subst.
    unfold curve. rewrite lookup_grid by exact Hlt. reflexivity. }
  split.
  - intros j c Hj. apply (Hmin j c (grid j)), L, Hj.
  - destruct Hfirst as [[E Hall]|(i & s & p & Hi & E & Hs & Hprev)].
    + left. rewrite E. split; [reflexivity|]. split; [reflexivity|].
      intros j c Hj. apply (Hall j c (grid j)), L, Hj.
    + right. exists i. rewrite E. simpl.
      pose proof (lookup_lt_Some _ _ _ Hi) as Hlt.
      unfold curve in Hlt. rewrite length_fmap, length_range in Hlt.
      unfold curve in Hi. rewrite lookup_grid in Hi by exact Hlt.
      inversion Hi; subst.
      split; [apply lookup_grid, Hlt|]. split; [apply lookup_grid, Hlt|].
      split; [exact Hs|].
      intros j c Hj Hc. apply (Hprev j c (grid j) Hj), L, Hc.
Qed.

(** The state at the end of the loop. *)
Lemma scan_loop :
  exists st,
    for_each (scan_body binned unbinned min_tau delta) (range (Ntau_steps + 1))
      (scan_start Ntau_steps) = Ok st
    /\ tau st = grid <$> range (Ntau_steps + 1)
    /\ chi2 st = chi2_at <$> range (Ntau_steps + 1)
    /\ bllh st = bllh_at <$> range (Ntau_steps + 1)
    /\ ullh st = ullh_at <$> range (Ntau_steps + 1)
    /\ evaluated st = tau st
    /\ searched_minimum (tau st) (chi2 st) (chi2_minval st) (chi2_minpos st)
    /\ searched_minimum (tau st) (bllh st) (bllh_minval st) (bllh_minpos st)
    /\ searched_minimum (tau st) (ullh st) (ullh_minval st) (ullh_minpos st).
Proof using binned_total.
  destruct (scan_prefix (Ntau_steps + 1)) as
    (st & Hst & Ht & Hc & Hb & Hu & He & Mc & Mb & Mu); [lia|].
  rewrite Nat.sub_diag in Ht, Hc, Hb, Hu. simpl in Ht, Hc, Hb, Hu.
  rewrite app_nil_r in Ht, Hc, Hb, Hu.
  exists st. rewrite Ht, Hc, Hb, Hu, He.
  repeat (split; [first [reflexivity | assumption]|]).
  split; [|split].
  - apply (searched_minimum_curve chi2_at _ _ Mc).
  - apply (searched_minimum_curve bllh_at _ _ Mb).
  - apply (searched_minimum_curve ullh_at _ _ Mu).
Qed.

End Grid.

End Scan.

(** ** The grid scanner: curves, grid and minimum *)

Module GridScanner.

Import F64 F64Facts PyFacts LikelihoodFit Scan.
#[local] Open Scope float_scope.

(** With at least one step the division succeeds. *)
Lemma delta_tau_Ok (Ntau_steps : nat) (min_tau max_tau : float) :
  (1 <= Ntau_steps)%nat ->
  delta_tau Ntau_steps min_tau max_tau
  = Ok ((max_tau - min_tau) / float_of_nat Ntau_steps).
Proof.
  intros H. unfold delta_tau, div_int.
  destruct Ntau_steps; [lia | reflexivity].
Qed.

(** C6: the minimum search misses the curves that never go below its start
    value. With every score at 2000000.0 the reported minimum is the start
    value 999999.9 at position 0.0, which is below every score of the curve
    and is not a grid value, where the minimum score 2000000.0 at the first
    grid value 0.5 is expected. *)
Lemma minimum_above_start_value :
  exists st,
    tau_scan (fun _ => Ok (2000000, 2000000)) (fun _ => 2000000) 2 0.5 1.5 = Ok st
    /\ tau st = [0.5; 1; 1.5]
    /\ chi2 st = [2000000; 2000000; 2000000]
    /\ chi2_minval st = 999999.9
    /\ chi2_minpos st = 0
    /\ forallb (fun c => chi2_minval st <? c) (chi2 st) = true.
Proof.
  eexists. split; [vm_compute; reflexivity|].
  repeat split; vm_compute; reflexivity.
Qed.

(** The scan on evaluators that return a score: for bounds [min_tau],
    [max_tau] and a step count [Ntau_steps >= 1] it fills a grid and three
    curves of [Ntau_steps + 1] entries, whose i-th hypothesis is
    [min_tau + i*delta_tau] with [delta_tau = (max_tau-min_tau)/Ntau_steps]
    and whose i-th scores are the evaluators' at that hypothesis; the
    evaluators run once per grid point, in grid order; and the reported
    minimum of each curve is the first least score, at its hypothesis, as
    soon as some score is below the start value 999999.9. *)
Theorem grid_scan (binned : float -> result (float * float))
    (unbinned : float -> float) (scores : float -> float * float)
    (Ntau_steps : nat) (min_tau max_tau : float) :
  (forall x, binned x = Ok (scores x)) ->
  (1 <= Ntau_steps)%nat ->
  exists delta st,
    delta_tau Ntau_steps min_tau max_tau = Ok delta
    /\ delta = (max_tau - min_tau) / float_of_nat Ntau_steps
    /\ tau_scan binned unbinned Ntau_steps min_tau max_tau = Ok st
    /\ length (tau st) = (Ntau_steps + 1)%nat
    /\ length (chi2 st) = (Ntau_steps + 1)%nat
    /\ length (bllh st) = (Ntau_steps + 1)%nat
    /\ length (ullh st) = (Ntau_steps + 1)%nat
    /\ (forall i, (i <= Ntau_steps)%nat ->
          let tau_hypo := min_tau + float_of_nat i * delta in
          tau st !! i = Some tau_hypo
          /\ chi2 st !! i = Some (fst (scores tau_hypo))
          /\ bllh st !! i = Some (snd (scores tau_hypo))
          /\ ullh st !! i = Some (unbinned tau_hypo))
    /\ evaluated st = tau st
    /\ searched_minimum (tau st) (chi2 st) (chi2_minval st) (chi2_minpos st)
    /\ searched_minimum (tau st) (bllh st) (bllh_minval st) (bllh_minpos st)
    /\ searched_minimum (tau st) (ullh st) (ullh_minval st) (ullh_minpos st).
Proof.
  intros Htotal HN.
  exists ((max_tau - min_tau) / float_of_nat Ntau_steps).
  destruct (scan_loop binned unbinned scores Htotal Ntau_steps min_tau
              ((max_tau - min_tau) / float_of_nat Ntau_steps))
    as (st & Hst & Ht & Hc & Hb & Hu & He & Mc & Mb & Mu).
  exists st. split; [apply delta_tau_Ok, HN|]. split; [reflexivity|].
  split; [unfold tau_scan; rewrite (delta_tau_Ok _ _ _ HN); exact Hst|].
  rewrite Ht, Hc, Hb, Hu, !length_fmap, !length_range.
  repeat (split; [reflexivity|]).
  split.
  - intros i Hi tau_hypo. rewrite !lookup_grid by lia. repeat split; reflexivity.
  - rewrite <- Ht, <- Hc, <- Hb, <- Hu. auto.
Qed.

Lemma grid_scan_witness :
  exists st,
    tau_scan (fun x => Ok (if x =? 1 then (0, 0) else (5, 5))) (fun _ => 0)
      2 0.5 1.5 = Ok st
    /\ length (chi2 st) = 3%nat.
Proof.
  destruct (grid_scan (fun x => Ok (if x =? 1 then (0, 0) else (5, 5)))
              (fun _ => 0) (fun x => if x =? 1 then (0, 0) else (5, 5))
              2 0.5 1.5 (fun x => eq_refl))
    as (delta & st & _ & _ & Hst & _ & Hc & _); [lia|].
  exists st. split; [exact Hst | exact Hc].
Defined.

(** When the scan has found a score below its start value, the reported
    chi-square minimum is the score of a grid point and the reported
    position is that point: what the threshold scan assumes of them. *)
Lemma scanned_minimum_on_curve (binned : float -> result (float * float))
    (unbinned : float -> float) (scores : float -> float * float)
    (Ntau_steps : nat) (min_tau max_tau : float) (st : scan_state) :
  (forall x, binned x = Ok (scores x)) ->
  tau_scan binned unbinned Ntau_steps min_tau max_tau = Ok st ->
  (chi2_minval st <? 999999.9) = true ->
  length (tau st) = (Ntau_steps + 1)%nat
  /\ length (chi2 st) = (Ntau_steps + 1)%nat
  /\ exists imin,
       chi2 st !! imin = Some (chi2_minval st)
       /\ tau st !! imin = Some (chi2_minpos st).
Proof.
  intros Htotal Hst Hbelow.
  destruct Ntau_steps as [|n]; [discriminate Hst|].
  destruct (scan_loop binned unbinned scores Htotal (S n) min_tau
              ((max_tau - min_tau) / float_of_nat (S n)))
    as (st' & Hst' & Ht & Hc & _ & _ & _ & [_ Hmin] & _).
  unfold tau_scan in Hst. rewrite delta_tau_Ok in Hst by lia.
  assert (E : Ok st' = Ok st) by (rewrite <- Hst'; exact Hst).
  injection E as ->.
  rewrite Ht at 1. rewrite Hc at 1. rewrite !length_fmap, !length_range.
  split; [reflexivity|]. split; [reflexivity|].
  destruct Hmin as [(E & _ & _)|(i & Hi & Hp & _)].
  - rewrite E, ltb_irrefl in Hbelow. discriminate Hbelow.
  - exists i. split; assumption.
Qed.

(** *** The grid *)


End GridScanner.

(** ** The threshold scan *)

Module ThresholdScan.

Import F64 F64Facts PyFacts LikelihoodFit.
#[local] Open Scope float_scope.

Lemma below_not_above (m c : float) :
  below_band m c = true -> above_band m c = false.
Proof. apply ltb_gtb_false. Qed.

Lemma below_at_minimum (m : float) : finite m -> below_band m m = true.
Proof. intros H. unfold below_band. rewrite (sub_diag _ H). reflexivity. Qed.

Lemma above_at_minimum (m : float) : finite m -> above_band m m = false.
Proof. intros H. apply below_not_above, below_at_minimum, H. Qed.

Section Band.

Variable chi2_minval : float.

Let step := band_step chi2_minval.
Let below (p : float * float) := below_band chi2_minval (snd p).
Let above (p : float * float) := above_band chi2_minval (snd p).

(** Once both bounds are found the loop changes nothing. *)
Lemma band_done (l : list (float * float)) (b : band) :
  found_lower b = true -> found_upper b = true -> fold_left step l b = b.
Proof.
  intros Hl Hu. induction l as [|p l IH]; [reflexivity|]. simpl.
  replace (step b p) with b; [exact IH|].
  unfold step, band_step. repeat (progress (rewrite ?Hl, ?Hu; simpl)).
  reflexivity.
Qed.

(** With the lower bound found, the upper bound is the first point above
    the band. *)
Lemma band_upper (l : list (float * float)) (b : band) :
  found_lower b = true -> found_upper b = false ->
  ((forall p, p ∈ l -> above p = false) /\ fold_left step l b = b)
  \/ exists k p,
       l !! k = Some p /\ above p = true
       /\ (forall j q, (j < k)%nat -> l !! j = Some q -> above q = false)
       /\ fold_left step l b
          = {| found_lower := true; found_upper := true;
               tau_lower := tau_lower b; tau_upper := Some (fst p) |}.
Proof.
  intros Hl Hu. induction l as [|p l IH].
  - left. split; [intros p Hp; inversion Hp | reflexivity].
  - simpl. destruct (above p) eqn:Ha.
    + right. exists 0%nat, p. split; [reflexivity|]. split; [exact Ha|].
      split; [intros j q Hj; lia|].
      assert (E : step b p = {| found_lower := true; found_upper := true;
                   tau_lower := tau_lower b; tau_upper := Some (fst p) |}).
      { unfold step, band_step. fold (above p).
        repeat (progress (rewrite ?Hl, ?Hu, ?Ha; simpl)). reflexivity. }
      rewrite E. apply band_done; reflexivity.
    + assert (E : step b p = b).
      { unfold step, band_step. fold (above p).
        repeat (progress (rewrite ?Hl, ?Hu, ?Ha; simpl)). reflexivity. }
      rewrite E. destruct IH as [[Hall Hf]|(k & q & Hk & Hq & Hfirst & Hf)].
      * left. split; [|exact Hf]. intros q Hq.
        apply elem_of_cons in Hq as [->|Hq]; [exact Ha | apply Hall, Hq].
      * right. exists (S k), q. split; [exact Hk|]. split; [exact Hq|].
        split; [|exact Hf]. intros [|j] r Hj Hr.
        -- inversion Hr; subst. exact Ha.
        -- apply (Hfirst j r); [lia | exact Hr].
Qed.

(** Before that, the lower bound is the first point below the band. *)
Lemma band_lower (l : list (float * float)) (b : band) :
  found_lower b = false -> found_upper b = false ->
  ((forall p, p ∈ l -> below p = false) /\ fold_left step l b = b)
  \/ exists k p,
       l !! k = Some p /\ below p = true
       /\ (forall j q, (j < k)%nat -> l !! j = Some q -> below q = false)
       /\ fold_left step l b
          = fold_left step (drop (S k) l)
              {| found_lower := true; found_upper := false;
                 tau_lower := Some (fst p); tau_upper := tau_upper b |}.
Proof.
  intros Hl Hu. induction l as [|p l IH].
  - left. split; [intros p Hp; inversion Hp | reflexivity].
  - simpl. destruct (below p) eqn:Hb.
    + right. exists 0%nat, p. split; [reflexivity|]. split; [exact Hb|].
      split; [intros j q Hj; lia|]. simpl. rewrite drop_0. f_equal.
      pose proof (below_not_above _ _ Hb) as Ha.
      unfold step, band_step. fold (below p).
      repeat (progress (rewrite ?Hl, ?Hu, ?Hb, ?Ha; simpl)). reflexivity.
    + assert (E : step b p = b).
      { unfold step, band_step. fold (below p).
        repeat (progress (rewrite ?Hl, ?Hu, ?Hb; simpl)). reflexivity. }
      rewrite E. destruct IH as [[Hall Hf]|(k & q & Hk & Hq & Hfirst & Hf)].
      * left. split; [|exact Hf]. intros q Hq.
        apply elem_of_cons in Hq as [->|Hq]; [exact Hb | apply Hall, Hq].
      * right. exists (S k), q. split; [exact Hk|]. split; [exact Hq|].
        split; [|exact Hf]. intros [|j] r Hj Hr.
        -- inversion Hr; subst. exact Hb.
        -- apply (Hfirst j r); [lia | exact Hr].
Qed.

End Band.

Section Cell.

Variable Ntau_steps : nat.
Variable tau chi2 : list float.
Variable chi2_minval chi2_minpos : float.

(** The grid and the curve have [Ntau_steps + 1] entries. *)
Hypothesis tau_length : length tau = (Ntau_steps + 1)%nat.
Hypothesis chi2_length : length chi2 = (Ntau_steps + 1)%nat.

(** The minimum is the score of a grid point, and a number. *)
Variable imin : nat.
Hypothesis minimum_on_curve : chi2 !! imin = Some chi2_minval.
Hypothesis minimum_finite : finite chi2_minval.

Let below := below_band chi2_minval.
Let above := above_band chi2_minval.

Lemma band_body_step (b : band) (itau : nat) (x c : float) :
  tau !! itau = Some x -> chi2 !! itau = Some c ->
  band_body tau chi2 chi2_minval b itau = Ok (band_step chi2_minval b (x, c)).
Proof.
  intros Hx Hc. unfold band_body, mark_lower, mark_upper, band_step.
  rewrite ?(index_Ok _ _ _ Hx), ?(index_Ok _ _ _ Hc).
  destruct b as [fl fu tl tu]. simpl.
  destruct fl, fu, (below_band chi2_minval c), (above_band chi2_minval c);
    reflexivity.
Qed.

Lemma points_lookup (i : nat) (x c : float) :
  zip tau chi2 !! i = Some (x, c) <-> tau !! i = Some x /\ chi2 !! i = Some c.
Proof.
  rewrite lookup_zip_with_Some. split.
  - intros (a & b & E & Ha & Hb). inversion E; subst. auto.
  - intros [Ha Hb]. eauto.
Qed.

Lemma scan_band_fold :
  scan_band Ntau_steps tau chi2 chi2_minval
  = Ok (fold_left (band_step chi2_minval) (zip tau chi2) band_start).
Proof using tau_length chi2_length.
  unfold scan_band.
  replace (Ntau_steps + 1)%nat with (length (zip tau chi2))
    by (rewrite length_zip_with; lia).
  apply for_each_index. intros b i [x c] Hi.
  apply points_lookup in Hi as [Hx Hc]. apply band_body_step; assumption.
Qed.

(** What the loop finds when both boundary scores are above the band. *)
Lemma band_found (c0 cN : float) :
  chi2 !! 0%nat = Some c0 -> chi2 !! Ntau_steps = Some cN ->
  above c0 = true -> above cN = true ->
  exists il iu lo up cl cu,
    (il <= imin)%nat /\ (il < iu)%nat /\ (iu <= Ntau_steps)%nat
    /\ tau !! il = Some lo /\ chi2 !! il = Some cl /\ below cl = true
    /\ (forall j c, (j < il)%nat -> chi2 !! j = Some c -> below c = false)
    /\ tau !! iu = Some up /\ chi2 !! iu = Some cu /\ above cu = true
    /\ (forall j c, (il <= j < iu)%nat -> chi2 !! j = Some c -> above c = false)
    /\ scan_band Ntau_steps tau chi2 chi2_minval
       = Ok {| found_lower := true; found_upper := true;
               tau_lower := Some lo; tau_upper := Some up |}.
Proof using tau_length chi2_length minimum_on_curve minimum_finite.
  intros H0 HN A0 AN.
  pose proof (lookup_lt_Some _ _ _ minimum_on_curve) as Himin.
  rewrite chi2_length in Himin.
  destruct (lookup_lt_is_Some_2 tau imin) as [xmin Hxmin]; [lia|].
  destruct (lookup_lt_is_Some_2 tau Ntau_steps) as [xN HxN]; [lia|].
  rewrite scan_band_fold.
  destruct (band_lower chi2_minval (zip tau chi2) band_start eq_refl eq_refl)
    as [[Hall _]|(il & [lo cl] & Hil & Bl & Hfirst & Hf)].
  { (* the minimum itself is below the band *)
    assert (Hmem : (xmin, chi2_minval) ∈ zip tau chi2)
      by (apply list_elem_of_lookup; exists imin; apply points_lookup; auto).
    specialize (Hall _ Hmem). simpl in Hall.
    rewrite (below_at_minimum _ minimum_finite) in Hall. discriminate Hall. }
  apply points_lookup in Hil as [Hlo Hcl]. simpl in Bl.
  assert (Hil_min : (il <= imin)%nat).
  { destruct (decide (il <= imin)%nat) as [|Hgt]; [assumption|].
    specialize (Hfirst imin (xmin, chi2_minval) ltac:(lia)
                  (proj2 (points_lookup _ _ _) (conj Hxmin minimum_on_curve))).
    simpl in Hfirst. rewrite (below_at_minimum _ minimum_finite) in Hfirst.
    discriminate Hfirst. }
  assert (Hil_N : (il < Ntau_steps)%nat).
  { pose proof (lookup_lt_Some _ _ _ Hcl) as Hlt. rewrite chi2_length in Hlt.
    destruct (decide (il = Ntau_steps)) as [->|]; [|lia].
    rewrite HN in Hcl. injection Hcl as ->. unfold above in AN.
    rewrite (below_not_above _ _ Bl) in AN. discriminate AN. }
  cbn [fst tau_upper band_start] in Hf. rewrite Hf.
  destruct (band_upper chi2_minval (drop (S il) (zip tau chi2))
              {| found_lower := true; found_upper := false;
                 tau_lower := Some lo; tau_upper := None |} eq_refl eq_refl)
    as [[Hall _]|(k & [up cu] & Hk & Au & Hfirstu & Hfu)].
  { (* the last grid point is above the band *)
    assert (Hmem : (xN, cN) ∈ drop (S il) (zip tau chi2)).
    { apply list_elem_of_lookup. exists (Ntau_steps - S il)%nat.
      rewrite lookup_drop.
      replace (S il + (Ntau_steps - S il))%nat with Ntau_steps by lia.
      apply points_lookup. auto. }
    specialize (Hall _ Hmem). simpl in Hall. fold above in Hall.
    rewrite AN in Hall. discriminate Hall. }
  rewrite lookup_drop in Hk. apply points_lookup in Hk as [Hup Hcu].
  simpl in Au.
  pose proof (lookup_lt_Some _ _ _ Hcu) as Hiu. rewrite chi2_length in Hiu.
  exists il, (S il + k)%nat, lo, up, cl, cu.
  split; [exact Hil_min|]. split; [lia|]. split; [lia|].
  split; [exact Hlo|]. split; [exact Hcl|]. split; [exact Bl|].
  split.
  { intros j c Hj Hc.
    destruct (lookup_lt_is_Some_2 tau j) as [x Hx];
      [pose proof (lookup_lt_Some _ _ _ Hc); lia|].
    apply (Hfirst j (x, c) Hj). apply points_lookup. auto. }
  split; [exact Hup|]. split; [exact Hcu|]. split; [exact Au|].
  split; [|cbn [fst tau_lower] in Hfu; rewrite Hfu; reflexivity].
  intros j c Hj Hc.
  destruct (decide (j = il)) as [->|Hne].
  - rewrite Hcl in Hc. inversion Hc; subst. apply below_not_above, Bl.
  - destruct (lookup_lt_is_Some_2 tau j) as [x Hx];
      [pose proof (lookup_lt_Some _ _ _ Hc); lia|].
    apply (Hfirstu (j - S il)%nat (x, c)); [lia|].
    rewrite lookup_drop. replace (S il + (j - S il))%nat with j by lia.
    apply points_lookup. auto.
Qed.

End Cell.

End ThresholdScan.

(** ** The uncertainty band reported by the threshold scan *)

Module UncertaintyBand.

Import F64 F64Facts PyFacts LikelihoodFit ThresholdScan.
#[local] Open Scope float_scope.

Lemma boundaries_above_spec (Ntau_steps : nat) (chi2 : list float)
    (chi2_minval c0 cN : float) :
  chi2 !! 0%nat = Some c0 -> chi2 !! Ntau_steps = Some cN ->
  boundaries_above Ntau_steps chi2 chi2_minval
  = Ok (above_band chi2_minval c0 && above_band chi2_minval cN).
Proof.
  intros H0 HN. unfold boundaries_above.
  rewrite (index_Ok _ _ _ H0). simpl.
  destruct (above_band chi2_minval c0); [|reflexivity].
  rewrite (index_Ok _ _ _ HN). reflexivity.
Qed.

(** C1, as stated, fails: on the curve [5, 0, 5] over the grid
    [0.5, 1.0, 1.5] the minimum is at 1.0 and both boundary scores exceed it
    by more than 1. Going down from the minimum, the first grid point whose
    score exceeds the minimum by more than 1 is 0.5; the cell reports the
    lower value 1.0, the minimum position itself, so the reported pair does
    not bracket it. *)
Lemma lower_value_is_minimum_position :
  exists st,
    tau_scan (fun x => Ok (if x =? 1 then (0, 0) else (5, 5))) (fun _ => 0)
      2 0.5 1.5 = Ok st
    /\ tau st = [0.5; 1; 1.5]
    /\ chi2 st = [5; 0; 5]
    /\ chi2_minval st = 0
    /\ chi2_minpos st = 1
    /\ boundaries_above 2 (chi2 st) (chi2_minval st) = Ok true
    /\ above_band (chi2_minval st) 5 = true
    /\ scan_band 2 (tau st) (chi2 st) (chi2_minval st)
       = Ok {| found_lower := true; found_upper := true;
               tau_lower := Some 1; tau_upper := Some 1.5 |}
    /\ chi2_scan 2 (tau st) (chi2 st) (chi2_minval st) (chi2_minpos st) true
       = Ok (Chi2ScanGives 1 0.5 0)
    /\ (1 <? chi2_minpos st) = false.
Proof.
  eexists. split; [vm_compute; reflexivity|].
  repeat split; vm_compute; reflexivity.
Qed.

(** On a curve with two dips, [5, 0.5, 5, 0, 5], the reported upper value
    1.0 is even below the minimum position 1.25. *)
Lemma upper_value_before_minimum_position :
  chi2_scan 4 [0.5; 0.75; 1; 1.25; 1.5] [5; 0.5; 5; 0; 5] 0 1.25 true
  = Ok (Chi2ScanGives 1.25 (1 - 1.25) (1.25 - 0.75))
  /\ (1 <? 1.25) = true.
Proof. split; vm_compute; reflexivity. Qed.

(** C2: the cell misses the curves on which the minimum search has kept its
    start value. With every score at 2000000.0 the minimum handed over is
    999999.9, both boundary tests pass, no grid point is within the band,
    and the [print] stops on the unbound [tau_upper]: neither crossing
    values nor the error message are reported. *)
Lemma scan_without_minimum_raises :
  exists st,
    tau_scan (fun _ => Ok (2000000, 2000000)) (fun _ => 2000000) 2 0.5 1.5 = Ok st
    /\ chi2 st = [2000000; 2000000; 2000000]
    /\ chi2_minval st = 999999.9
    /\ boundaries_above 2 (chi2 st) (chi2_minval st) = Ok true
    /\ scan_band 2 (tau st) (chi2 st) (chi2_minval st) = Ok band_start
    /\ chi2_scan 2 (tau st) (chi2 st) (chi2_minval st) (chi2_minpos st) true
       = Raise NameError
    /\ scan_and_report (fun _ => Ok (2000000, 2000000)) (fun _ => 2000000)
         2 0.5 1.5 true
       = Raise NameError.
Proof.
  eexists. split; [vm_compute; reflexivity|].
  repeat split; vm_compute; reflexivity.
Qed.

(** C1 (amended): for a curve whose boundary scores both exceed the minimum
    score by more than 1, the minimum being the score of a grid point, the
    cell makes one pass over the full curve from the first grid point
    upward; the reported lower value is the first grid point whose score
    minus the minimum is below 1.0, and the reported upper value is the
    first grid point from there on whose score minus the minimum exceeds
    1.0. The lower point is at or before the minimum position and before the
    upper point; the upper point is after the minimum position when no
    score between the lower point and the minimum exceeds the band. *)
Theorem threshold_scan_crossings (Ntau_steps : nat) (tau chi2 : list float)
    (chi2_minval chi2_minpos : float) (imin : nat) (c0 cN : float) :
  length tau = (Ntau_steps + 1)%nat ->
  length chi2 = (Ntau_steps + 1)%nat ->
  chi2 !! imin = Some chi2_minval ->
  tau !! imin = Some chi2_minpos ->
  finite chi2_minval ->
  chi2 !! 0%nat = Some c0 -> chi2 !! Ntau_steps = Some cN ->
  above_band chi2_minval c0 = true -> above_band chi2_minval cN = true ->
  exists il iu lo up cl cu,
    (il <= imin)%nat /\ (il < iu)%nat /\ (iu <= Ntau_steps)%nat
    /\ tau !! il = Some lo /\ chi2 !! il = Some cl
    /\ below_band chi2_minval cl = true
    /\ (forall j c, (j < il)%nat -> chi2 !! j = Some c ->
                    below_band chi2_minval c = false)
    /\ tau !! iu = Some up /\ chi2 !! iu = Some cu
    /\ above_band chi2_minval cu = true
    /\ (forall j c, (il <= j < iu)%nat -> chi2 !! j = Some c ->
                    above_band chi2_minval c = false)
    /\ chi2_scan Ntau_steps tau chi2 chi2_minval chi2_minpos true
       = Ok (Chi2ScanGives chi2_minpos (up - chi2_minpos) (chi2_minpos - lo))
    /\ ((forall j c, (il < j < imin)%nat -> chi2 !! j = Some c ->
                     above_band chi2_minval c = false) ->
        (imin < iu)%nat).
Proof.
  intros Ht Hc Hmin Hpos Hfin H0 HN A0 AN.
  destruct (band_found Ntau_steps tau chi2 chi2_minval Ht Hc imin Hmin Hfin
              c0 cN H0 HN A0 AN)
    as (il & iu & lo & up & cl & cu & Him & Hlu & HuN & Hlo & Hcl & Bl & Hfl
        & Hup & Hcu & Au & Hfu & Hband).
  exists il, iu, lo, up, cl, cu.
  repeat (split; [assumption|]). split.
  - unfold chi2_scan. rewrite (boundaries_above_spec _ _ _ _ _ H0 HN), A0, AN.
    simpl. rewrite Hband. reflexivity.
  - intros Hbetween. destruct (decide (imin < iu)%nat) as [|Hge]; [assumption|].
    exfalso. destruct (decide (iu = imin)) as [->|Hne].
    + rewrite Hmin in Hcu. injection Hcu as <-.
      rewrite (above_at_minimum _ Hfin) in Au. discriminate Au.
    + rewrite (Hbetween iu cu ltac:(lia) Hcu) in Au. discriminate Au.
Qed.

Lemma threshold_scan_crossings_witness :
  exists il iu lo up,
    (il <= 1)%nat /\ (il < iu)%nat
    /\ chi2_scan 2 [0.5; 1; 1.5] [5; 0; 5] 0 1 true
       = Ok (Chi2ScanGives 1 (up - 1) (1 - lo)).
Proof.
  destruct (threshold_scan_crossings 2 [0.5; 1; 1.5] [5; 0; 5] 0 1 1 5 5
              eq_refl eq_refl eq_refl eq_refl I eq_refl eq_refl eq_refl eq_refl)
    as (il & iu & lo & up & cl & cu & H1 & H2 & _ & _ & _ & _ & _ & _ & _ & _
        & _ & H & _).
  exists il, iu, lo, up. auto.
Defined.

(** The guard of the cell, with the minimum the score of a grid point: the
    cell reports crossing values exactly when both boundary scores exceed
    the minimum by more than 1, and the values it reports are read at grid
    points; when a boundary score does not, it prints its error message and
    reports no value. *)
Theorem threshold_scan_guard (Ntau_steps : nat) (tau chi2 : list float)
    (chi2_minval chi2_minpos : float) (imin : nat) :
  length tau = (Ntau_steps + 1)%nat ->
  length chi2 = (Ntau_steps + 1)%nat ->
  chi2 !! imin = Some chi2_minval ->
  finite chi2_minval ->
  exists c0 cN,
    chi2 !! 0%nat = Some c0 /\ chi2 !! Ntau_steps = Some cN
    /\ (above_band chi2_minval c0 && above_band chi2_minval cN = true ->
        exists il iu lo up,
          (il < iu)%nat /\ (iu <= Ntau_steps)%nat
          /\ tau !! il = Some lo /\ tau !! iu = Some up
          /\ chi2_scan Ntau_steps tau chi2 chi2_minval chi2_minpos true
             = Ok (Chi2ScanGives chi2_minpos (up - chi2_minpos) (chi2_minpos - lo)))
    /\ (above_band chi2_minval c0 && above_band chi2_minval cN = false ->
        chi2_scan Ntau_steps tau chi2 chi2_minval chi2_minpos true
        = Ok ErrorRequirements).
Proof.
  intros Ht Hc Hmin Hfin.
  destruct (lookup_lt_is_Some_2 chi2 0%nat) as [c0 H0]; [lia|].
  destruct (lookup_lt_is_Some_2 chi2 Ntau_steps) as [cN HN]; [lia|].
  exists c0, cN. split; [exact H0|]. split; [exact HN|]. split.
  - intros G. apply andb_true_iff in G as [A0 AN].
    destruct (band_found Ntau_steps tau chi2 chi2_minval Ht Hc imin Hmin Hfin
                c0 cN H0 HN A0 AN)
      as (il & iu & lo & up & cl & cu & _ & Hlu & HuN & Hlo & _ & _ & _
          & Hup & _ & _ & _ & Hband).
    exists il, iu, lo, up. repeat (split; [assumption|]).
    unfold chi2_scan. rewrite (boundaries_above_spec _ _ _ _ _ H0 HN), A0, AN.
    simpl. rewrite Hband. reflexivity.
  - intros G. unfold chi2_scan.
    rewrite (boundaries_above_spec _ _ _ _ _ H0 HN), G. reflexivity.
Qed.

Lemma threshold_scan_guard_witness :
  chi2_scan 2 [0.5; 1; 1.5] [5; 0; 0.5] 0 1 true = Ok ErrorRequirements.
Proof.
  destruct (threshold_scan_guard 2 [0.5; 1; 1.5] [5; 0; 0.5] 0 1 1
              eq_refl eq_refl eq_refl I)
    as (c0 & cN & H0 & HN & _ & Hfail).
  injection H0 as <-. injection HN as <-.
  apply Hfail. reflexivity.
Defined.

End UncertaintyBand.

(** ** More facts about loops and masks *)

Module LoopFacts.

Import PyFacts.

(** Two bodies that agree on the elements of the list give the same loop. *)
Lemma for_each_ext {S I} (body1 body2 : S -> I -> result S) (xs : list I) :
  (forall st i, i ∈ xs -> body1 st i = body2 st i) ->
  forall st, for_each body1 xs st = for_each body2 xs st.
Proof.
  induction xs as [|i xs IH]; intros H st; simpl; [reflexivity|].
  rewrite H by apply list_elem_of_here.
  destruct (body2 st i) as [st'|e]; simpl; [|reflexivity].
  apply IH. intros st'' j Hj. apply H. apply list_elem_of_further, Hj.
Qed.

(** A loop stops at the first element whose pass raises. *)
Lemma for_each_raise_at {S I} (body : S -> I -> result S) (e : exn)
    (xs1 : list I) (x : I) (xs2 : list I) :
  (forall st i, i ∈ xs1 -> exists st', body st i = Ok st') ->
  (forall st, body st x = Raise e) ->
  forall st, for_each body (xs1 ++ x :: xs2) st = Raise e.
Proof.
  intros Hok Hx. induction xs1 as [|i xs1 IH]; intros st; simpl.
  - rewrite Hx. reflexivity.
  - destruct (Hok st i) as [st' E]; [apply list_elem_of_here|].
    rewrite E. simpl. apply IH.
    intros st'' j Hj. apply Hok. apply list_elem_of_further, Hj.
Qed.

(** A loop whose passes all succeed or raise [e], and one of whose passes
    raises [e] from every state, raises [e]. *)
Lemma for_each_raises {S I} (body : S -> I -> result S) (e : exn)
    (xs : list I) (x : I) :
  (forall st i, i ∈ xs -> (exists st', body st i = Ok st') \/ body st i = Raise e) ->
  x ∈ xs -> (forall st, body st x = Raise e) ->
  forall st, for_each body xs st = Raise e.
Proof.
  intros Hall Hx He. induction xs as [|i xs IH]; intros st; [inversion Hx|].
  simpl. destruct (Hall st i) as [[st' E]|E]; [apply list_elem_of_here| |].
  - rewrite E. simpl. apply elem_of_cons in Hx as [->|Hx].
    + rewrite He in E. discriminate E.
    + apply IH; [|exact Hx].
      intros st'' j Hj. apply Hall. apply list_elem_of_further, Hj.
  - rewrite E. reflexivity.
Qed.

(** A loop whose passes all succeed runs to the end. *)
Lemma for_each_all_Ok {S I} (body : S -> I -> result S) (xs : list I) :
  (forall st i, i ∈ xs -> exists st', body st i = Ok st') ->
  forall st, exists st', for_each body xs st = Ok st'.
Proof.
  induction xs as [|i xs IH]; intros H st; simpl; [eauto|].
  destruct (H st i) as [st' E]; [apply list_elem_of_here|].
  rewrite E. simpl. apply IH.
  intros st'' j Hj. apply H. apply list_elem_of_further, Hj.
Qed.

Lemma range_split (k n : nat) :
  (k < n)%nat -> range n = range k ++ k :: seq (S k) (n - S k).
Proof.
  intros H. unfold range.
  replace n with (k + S (n - S k))%nat at 1 by lia.
  rewrite seq_app. reflexivity.
Qed.

Lemma elem_of_range (i n : nat) : i ∈ range n <-> (i < n)%nat.
Proof. unfold range. rewrite elem_of_seq. lia. Qed.

End LoopFacts.

(** ** LikelihoodFit: the listing, the evaluators' bounds and the scan cell *)

Module ScanCell.

Import F64 F64Facts PyFacts LoopFacts LikelihoodFit LikelihoodFitCells.
#[local] Open Scope float_scope.

Lemma print_times_zip (t : list float) (index : nat) :
  (index <= 11)%nat ->
  print_times index t = zip (seq index (12 - index)) t.
Proof.
  revert index. induction t as [|time rest IH]; intros index H; simpl.
  - destruct (seq index (12 - index)); reflexivity.
  - replace (12 - index)%nat with (S (11 - index)) by lia. simpl. f_equal.
    destruct (Nat.ltb_spec 10 index) as [Hb|Hb].
    + replace (11 - index)%nat with 0%nat by lia. reflexivity.
    + rewrite IH by lia. replace (12 - S index)%nat with (11 - index)%nat by lia.
      reflexivity.
Qed.

(** X1: the listing of the times shows the first twelve of them (the positions
    0 to 11, the [break] coming after the row of position 11 is printed), all
    of them when there are fewer, and nothing unless [veryverbose]. *)
Theorem listed_times_first_twelve (t : list float) :
  listed_times true t = zip (range 12) t
  /\ length (listed_times true t) = Nat.min 12 (length t)
  /\ listed_times false t = [].
Proof.
  unfold listed_times. rewrite print_times_zip by lia.
  split; [reflexivity|]. split; [|reflexivity].
  rewrite length_zip_with, length_seq. reflexivity.
Qed.

Section Evaluators.

Variable libm_pow : float -> float -> float.
Variable np_exp np_log : float -> float.
Variable poisson_pmf : Z -> float -> float.
Variable Ntimes : nat.

Let binned_scores := binned_scores libm_pow np_exp np_log poisson_pmf Ntimes.
Let bin_body := bin_body libm_pow np_exp np_log poisson_pmf Ntimes.

Lemma bin_body_Ok (xExp_edges : list float) (yExp : list Z) (tau_hypo : float)
    (acc : float * float) (ibin : nat) :
  (ibin + 1 < length xExp_edges)%nat -> (ibin < length yExp)%nat ->
  exists acc', bin_body xExp_edges yExp tau_hypo acc ibin = Ok acc'.
Proof.
  intros He Hy. unfold bin_body, LikelihoodFit.bin_body.
  destruct (index_lt xExp_edges ibin) as (xl & _ & ->); [lia|].
  destruct (index_lt xExp_edges (ibin + 1)) as (xh & _ & ->); [lia|].
  destruct (index_lt yExp ibin) as (n & _ & ->); [lia|].
  simpl. eexists. reflexivity.
Qed.

Lemma bin_body_IndexError (xExp_edges : list float) (yExp : list Z)
    (tau_hypo : float) (acc : float * float) (ibin : nat) :
  (length xExp_edges <= ibin + 1 \/ length yExp <= ibin)%nat ->
  bin_body xExp_edges yExp tau_hypo acc ibin = Raise IndexError.
Proof.
  intros H. unfold bin_body, LikelihoodFit.bin_body, index.
  destruct (xExp_edges !! ibin) as [xl|] eqn:El; [|reflexivity]. simpl.
  destruct (xExp_edges !! (ibin + 1)%nat) as [xh|] eqn:Eh; [|reflexivity]. simpl.
  destruct (yExp !! ibin) as [n|] eqn:En; [|reflexivity]. exfalso.
  apply lookup_lt_Some in Eh, En. lia.
Qed.

Lemma binned_scores_IndexError (Nbins : nat) (xExp_edges : list float)
    (yExp : list Z) (tau_hypo : float) :
  (0 < Nbins)%nat ->
  (length yExp < Nbins \/ length xExp_edges < Nbins + 1)%nat ->
  binned_scores Nbins xExp_edges yExp tau_hypo = Raise IndexError.
Proof.
  intros HN Hshort. unfold binned_scores, LikelihoodFit.binned_scores.
  set (k := Nat.min (length yExp) (length xExp_edges - 1)).
  assert (Hk : (k < Nbins)%nat) by lia.
  rewrite (range_split k Nbins Hk).
  apply for_each_raise_at.
  - intros st i Hi. apply elem_of_range in Hi.
    apply bin_body_Ok; lia.
  - intros st. apply bin_body_IndexError. lia.
Qed.

(** X2: the loop over the bins reads [yExp[ibin]], [xExp_edges[ibin]] and
    [xExp_edges[ibin+1]] for every [ibin < Nbins]: it returns the two scores,
    whatever the hypothesis and the numbers met, when the arrays hold at least
    [Nbins] counts and [Nbins + 1] edges, and it raises IndexError when they
    hold fewer. *)
Theorem binned_scores_bounds (Nbins : nat) (xExp_edges : list float)
    (yExp : list Z) (tau_hypo : float) :
  ((Nbins <= length yExp)%nat ->
   (Nbins = 0 \/ Nbins + 1 <= length xExp_edges)%nat ->
   exists scores, binned_scores Nbins xExp_edges yExp tau_hypo = Ok scores)
  /\ ((0 < Nbins)%nat ->
      (length yExp < Nbins \/ length xExp_edges < Nbins + 1)%nat ->
      binned_scores Nbins xExp_edges yExp tau_hypo = Raise IndexError).
Proof.
  split; [|apply binned_scores_IndexError].
  intros Hy He. unfold binned_scores, LikelihoodFit.binned_scores.
  apply for_each_all_Ok. intros st i Hi. apply elem_of_range in Hi.
  apply bin_body_Ok; lia.
Qed.

(** X3: the loop over the bins stops at [Nbins]: counts and edges that the
    arrays hold beyond the first [Nbins] bins do not change the scores. *)
Theorem binned_scores_first_bins (Nbins : nat) (xExp_edges more_edges : list float)
    (yExp more_counts : list Z) (tau_hypo : float) :
  length yExp = Nbins -> length xExp_edges = (Nbins + 1)%nat ->
  binned_scores Nbins (xExp_edges ++ more_edges) (yExp ++ more_counts) tau_hypo
  = binned_scores Nbins xExp_edges yExp tau_hypo.
Proof.
  intros Hy He. unfold binned_scores, LikelihoodFit.binned_scores.
  apply for_each_ext. intros st i Hi. apply elem_of_range in Hi.
  unfold LikelihoodFit.bin_body, index.
  rewrite !lookup_app_l by lia. reflexivity.
Qed.

End Evaluators.

Lemma binned_scores_bounds_witness :
  LikelihoodFit.binned_scores pow_table exp_table log_table pmf_table 3 2 [0; 1000; 2000]
    [3%Z] 0.5
  = Raise IndexError.
Proof.
  apply (binned_scores_bounds pow_table exp_table log_table pmf_table 3 2 [0; 1000; 2000]
           [3%Z] 0.5); simpl; lia.
Defined.

Lemma binned_scores_first_bins_witness :
  LikelihoodFit.binned_scores pow_table exp_table log_table pmf_table 3 1
    ([0; 1000] ++ [2000]) ([3%Z] ++ [7%Z]) 0.5
  = LikelihoodFit.binned_scores pow_table exp_table log_table pmf_table 3 1 [0; 1000] [3%Z] 0.5.
Proof.
  apply (binned_scores_first_bins pow_table exp_table log_table pmf_table 3 1 [0; 1000] [2000] [3%Z] [7%Z] 0.5); reflexivity.
Defined.

Section Unbinned.

Variable np_exp np_log : float -> float.
Variable t : list float.

Let ullh_body := ullh_body np_exp np_log.
Let ullh_loop := ullh_loop np_exp np_log t.
Let ullh_score := ullh_score np_exp np_log t.

Lemma ullh_body_zero (tau_hypo ullh time : float) :
  (tau_hypo =? 0) = true ->
  ullh_body tau_hypo ullh time = Raise ZeroDivisionError.
Proof.
  intros H. unfold ullh_body, LikelihoodFitCells.ullh_body, PyFloat.truediv.
  rewrite H. reflexivity.
Qed.

Lemma ullh_body_nonzero (tau_hypo ullh time : float) :
  (tau_hypo =? 0) = false ->
  ullh_body tau_hypo ullh time
  = Ok (ullh + -2.0 * np_log (1.0 / tau_hypo * np_exp (- time / tau_hypo))).
Proof.
  intros H. unfold ullh_body, LikelihoodFitCells.ullh_body, PyFloat.truediv.
  rewrite H. reflexivity.
Qed.

Lemma ullh_loop_zero (tau_hypo : float) :
  t <> [] -> (tau_hypo =? 0) = true ->
  ullh_loop tau_hypo = Raise ZeroDivisionError.
Proof.
  intros Ht Hz. unfold ullh_loop, LikelihoodFitCells.ullh_loop.
  destruct t as [|time rest]; [contradiction|]. simpl.
  fold ullh_body. rewrite ullh_body_zero by exact Hz. reflexivity.
Qed.

Lemma ullh_loop_nonzero (tau_hypo : float) :
  t = [] \/ (tau_hypo =? 0) = false ->
  ullh_loop tau_hypo = Ok (ullh_score tau_hypo).
Proof.
  intros H. unfold ullh_loop, LikelihoodFitCells.ullh_loop.
  destruct H as [E|Hz].
  - unfold ullh_score, LikelihoodFit.ullh_score. rewrite E. reflexivity.
  - apply for_each_pure. intros st time _. apply ullh_body_nonzero, Hz.
Qed.

End Unbinned.

(** X5: the loop over the events divides [1.0] by the hypothesis with Python's
    float division: with at least one event, a hypothesis of 0.0 or -0.0
    raises ZeroDivisionError (where the loop over the bins, which divides
    numpy numbers, goes on with infinities and NaN); every other hypothesis,
    NaN and the infinities included, gives the sum over the events in order of
    [-2 log(1/tau exp(-t/tau))]; and without events the score is 0.0. *)
Theorem ullh_loop_spec (np_exp np_log : float -> float) (t : list float)
    (tau_hypo : float) :
  ullh_loop np_exp np_log t tau_hypo
  = match t with
    | [] => Ok 0
    | _ :: _ =>
        if tau_hypo =? 0 then Raise ZeroDivisionError
        else Ok (ullh_score np_exp np_log t tau_hypo)
    end.
Proof.
  destruct t as [|time rest].
  - apply (ullh_loop_nonzero np_exp np_log []). left. reflexivity.
  - destruct (tau_hypo =? 0) eqn:Hz.
    + apply ullh_loop_zero; [discriminate | exact Hz].
    + apply ullh_loop_nonzero. right. exact Hz.
Qed.

Section Cells.

Variable libm_pow : float -> float -> float.
Variable np_exp np_log : float -> float.
Variable poisson_pmf : Z -> float -> float.
Variable Ntimes Nbins : nat.
Variable xExp_edges : list float.
Variable yExp : list Z.
Variable t : list float.
Variable Ntau_steps : nat.
Variable min_tau max_tau : float.

Let binned := binned_scores libm_pow np_exp np_log poisson_pmf Ntimes Nbins xExp_edges yExp.
Let unbinned := ullh_score np_exp np_log t.
Let scan_pass :=
  scan_pass libm_pow np_exp np_log poisson_pmf Ntimes Nbins xExp_edges yExp t min_tau.
Let scan_cells :=
  scan_cells libm_pow np_exp np_log poisson_pmf Ntimes Nbins xExp_edges yExp t
    Ntau_steps min_tau max_tau.
Let delta := (max_tau - min_tau) / float_of_nat Ntau_steps.
Let grid (i : nat) : float := tau_hypo_at min_tau delta i.
Let scores (tau_hypo : float) : float * float :=
  fold_left (bin_step libm_pow np_exp np_log poisson_pmf Ntimes tau_hypo)
    (bins xExp_edges yExp) (0, 0).

Lemma scan_body_given (cb : float * float) (u : float) (d : float)
    (st : scan_state) (itau : nat) :
  exists st',
    scan_body (fun _ => Ok cb) (fun _ => u) min_tau d st itau = Ok st'.
Proof. unfold scan_body. simpl. eexists. reflexivity. Qed.

Lemma scan_pass_scores (d : float) (st : scan_state) (itau : nat) :
  binned (tau_hypo_at min_tau d itau) = Ok (scores (tau_hypo_at min_tau d itau)) ->
  ullh_loop np_exp np_log t (tau_hypo_at min_tau d itau)
  = Ok (unbinned (tau_hypo_at min_tau d itau)) ->
  scan_pass d st itau = scan_body binned unbinned min_tau d st itau.
Proof.
  intros Hb Hu. unfold scan_pass, LikelihoodFitCells.scan_pass.
  fold binned. rewrite Hb, Hu. simpl. unfold scan_body. rewrite Hb. reflexivity.
Qed.

(** X6: on a histogram of [Nbins] bins, with at least one step and no grid
    value equal to zero (or no events), the scan cells run to the end without
    raising, whatever numbers the evaluators meet, and leave the curves of the
    three scores: at every grid point the chi-square summed over the bins with
    a count, the binned likelihood summed over all bins and the unbinned
    likelihood summed over the events. *)
Theorem scan_cells_scores :
  length yExp = Nbins -> length xExp_edges = (Nbins + 1)%nat ->
  (1 <= Ntau_steps)%nat ->
  (t = [] \/ forall i, (i <= Ntau_steps)%nat -> (grid i =? 0) = false) ->
  exists st,
    scan_cells = Ok st
    /\ tau_scan binned unbinned Ntau_steps min_tau max_tau = Ok st
    /\ forall i, (i <= Ntau_steps)%nat ->
         tau st !! i = Some (grid i)
         /\ chi2 st !! i = Some (chi2_sum libm_pow np_exp Ntimes xExp_edges yExp (grid i))
         /\ bllh st !! i
            = Some (bllh_sum np_exp np_log poisson_pmf Ntimes xExp_edges yExp (grid i))
         /\ ullh st !! i = Some (ullh_score np_exp np_log t (grid i)).
Proof.
  intros Hy He HN Hnz.
  assert (Hb : forall x, binned x = Ok (scores x)).
  { intros x. apply EvaluatorLoops.binned_scores_fold; assumption. }
  destruct (Scan.scan_loop binned unbinned scores Hb Ntau_steps min_tau delta)
    as (st & Hst & Ht & Hc & Hbl & Hu & _).
  exists st. split; [|split].
  - unfold scan_cells, LikelihoodFitCells.scan_cells.
    rewrite (GridScanner.delta_tau_Ok _ _ _ HN). simpl.
    rewrite <- Hst. apply for_each_ext. intros st' i Hi.
    apply elem_of_range in Hi. apply scan_pass_scores; [apply Hb|].
    apply ullh_loop_nonzero. destruct Hnz as [E|Hnz]; [left; exact E|].
    right. apply Hnz. lia.
  - unfold tau_scan. rewrite (GridScanner.delta_tau_Ok _ _ _ HN). exact Hst.
  - intros i Hi. rewrite Ht, Hc, Hbl, Hu, !Scan.lookup_grid by lia.
    repeat split.
    + unfold scores.
      rewrite (EvaluatorLoops.fold_chi2 _ _ _ _ _ Nbins xExp_edges yExp Hy He).
      reflexivity.
    + unfold scores. rewrite EvaluatorLoops.fold_bllh. reflexivity.
Qed.

Lemma grid_start_zero :
  (min_tau =? 0) = true -> finite delta -> (grid 0 =? 0) = true.
Proof.
  intros Hz Hf. unfold grid, tau_hypo_at.
  change (float_of_nat 0) with 0.
  destruct (mul_zero_l delta Hf) as [s Hs].
  rewrite FloatAxioms.eqb_spec, add_spec, Hs.
  rewrite FloatAxioms.eqb_spec in Hz.
  change (Prim2SF 0) with (S754_zero false) in *.
  destruct (Prim2SF min_tau) as [s0|s0| |s0 m0 e0];
    try (destruct s0; discriminate Hz); [|discriminate Hz].
  destruct s0, s; reflexivity.
Qed.

(** X7: the scan cells stop with ZeroDivisionError when [Ntau_steps] is 0 (in
    [delta_tau], before anything is evaluated); with IndexError, at the first
    grid point, when the arrays hold fewer than [Nbins] bins; and, on a
    histogram with events, with ZeroDivisionError when a grid value is zero,
    which is the case of every scan that starts at [min_tau = 0.0] with a step
    that is a number. *)
Theorem scan_cells_raises :
  (Ntau_steps = 0%nat -> scan_cells = Raise ZeroDivisionError)
  /\ ((1 <= Ntau_steps)%nat -> (0 < Nbins)%nat ->
      (length yExp < Nbins \/ length xExp_edges < Nbins + 1)%nat ->
      scan_cells = Raise IndexError)
  /\ ((1 <= Ntau_steps)%nat ->
      length yExp = Nbins -> length xExp_edges = (Nbins + 1)%nat ->
      t <> [] ->
      (exists i, (i <= Ntau_steps)%nat /\ (grid i =? 0) = true)
      \/ ((min_tau =? 0) = true /\ finite delta) ->
      scan_cells = Raise ZeroDivisionError).
Proof.
  unfold scan_cells, LikelihoodFitCells.scan_cells. split; [|split].
  - subst delta grid. intros E. clearbody binned scan_pass. subst Ntau_steps.
    reflexivity.
  - intros HN HB Hshort. rewrite (GridScanner.delta_tau_Ok _ _ _ HN). simpl.
    rewrite (range_split 0 (Ntau_steps + 1)) by lia.
    apply (for_each_raise_at _ _ []).
    + intros st i Hi. inversion Hi.
    + intros st. unfold LikelihoodFitCells.scan_pass.
      rewrite binned_scores_IndexError by assumption. reflexivity.
  - intros HN Hy He Ht Hzero.
    assert (Hi : exists i, (i <= Ntau_steps)%nat /\ (grid i =? 0) = true).
    { destruct Hzero as [Hi|[Hz Hf]]; [exact Hi|].
      exists 0%nat. split; [lia | apply grid_start_zero; assumption]. }
    destruct Hi as (i & Hi & Hz).
    rewrite (GridScanner.delta_tau_Ok _ _ _ HN). simpl.
    assert (Hb : forall x, binned x = Ok (scores x)).
    { intros x. apply EvaluatorLoops.binned_scores_fold; assumption. }
    apply (for_each_raises _ _ _ i).
    + intros st j _. unfold LikelihoodFitCells.scan_pass. fold binned.
      rewrite Hb. simpl.
      destruct (tau_hypo_at min_tau ((max_tau - min_tau) / float_of_nat Ntau_steps) j =? 0)
        eqn:Ej.
      * right. rewrite ullh_loop_zero by assumption. reflexivity.
      * left. rewrite ullh_loop_nonzero by (right; exact Ej). simpl.
        apply scan_body_given.
    + apply elem_of_range. lia.
    + intros st. unfold LikelihoodFitCells.scan_pass. fold binned.
      rewrite Hb. simpl. rewrite ullh_loop_zero by assumption. reflexivity.
Qed.

End Cells.

Lemma scan_cells_scores_witness :
  exists st,
    LikelihoodFitCells.scan_cells pow_table exp_table log_table pmf_table 3 2
      [0; 1000; 2000] [3%Z; 0%Z] [0.25; 0.5; 1] 2 0.5 1.5 = Ok st
    /\ tau st = [0.5; 1; 1.5].
Proof.
  destruct (scan_cells_scores pow_table exp_table log_table pmf_table 3 2
              [0; 1000; 2000] [3%Z; 0%Z] [0.25; 0.5; 1] 2 0.5 1.5
              eq_refl eq_refl) as (st & Hst & _ & Hcurves).
  - lia.
  - right. intros [|[|[|i]]] Hi; [reflexivity | reflexivity | reflexivity | lia].
  - exists st. split; [exact Hst|].
    apply (list_eq_same_length _ _ 3).
    + reflexivity.
    + injection Hst as <-. reflexivity.
    + intros i a b Hi Ha Hb.
      destruct (Hcurves i ltac:(lia)) as (Ht & _).
      rewrite Ht in Ha.
      destruct i as [|[|[|i]]]; [| | |lia]; simpl in Hb;
        injection Ha as <-; injection Hb as <-; reflexivity.
Defined.

Lemma scan_cells_raises_witness :
  LikelihoodFitCells.scan_cells pow_table exp_table log_table pmf_table 3 2
    [0; 1000; 2000] [3%Z; 0%Z] [0.25; 0.5; 1] 2 0 1
  = Raise ZeroDivisionError.
Proof.
  apply (scan_cells_raises pow_table exp_table log_table pmf_table 3 2
           [0; 1000; 2000] [3%Z; 0%Z] [0.25; 0.5; 1] 2 0 1).
  - lia.
  - reflexivity.
  - reflexivity.
  - discriminate.
  - right. split; [reflexivity | exact I].
Defined.

End ScanCell.

(** ** Squares, quotients and sums of numbers that are not negative *)

Module SignFacts.

Import F64 F64Facts F64Sign.
#[local] Open Scope float_scope.

Lemma xorb_diag (s : bool) : xorb s s = false.
Proof. destruct s; reflexivity. Qed.

Lemma not_negative_sq (x : float) : not_negative (sq x).
Proof.
  unfold not_negative, sq. rewrite mul_spec. unfold SF64mul, SFmul.
  destruct (Prim2SF x) as [s|s| |s m e]; try (left; reflexivity);
    try (right; simpl; apply xorb_diag).
  right. rewrite xorb_diag. apply binary_round_aux_signed. lia.
Qed.

Lemma not_negative_add (x y : float) :
  not_negative x -> not_negative y -> not_negative (x + y).
Proof.
  unfold not_negative. rewrite add_spec. unfold SF64add, SFadd.
  intros [Hx|Hx] [Hy|Hy];
    destruct (Prim2SF x) as [sx|sx| |sx mx ex]; try discriminate Hx;
    destruct (Prim2SF y) as [sy|sy| |sy my ey]; try discriminate Hy;
    try (left; reflexivity); simpl in Hx, Hy; try contradiction; subst;
    try (right; reflexivity).
  right. simpl.
  destruct (shl_align mx ex (Z.min ex ey)) as [m1 e1].
  destruct (shl_align my ey (Z.min ex ey)) as [m2 e2]. simpl.
  unfold binary_round.
  destruct (shl_align (m1 + m2) (Z.min ex ey) _) as [mz ez].
  apply binary_round_aux_signed. lia.
Qed.

Lemma not_negative_div (x y : float) :
  not_negative x -> not_negative y -> not_negative (x / y).
Proof.
  unfold not_negative. rewrite div_spec. unfold SF64div, SFdiv.
  intros [Hx|Hx] [Hy|Hy];
    destruct (Prim2SF x) as [sx|sx| |sx mx ex]; try discriminate Hx;
    destruct (Prim2SF y) as [sy|sy| |sy my ey]; try discriminate Hy;
    try (left; reflexivity); simpl in Hx, Hy; try contradiction; subst;
    try (right; reflexivity).
  right.
  destruct (SFdiv_core_binary prec emax (Z.pos mx) ex (Z.pos my) ey)
    as [[mz ez] lz] eqn:E.
  apply binary_round_aux_signed.
  unfold SFdiv_core_binary in E.
  match type of E with context [Z.div_eucl ?a ?b] =>
    pose proof (Z.div_pos a b) as Hd;
    unfold Z.div in Hd; destruct (Z.div_eucl a b) as [qq rr] eqn:Eq end.
  inversion E; subst. apply Hd; [|lia].
  match goal with |- (0 <= match ?s with _ => _ end)%Z => destruct s end; try lia.
  apply Z.shiftl_nonneg. lia.
Qed.

Lemma not_negative_zero : not_negative 0.
Proof. right. reflexivity. Qed.

(** A number that is not negative is NaN or compares at or above zero, and
    never compares below zero. *)
Lemma not_negative_spec (x : float) :
  not_negative x ->
  (x <? 0) = false /\ (is_nan x = true \/ (0 <=? x) = true).
Proof.
  intros [H|H].
  - apply nan_of_spec in H. subst x. split; [reflexivity | left; reflexivity].
  - split; [apply signed_not_nan, H|]. right.
    rewrite FloatAxioms.leb_spec. change (Prim2SF 0) with (S754_zero false).
    destruct (Prim2SF x) as [s|s| |s m e]; simpl in H; try contradiction; subst s;
      reflexivity.
Qed.

Lemma fold_add_not_negative {A} (f : A -> float) (l : list A) (s : float) :
  not_negative s -> (forall b, b ∈ l -> not_negative (f b)) ->
  not_negative (fold_left (fun s b => s + f b) l s).
Proof.
  revert s. induction l as [|b l IH]; intros s Hs Hl; [exact Hs|].
  simpl. apply IH.
  - apply not_negative_add; [exact Hs|]. apply Hl, list_elem_of_here.
  - intros c Hc. apply Hl. apply list_elem_of_further, Hc.
Qed.

Lemma ltb_leb (a b : float) : (a <? b) = true -> (a <=? b) = true.
Proof.
  rewrite FloatAxioms.ltb_spec, FloatAxioms.leb_spec. unfold SFltb, SFleb.
  destruct (SFcompare (Prim2SF a) (Prim2SF b)) as [[]|]; congruence.
Qed.

Lemma ltb_not_nan (a b : float) : (a <? b) = true -> is_nan a = false.
Proof.
  intros H. destruct (is_nan a) eqn:E; [|reflexivity].
  apply is_nan_spec in E. subst a.
  rewrite FloatAxioms.ltb_spec in H. discriminate H.
Qed.

Lemma nan_ltb (a b : float) : is_nan a = true -> (a <? b) = false.
Proof.
  intros E. apply is_nan_spec in E. subst a.
  rewrite FloatAxioms.ltb_spec. reflexivity.
Qed.

(** A number that is not negative and compares below another is neither
    NaN nor an infinity. *)
Lemma finite_below (x c : float) :
  not_negative x -> (x <? c) = true -> finite x.
Proof.
  intros [H|H] Hlt; rewrite FloatAxioms.ltb_spec in Hlt; unfold finite.
  - rewrite H in Hlt. discriminate Hlt.
  - destruct (Prim2SF x) as [s|s| |s m e]; simpl in H; try contradiction;
      try exact I. subst s.
    destruct (Prim2SF c) as [sc|[]| |sc mc ec]; discriminate Hlt.
Qed.

End SignFacts.

(** ** The minimum search and the sign of the chi-square *)

Module MinimumSearch.

Import F64 F64Facts F64Sign SignFacts PyFacts LoopFacts LikelihoodFit.
#[local] Open Scope float_scope.

Lemma search_minimum_nan (s p : float) (m : float * float) :
  is_nan s = true -> search_minimum s p m = m.
Proof. intros H. unfold search_minimum. rewrite nan_ltb by exact H. reflexivity. Qed.

Lemma fold_search_filter (l : list (float * float)) (m : float * float) :
  fold_left (fun m sp => search_minimum (fst sp) (snd sp) m)
    (filter (fun sp => is_nan (fst sp) = false) l) m
  = fold_left (fun m sp => search_minimum (fst sp) (snd sp) m) l m.
Proof.
  revert m. induction l as [|[s p] l IH]; intros m; [reflexivity|].
  rewrite filter_cons. simpl. destruct (is_nan s) eqn:E.
  - rewrite decide_False by discriminate.
    rewrite search_minimum_nan by exact E. apply IH.
  - rewrite decide_True by reflexivity. simpl. apply IH.
Qed.

Lemma minimum_of_bounds (l : list (float * float)) :
  is_nan (fst (minimum_of l)) = false
  /\ (fst (minimum_of l) <=? 999999.9) = true.
Proof.
  destruct (Scan.minimum_of_spec l) as [_ [[E _]|(i & s & p & _ & E & Hs & _)]];
    rewrite E; simpl.
  - split; reflexivity.
  - split; [apply (ltb_not_nan _ _ Hs) | apply ltb_leb, Hs].
Qed.

Lemma zip_fmap_range {A B} (f : nat -> A) (g : nat -> B) (l : list nat) :
  zip (f <$> l) (g <$> l) = (fun i => (f i, g i)) <$> l.
Proof. induction l as [|i l IH]; [reflexivity|]. simpl. f_equal. exact IH. Qed.

(** X8: the minimum search passes over NaN scores (the test [score < minval]
    is False on NaN): the minimum and position it reports for a curve are
    those of the curve with its NaN points taken out, so the reported minimum
    is never NaN, and it is never above the start value 999999.9. This holds
    for each of the three curves. *)
Theorem minimum_skips_nan (binned : float -> result (float * float))
    (unbinned : float -> float) (scores : float -> float * float)
    (Ntau_steps : nat) (min_tau max_tau : float) (st : scan_state) :
  (forall x, binned x = Ok (scores x)) ->
  tau_scan binned unbinned Ntau_steps min_tau max_tau = Ok st ->
  let numbers (curve : list float) :=
    filter (fun sp : float * float => is_nan (fst sp) = false) (zip curve (tau st)) in
  ((chi2_minval st, chi2_minpos st) = minimum_of (numbers (chi2 st))
   /\ is_nan (chi2_minval st) = false /\ (chi2_minval st <=? 999999.9) = true)
  /\ ((bllh_minval st, bllh_minpos st) = minimum_of (numbers (bllh st))
      /\ is_nan (bllh_minval st) = false /\ (bllh_minval st <=? 999999.9) = true)
  /\ ((ullh_minval st, ullh_minpos st) = minimum_of (numbers (ullh st))
      /\ is_nan (ullh_minval st) = false /\ (ullh_minval st <=? 999999.9) = true).
Proof.
  intros Hb Hst numbers. unfold tau_scan in Hst.
  destruct Ntau_steps as [|n]; [discriminate Hst|].
  rewrite GridScanner.delta_tau_Ok in Hst by lia. simpl in Hst.
  destruct (Scan.scan_prefix binned unbinned scores Hb (S n) min_tau
              ((max_tau - min_tau) / float_of_nat (S n)) (S n + 1))
    as (st' & Hst' & Ht & Hc & Hbl & Hu & _ & Mc & Mb & Mu); [lia|].
  assert (E : Ok st' = Ok st) by (rewrite <- Hst'; exact Hst).
  injection E as ->.
  rewrite Nat.sub_diag in Ht, Hc, Hbl, Hu. simpl replicate in Ht, Hc, Hbl, Hu.
  rewrite app_nil_r in Ht, Hc, Hbl, Hu.
  unfold numbers, minimum_of. rewrite !fold_search_filter.
  rewrite Ht, Hc, Hbl, Hu, !zip_fmap_range.
  fold (minimum_of ((fun i => ((scores (tau_hypo_at min_tau
          ((max_tau - min_tau) / float_of_nat (S n)) i)).1,
          tau_hypo_at min_tau ((max_tau - min_tau) / float_of_nat (S n)) i))
          <$> range (S n + 1))).
  fold (minimum_of ((fun i => ((scores (tau_hypo_at min_tau
          ((max_tau - min_tau) / float_of_nat (S n)) i)).2,
          tau_hypo_at min_tau ((max_tau - min_tau) / float_of_nat (S n)) i))
          <$> range (S n + 1))).
  fold (minimum_of ((fun i => (unbinned (tau_hypo_at min_tau
          ((max_tau - min_tau) / float_of_nat (S n)) i),
          tau_hypo_at min_tau ((max_tau - min_tau) / float_of_nat (S n)) i))
          <$> range (S n + 1))).
  split; [|split].
  - split; [exact Mc|]. replace (chi2_minval st) with (fst (chi2_minval st, chi2_minpos st))
      by reflexivity. rewrite Mc. apply minimum_of_bounds.
  - split; [exact Mb|]. replace (bllh_minval st) with (fst (bllh_minval st, bllh_minpos st))
      by reflexivity. rewrite Mb. apply minimum_of_bounds.
  - split; [exact Mu|]. replace (ullh_minval st) with (fst (ullh_minval st, ullh_minpos st))
      by reflexivity. rewrite Mu. apply minimum_of_bounds.
Qed.

Lemma minimum_skips_nan_witness :
  exists st,
    tau_scan (fun x => Ok (if x =? 1 then (nan, 0) else (5, 5))) (fun _ => 0)
      2 0.5 1.5 = Ok st
    /\ chi2 st = [5; nan; 5]
    /\ (chi2_minval st, chi2_minpos st) = (5, 0.5).
Proof.
  destruct (tau_scan (fun x => Ok (if x =? 1 then (nan, 0) else (5, 5)))
              (fun _ => 0) 2 0.5 1.5) as [st|e] eqn:Hst.
  - exists st. split; [reflexivity|].
    destruct (minimum_skips_nan _ _ (fun x => if x =? 1 then (nan, 0) else (5, 5))
                _ _ _ _ (fun x => eq_refl) Hst) as [[Hc _] _].
    rewrite Hc. vm_compute in Hst. injection Hst as <-.
    split; vm_compute; reflexivity.
  - vm_compute in Hst. discriminate Hst.
Defined.

End MinimumSearch.

Module Chi2Curve.

Import F64 F64Facts F64Sign SignFacts PyFacts LoopFacts LikelihoodFit LikelihoodFitCells.
#[local] Open Scope float_scope.

Lemma float_of_int_not_negative (n : Z) :
  (0 < n < 2 ^ 53)%Z -> not_negative (float_of_int n).
Proof.
  intros H. destruct (Evaluators.float_of_int_pos n H) as (m & e & E).
  right. rewrite E. reflexivity.
Qed.

Lemma chi2_term_not_negative (libm_pow : float -> float -> float) (nobs : Z)
    (nexp : float) :
  (forall x, not_negative (libm_pow x 2)) ->
  (0 < nobs < 2 ^ 53)%Z -> not_negative (chi2_term libm_pow nobs nexp).
Proof.
  intros Hpow H. unfold chi2_term. apply not_negative_div.
  - apply Hpow.
  - apply float_of_int_not_negative, H.
Qed.

(** The table of the power has no negative entry. *)
Lemma pow_table_not_negative (x : float) : not_negative (pow_table x 2).
Proof.
  unfold pow_table. change (PrimFloat.Leibniz.eqb 2 2) with true. cbv [negb].
  destruct (x =? 0); [right; reflexivity|].
  destruct (is_infinity x); [right; reflexivity|].
  destruct (abs x =? 3); [right; reflexivity|].
  destruct (abs x =? 1e200); [right; reflexivity|].
  destruct (abs x =? 0x1.e538ef34d6a16p-1); [right; reflexivity|].
  left. reflexivity.
Qed.

Section Histogram.

Variable libm_pow : float -> float -> float.
Variable np_exp np_log : float -> float.
Variable poisson_pmf : Z -> float -> float.
Variable Ntimes Nbins : nat.
Variable xExp_edges : list float.
Variable yExp : list Z.

Hypothesis counts_length : length yExp = Nbins.
Hypothesis edges_length : length xExp_edges = (Nbins + 1)%nat.

(** The counts are numbers that binary64 holds exactly. *)
Hypothesis counts_exact : forall nobs, nobs ∈ yExp -> (nobs < 2 ^ 53)%Z.

(** The C library's power with the exponent 2 is NaN or has the sign [+]. *)
Hypothesis pow_not_negative : forall x, not_negative (libm_pow x 2).

Lemma chi2_sum_not_negative (tau_hypo : float) :
  not_negative (chi2_sum libm_pow np_exp Ntimes xExp_edges yExp tau_hypo).
Proof using counts_exact pow_not_negative.
  unfold chi2_sum. apply fold_add_not_negative; [apply not_negative_zero|].
  intros [[xlow xhigh] nobs] Hb. apply list_elem_of_filter in Hb as [Hpos Hb].
  apply chi2_term_not_negative; [exact pow_not_negative|].
  simpl in *. split; [exact Hpos|].
  apply counts_exact. unfold bins in Hb. apply elem_of_zip_r in Hb. exact Hb.
Qed.

(** X4: the chi-square of a hypothesis is never negative: whatever the
    hypothesis and whatever [np.exp] returns, the evaluator gives NaN or a
    value at or above zero (a sum of squares over positive counts, the C
    library's power with the exponent 2 being NaN or of sign [+]). *)
Theorem chi2_score_not_negative (tau_hypo : float) :
  exists c,
    chi2_score libm_pow np_exp np_log poisson_pmf Ntimes Nbins xExp_edges yExp tau_hypo = Ok c
    /\ (c <? 0) = false
    /\ (is_nan c = true \/ (0 <=? c) = true).
Proof using counts_length edges_length counts_exact pow_not_negative.
  exists (chi2_sum libm_pow np_exp Ntimes xExp_edges yExp tau_hypo). split.
  - unfold chi2_score.
    rewrite (EvaluatorLoops.binned_scores_fold _ _ _ _ _ _ _ _ counts_length edges_length).
    simpl. f_equal.
    rewrite (EvaluatorLoops.fold_chi2 _ _ _ _ _ _ _ _ counts_length edges_length).
    reflexivity.
  - apply not_negative_spec, chi2_sum_not_negative.
Qed.

Variable unbinned : float -> float.
Variable Ntau_steps : nat.
Variable min_tau max_tau : float.

Lemma chi2_curve_not_negative (st : scan_state) :
  tau_scan (binned_scores libm_pow np_exp np_log poisson_pmf Ntimes Nbins xExp_edges yExp)
    unbinned Ntau_steps min_tau max_tau = Ok st ->
  (forall i c, chi2 st !! i = Some c -> not_negative c)
  /\ searched_minimum (tau st) (chi2 st) (chi2_minval st) (chi2_minpos st).
Proof using counts_length edges_length counts_exact pow_not_negative.
  intros Hst. unfold tau_scan in Hst.
  destruct Ntau_steps as [|n]; [discriminate Hst|].
  rewrite GridScanner.delta_tau_Ok in Hst by lia. simpl in Hst.
  set (scores := fun tau_hypo =>
         fold_left (bin_step libm_pow np_exp np_log poisson_pmf Ntimes tau_hypo)
           (bins xExp_edges yExp) (0, 0)).
  assert (Hb : forall x, binned_scores libm_pow np_exp np_log poisson_pmf Ntimes Nbins
                           xExp_edges yExp x = Ok (scores x)).
  { intros x. apply EvaluatorLoops.binned_scores_fold; assumption. }
  destruct (Scan.scan_loop _ unbinned scores Hb (S n) min_tau
              ((max_tau - min_tau) / float_of_nat (S n)))
    as (st' & Hst' & _ & Hc & _ & _ & _ & Mc & _).
  assert (E : Ok st' = Ok st) by (rewrite <- Hst'; exact Hst).
  injection E as ->. split; [|exact Mc].
  intros i c Hi. rewrite Hc in Hi.
  pose proof (lookup_lt_Some _ _ _ Hi) as Hlt.
  rewrite length_fmap, length_range in Hlt.
  rewrite Scan.lookup_grid in Hi by exact Hlt. injection Hi as <-.
  unfold scores.
  rewrite (EvaluatorLoops.fold_chi2 _ _ _ _ _ _ _ _ counts_length edges_length).
  apply chi2_sum_not_negative.
Qed.

(** X9: the chi-square curve of a scan over the histogram has no entry below
    zero, and the chi-square minimum the scan reports is at or above zero
    (the C library's power with the exponent 2 being NaN or of sign [+]). *)
Theorem chi2_minimum_not_negative (st : scan_state) :
  tau_scan (binned_scores libm_pow np_exp np_log poisson_pmf Ntimes Nbins xExp_edges yExp)
    unbinned Ntau_steps min_tau max_tau = Ok st ->
  (forall i c, chi2 st !! i = Some c -> (c <? 0) = false)
  /\ (0 <=? chi2_minval st) = true.
Proof using counts_length edges_length counts_exact pow_not_negative.
  intros Hst. destruct (chi2_curve_not_negative st Hst) as [Hentry Mc]. split.
  - intros i c Hi. apply not_negative_spec, (Hentry i c Hi).
  - destruct Mc as [_ [(E & _)|(i & Hi & _ & Hlt & _)]].
    + rewrite E. reflexivity.
    + destruct (not_negative_spec _ (Hentry i _ Hi)) as [_ [Hn|Hge]]; [|exact Hge].
      rewrite (ltb_not_nan _ _ Hlt) in Hn. discriminate Hn.
Qed.

(** X10: after a scan over the histogram that has found a chi-square below its
    start value 999999.9, the [ScanChi2] cell does not raise: the minimum it
    is given is a number and the score of a grid point, so it either prints
    its error message (a boundary score is not more than 1 above the minimum)
    or reports the minimum position with two distances to grid values (the
    C library's power with the exponent 2 being NaN or of sign [+]). *)
Theorem threshold_after_scan (st : scan_state) :
  tau_scan (binned_scores libm_pow np_exp np_log poisson_pmf Ntimes Nbins xExp_edges yExp)
    unbinned Ntau_steps min_tau max_tau = Ok st ->
  (chi2_minval st <? 999999.9) = true ->
  finite (chi2_minval st)
  /\ (exists imin, chi2 st !! imin = Some (chi2_minval st)
                   /\ tau st !! imin = Some (chi2_minpos st))
  /\ (scan_and_report
        (binned_scores libm_pow np_exp np_log poisson_pmf Ntimes Nbins xExp_edges yExp)
        unbinned Ntau_steps min_tau max_tau true = Ok ErrorRequirements
      \/ exists lo up,
           lo ∈ tau st /\ up ∈ tau st
           /\ scan_and_report
                (binned_scores libm_pow np_exp np_log poisson_pmf Ntimes Nbins xExp_edges yExp)
                unbinned Ntau_steps min_tau max_tau true
              = Ok (Chi2ScanGives (chi2_minpos st) (up - chi2_minpos st)
                      (chi2_minpos st - lo))).
Proof using counts_length edges_length counts_exact pow_not_negative.
  intros Hst Hlt.
  destruct (chi2_curve_not_negative st Hst) as [Hentry _].
  set (scores := fun tau_hypo =>
         fold_left (bin_step libm_pow np_exp np_log poisson_pmf Ntimes tau_hypo)
           (bins xExp_edges yExp) (0, 0)).
  assert (Hb : forall x, binned_scores libm_pow np_exp np_log poisson_pmf Ntimes Nbins
                           xExp_edges yExp x = Ok (scores x)).
  { intros x. apply EvaluatorLoops.binned_scores_fold; assumption. }
  destruct (GridScanner.scanned_minimum_on_curve _ unbinned scores _ _ _ st Hb Hst Hlt)
    as (Ht & Hc & imin & Hmin & Hpos).
  assert (Hfin : finite (chi2_minval st))
    by (apply (finite_below _ _ (Hentry imin _ Hmin) Hlt)).
  split; [exact Hfin|]. split; [exists imin; split; assumption|].
  unfold scan_and_report. rewrite Hst. simpl.
  destruct (lookup_lt_is_Some_2 (chi2 st) 0%nat) as [c0 H0]; [lia|].
  destruct (lookup_lt_is_Some_2 (chi2 st) Ntau_steps) as [cN HN]; [lia|].
  unfold chi2_scan.
  rewrite (UncertaintyBand.boundaries_above_spec _ _ _ _ _ H0 HN).
  destruct (above_band (chi2_minval st) c0) eqn:A0;
    [|left; reflexivity].
  destruct (above_band (chi2_minval st) cN) eqn:AN;
    [|left; reflexivity].
  right. simpl.
  destruct (ThresholdScan.band_found Ntau_steps (tau st) (chi2 st) (chi2_minval st)
              Ht Hc imin Hmin Hfin c0 cN H0 HN A0 AN)
    as (il & iu & lo & up & cl & cu & _ & _ & _ & Hlo & _ & _ & _
        & Hup & _ & _ & _ & Hband).
  exists lo, up. rewrite Hband. simpl.
  split; [apply list_elem_of_lookup; eauto|].
  split; [apply list_elem_of_lookup; eauto | reflexivity].
Qed.

End Histogram.

Lemma chi2_score_not_negative_witness :
  exists c,
    chi2_score pow_table exp_table log_table pmf_table 3 2 [0; 1000; 2000] [3%Z; 0%Z] 0.5 = Ok c
    /\ (c <? 0) = false.
Proof.
  destruct (chi2_score_not_negative pow_table exp_table log_table pmf_table 3 2
              [0; 1000; 2000] [3%Z; 0%Z] eq_refl eq_refl) with (tau_hypo := 0.5)
    as (c & Hc & Hn & _).
  - intros nobs Hn. repeat (apply elem_of_cons in Hn as [->|Hn]; [lia|]).
    inversion Hn.
  - apply pow_table_not_negative.
  - exists c. split; [exact Hc | exact Hn].
Defined.

Lemma chi2_minimum_not_negative_witness :
  exists st,
    tau_scan (binned_scores pow_table exp_table log_table pmf_table 3 2 [0; 1000; 2000]
                [3%Z; 0%Z]) (fun _ => 0) 2 0.5 1.5 = Ok st
    /\ (0 <=? chi2_minval st) = true.
Proof.
  destruct (tau_scan (binned_scores pow_table exp_table log_table pmf_table 3 2
                        [0; 1000; 2000] [3%Z; 0%Z]) (fun _ => 0) 2 0.5 1.5)
    as [st|e] eqn:Hst.
  - exists st. split; [reflexivity|].
    apply (chi2_minimum_not_negative pow_table exp_table log_table pmf_table 3 2
             [0; 1000; 2000] [3%Z; 0%Z] eq_refl eq_refl) with (3 := Hst).
    + intros nobs Hn. repeat (apply elem_of_cons in Hn as [->|Hn]; [lia|]).
      inversion Hn.
    + apply pow_table_not_negative.
  - vm_compute in Hst. discriminate Hst.
Defined.

Lemma threshold_after_scan_witness :
  exists report,
    scan_and_report
      (binned_scores pow_table exp_table log_table pmf_table 3 1 [0; 1000] [3%Z])
      (fun _ => 0) 2 0.5 1.5 true = Ok report.
Proof.
  destruct (tau_scan (binned_scores pow_table exp_table log_table pmf_table 3 1 [0; 1000] [3%Z])
              (fun _ => 0) 2 0.5 1.5) as [st|e] eqn:Hst.
  - destruct (threshold_after_scan pow_table exp_table log_table pmf_table 3 1
                [0; 1000] [3%Z] eq_refl eq_refl) with (3 := Hst)
      as (_ & _ & [H|(lo & up & _ & _ & H)]).
    + intros nobs Hn. repeat (apply elem_of_cons in Hn as [->|Hn]; [lia|]).
      inversion Hn.
    + apply pow_table_not_negative.
    + vm_compute in Hst. injection Hst as <-. reflexivity.
    + eexists. exact H.
    + eexists. exact H.
  - vm_compute in Hst. discriminate Hst.
Defined.

End Chi2Curve.

(** ** The square root of a positive number *)

Module SqrtFacts.

Import F64 F64Facts.
#[local] Open Scope Z_scope.

Lemma digits2_upper (p : positive) : Zpos p < 2 ^ Zpos (digits2_pos p).
Proof.
  induction p as [p IH|p IH|]; simpl digits2_pos.
  - rewrite Pos2Z.inj_succ, Z.pow_succ_r by lia. lia.
  - rewrite Pos2Z.inj_succ, Z.pow_succ_r by lia. lia.
  - reflexivity.
Qed.

Lemma Zdigits2_le (m k : Z) : 0 < m -> 0 <= k -> m < 2 ^ k -> Zdigits2 m <= k.
Proof.
  intros Hm Hk Hlt. destruct m as [|p|p]; try lia. simpl.
  pose proof (Evaluators.digits2_lower p) as Hl.
  destruct (Z.le_gt_cases (Zpos (digits2_pos p)) k) as [|Hgt]; [assumption|].
  assert (2 ^ k <= 2 ^ (Zpos (digits2_pos p) - 1)) by (apply Z.pow_le_mono_r; lia).
  lia.
Qed.

Lemma shr_1_div2 (mrs : shr_record) :
  0 <= shr_m mrs -> shr_m (shr_1 mrs) = shr_m mrs / 2.
Proof.
  intros H. rewrite <- Z.div2_div. destruct mrs as [m r s]. simpl in *.
  destruct m as [|[p|p|]|p]; try reflexivity; lia.
Qed.

Lemma iter_shr_1 (p : positive) (mrs : shr_record) :
  0 <= shr_m mrs ->
  shr_m (SpecFloat.iter_pos shr_1 p mrs) = shr_m mrs / 2 ^ Zpos p.
Proof.
  revert mrs. induction p as [p IH|p IH|]; intros mrs H; simpl SpecFloat.iter_pos.
  - assert (H1 : 0 <= shr_m (shr_1 mrs)) by (apply shr_1_nonneg, H).
    assert (H2 : 0 <= shr_m (SpecFloat.iter_pos shr_1 p (shr_1 mrs)))
      by (rewrite IH by exact H1; apply Z.div_pos; lia).
    rewrite IH by exact H2. rewrite IH by exact H1. rewrite shr_1_div2 by exact H.
    rewrite !Z.div_div by lia. f_equal.
    replace (Zpos p~1) with (1 + Zpos p + Zpos p) by lia.
    rewrite !Z.pow_add_r by lia. ring.
  - assert (H2 : 0 <= shr_m (SpecFloat.iter_pos shr_1 p mrs))
      by (rewrite IH by exact H; apply Z.div_pos; lia).
    rewrite IH by exact H2. rewrite IH by exact H.
    rewrite Z.div_div by lia. f_equal.
    replace (Zpos p~0) with (Zpos p + Zpos p) by lia.
    rewrite Z.pow_add_r by lia. reflexivity.
  - rewrite shr_1_div2 by exact H. reflexivity.
Qed.

Lemma shr_record_of_loc_m (m : Z) (l : location) : shr_m (shr_record_of_loc m l) = m.
Proof. destruct l as [|[]]; reflexivity. Qed.

(** Shifting a positive mantissa to its precision keeps it positive. *)
Lemma shr_fexp_pos (m e : Z) (l : location) :
  0 < m -> SpecFloat.emin prec emax <= e ->
  let r := shr_fexp prec emax m e l in
  0 < shr_m (fst r) /\ shr_m (fst r) < 2 ^ prec
  /\ SpecFloat.emin prec emax <= snd r
  /\ snd r <= Z.max e (Zdigits2 m + e - prec).
Proof.
  intros Hm He. unfold shr_fexp, shr.
  assert (Hd : 0 < Zdigits2 m) by (destruct m; simpl; lia).
  assert (Hup : m < 2 ^ Zdigits2 m)
    by (destruct m as [|p|p]; try lia; apply digits2_upper).
  assert (Hlo : 2 ^ (Zdigits2 m - 1) <= m)
    by (destruct m as [|p|p]; try lia; apply Evaluators.digits2_lower).
  set (n := fexp prec emax (Zdigits2 m + e) - e).
  assert (Hn : n = Z.max (Zdigits2 m + e - prec) (SpecFloat.emin prec emax) - e)
    by reflexivity.
  clearbody n. unfold SpecFloat.emin in *.
  change prec with 53 in *. change emax with 1024 in *.
  destruct n as [|n|n]; cbv zeta; simpl fst; simpl snd;
    rewrite ?shr_record_of_loc_m.
  - split; [lia|]. split; [|lia].
    apply Z.lt_le_trans with (1 := Hup). apply Z.pow_le_mono_r; lia.
  - rewrite iter_shr_1 by (rewrite shr_record_of_loc_m; lia).
    rewrite shr_record_of_loc_m.
    assert (En : Zpos n = Zdigits2 m - 53) by lia. rewrite En.
    split; [|split; [|lia]].
    + apply Z.div_str_pos. split; [apply Z.pow_pos_nonneg; lia|].
      apply Z.le_trans with (2 := Hlo). apply Z.pow_le_mono_r; lia.
    + apply Z.div_lt_upper_bound; [apply Z.pow_pos_nonneg; lia|].
      rewrite <- Z.pow_add_r by lia.
      replace (Zdigits2 m - 53 + 53) with (Zdigits2 m) by lia. exact Hup.
  - split; [lia|]. split; [|lia].
    apply Z.lt_le_trans with (1 := Hup). apply Z.pow_le_mono_r; lia.
Qed.

Lemma round_nearest_even_bounds (m : Z) (l : location) :
  m <= round_nearest_even m l <= m + 1.
Proof.
  unfold round_nearest_even. destruct l as [|[]]; try lia.
  destruct (Z.even m); lia.
Qed.

(** Rounding a positive mantissa that is neither too small nor too large
    gives a positive number. *)
Lemma binary_round_aux_finite (s : bool) (mx ex : Z) (lx : location) :
  0 < mx -> SpecFloat.emin prec emax <= ex ->
  ex + 1 <= emax - prec -> Zdigits2 mx + ex + 1 <= emax ->
  exists m e, binary_round_aux prec emax s mx ex lx = S754_finite s m e.
Proof.
  intros Hm He Hex Hd. unfold binary_round_aux.
  pose proof (shr_fexp_pos mx ex lx Hm He) as H1. cbv zeta in H1.
  destruct (shr_fexp prec emax mx ex lx) as [mrs' e']. simpl in H1.
  destruct H1 as (P1 & U1 & E1 & B1).
  pose proof (round_nearest_even_bounds (shr_m mrs') (loc_of_shr_record mrs')) as Hr.
  set (m1 := round_nearest_even (shr_m mrs') (loc_of_shr_record mrs')) in *.
  pose proof (shr_fexp_pos m1 e' loc_Exact ltac:(lia) E1) as H2. cbv zeta in H2.
  destruct (shr_fexp prec emax m1 e' loc_Exact) as [mrs'' e'']. simpl in H2.
  destruct H2 as (P2 & _ & _ & B2).
  assert (Hd1 : Zdigits2 m1 <= prec + 1).
  { apply Zdigits2_le; [lia | unfold prec; lia |].
    rewrite Z.pow_add_r, Z.pow_1_r by (unfold prec; lia). lia. }
  destruct (shr_m mrs'') as [|m|m]; try lia.
  destruct (Z.leb_spec e'' (emax - prec)) as [_|Hgt]; [eauto|].
  exfalso. lia.
Qed.

Lemma sqrt_positive_spec (m : positive) (e : Z) :
  bounded prec emax m e = true ->
  exists m' e', SFsqrt prec emax (S754_finite false m e) = S754_finite false m' e'.
Proof.
  intros Hb. unfold bounded, canonical_mantissa in Hb.
  apply andb_true_iff in Hb as [Hc Hle].
  apply Z.eqb_eq in Hc. apply Z.leb_le in Hle.
  unfold SFsqrt, SFsqrt_core_binary. simpl Zdigits2.
  set (d := Zpos (digits2_pos m)) in *.
  assert (Hd : 0 < d) by (unfold d; lia).
  unfold fexp, SpecFloat.emin in *. change prec with 53 in *. change emax with 1024 in *.
  assert (Hdp : d <= 53) by lia.
  assert (Hemin : -1074 <= e) by lia.
  rewrite !Z.div2_div.
  set (e' := Z.min (Z.max ((d + e + 1) / 2 - 53) (3 - 1024 - 53)) (e / 2)).
  assert (He'lo : -1074 <= e') by (unfold e'; Z.div_mod_to_equations; lia).
  assert (He'hi : e' <= 485) by (unfold e'; Z.div_mod_to_equations; lia).
  assert (Hs : 0 <= e - 2 * e' <= 106) by (unfold e'; Z.div_mod_to_equations; lia).
  set (m' := match e - 2 * e' with
             | 0 => Zpos m
             | Zpos _ => Z.shiftl (Zpos m) (e - 2 * e')
             | Zneg _ => 0
             end).
  assert (Hm' : 0 < m' /\ m' < 2 ^ 159).
  { pose proof (digits2_upper m) as Hup. fold d in Hup.
    assert (Hup' : Zpos m < 2 ^ 53)
      by (apply Z.lt_le_trans with (1 := Hup); apply Z.pow_le_mono_r; lia).
    unfold m'. destruct (e - 2 * e') as [|n|n] eqn:En; [| |lia].
    - split; [lia|]. apply Z.lt_trans with (1 := Hup'). reflexivity.
    - rewrite Z.shiftl_mul_pow2 by lia.
      assert (0 < 2 ^ Zpos n) by (apply Z.pow_pos_nonneg; lia).
      assert (2 ^ Zpos n <= 2 ^ 106) by (apply Z.pow_le_mono_r; lia).
      split; [nia|].
      replace (2 ^ 159) with (2 ^ 53 * 2 ^ 106) by reflexivity. nia. }
  pose proof (Z.sqrtrem_sqrt m') as Hq.
  destruct (Z.sqrtrem m') as [q r]. simpl in Hq. subst q.
  assert (Hq : 0 < Z.sqrt m') by (apply Z.sqrt_pos; lia).
  assert (Hqm : Z.sqrt m' <= m') by (apply Z.sqrt_le_lin; lia).
  apply binary_round_aux_finite.
  - exact Hq.
  - unfold SpecFloat.emin. change prec with 53. change emax with 1024. lia.
  - change prec with 53. change emax with 1024. lia.
  - change emax with 1024.
    assert (Zdigits2 (Z.sqrt m') <= 159) by (apply Zdigits2_le; lia).
    lia.
Qed.

Import Py.
#[local] Open Scope float_scope.

(** The square root of a positive number is a positive number. *)
Lemma sqrt_positive (x : float) (m : positive) (e : Z) :
  Prim2SF x = S754_finite false m e ->
  exists m' e', Prim2SF (sqrt x) = S754_finite false m' e'.
Proof.
  intros Hx. rewrite sqrt_spec, Hx. apply sqrt_positive_spec.
  pose proof (Prim2SF_valid x) as Hv. rewrite Hx in Hv. exact Hv.
Qed.

(** The uncertainty [sqrt(n)] of a positive count is a number above zero. *)
Lemma sqrt_count_positive (n : Z) :
  (0 < n < 2 ^ 53)%Z ->
  finite (sqrt (float_of_int n)) /\ (0 <? sqrt (float_of_int n)) = true.
Proof.
  intros Hn. destruct (Evaluators.float_of_int_pos n Hn) as (m & e & Hx).
  destruct (sqrt_positive _ m e Hx) as (m' & e' & Hs).
  split.
  - unfold finite. rewrite Hs. exact I.
  - rewrite FloatAxioms.ltb_spec, Hs. reflexivity.
Qed.

End SqrtFacts.

(** ** Rounding to nearest: the error of a product and of a sum *)

Module Rounding.
Import F64 F64Facts F64Exact.
#[local] Open Scope Z_scope.









End Rounding.

Module ExactValues.
Import QArith Qabs Qpower Lqa.
Import F64 F64Facts F64Exact Rounding.
#[local] Open Scope Q_scope.


















End ExactValues.

(** ** Arrays indexed by a boolean mask *)

Module MaskFacts.

Import Np.

Lemma select_fmap_mask {A} (p : A -> bool) (a : list A) :
  select a (p <$> a) = filter (fun x => p x = true) a.
Proof.
  induction a as [|x a IH]; [reflexivity|].
  rewrite fmap_cons, filter_cons. cbn [select]. rewrite IH.
  destruct (p x) eqn:E.
  - rewrite decide_True by reflexivity. reflexivity.
  - rewrite decide_False by discriminate. reflexivity.
Qed.

Lemma select_fmap {A B} (f : A -> B) (a : list A) (mask : list bool) :
  select (f <$> a) mask = f <$> select a mask.
Proof.
  revert mask. induction a as [|x a IH]; intros [|b mask]; try reflexivity.
  rewrite fmap_cons. cbn [select]. rewrite IH. destruct b; reflexivity.
Qed.

Lemma select_zip {A B} (a : list A) (b : list B) (mask : list bool) :
  select (zip a b) mask = zip (select a mask) (select b mask).
Proof.
  revert a b. induction mask as [|m mask IH]; intros a b.
  - destruct a, b; reflexivity.
  - destruct a as [|x a], b as [|y b]; try reflexivity.
    + cbn [select zip_with]. destruct m; [reflexivity|].
      destruct (select a mask); reflexivity.
    + cbn [select zip_with]. rewrite IH. destruct m; reflexivity.
Qed.

Lemma length_select {A B} (a : list A) (b : list B) (mask : list bool) :
  length a = length b -> length (select a mask) = length (select b mask).
Proof.
  revert a b. induction mask as [|m mask IH]; intros [|x a] [|y b] H;
    try reflexivity; try discriminate H.
  simpl. injection H as H. destruct m; simpl; rewrite (IH a b H); reflexivity.
Qed.

Lemma select_replicate {A} (v : A) (n : nat) (mask : list bool) :
  select (replicate n v) mask
  = replicate (length (select (replicate n v) mask)) v.
Proof.
  revert mask. induction n as [|n IH]; intros [|m mask]; try reflexivity.
  simpl. destruct m; simpl; rewrite <- IH; reflexivity.
Qed.

Lemma mask_index_Ok {A} (a : list A) (mask : list bool) :
  length mask = length a -> mask_index a mask = Ok (select a mask).
Proof. intros H. unfold mask_index. rewrite H, Nat.eqb_refl. reflexivity. Qed.

Lemma mask_index_IndexError {A} (a : list A) (mask : list bool) :
  length mask <> length a -> mask_index a mask = Raise IndexError.
Proof.
  intros H. unfold mask_index.
  destruct (Nat.eqb_spec (length mask) (length a)); [contradiction | reflexivity].
Qed.

Lemma filter_fmap {A B} (f : A -> B) (P : B -> Prop) `{!forall y, Decision (P y)}
    (l : list A) :
  filter P (f <$> l) = f <$> filter (fun x => P (f x)) l.
Proof.
  induction l as [|x l IH]; [reflexivity|].
  rewrite fmap_cons, !filter_cons, IH.
  destruct (decide (P (f x))); reflexivity.
Qed.

(** Selecting on a histogram by a test on the bins. *)
Lemma select_bins {A B} (f : A -> B) (p : A -> bool) (P : A -> Prop)
    `{!forall b, Decision (P b)} (l : list A) :
  (forall b, p b = true <-> P b) ->
  select (f <$> l) (p <$> l) = f <$> filter P l.
Proof.
  intros Hp. rewrite select_fmap, select_fmap_mask. f_equal.
  apply list_filter_iff. exact Hp.
Qed.

End MaskFacts.

(** ** LikelihoodFit: the points handed to the fits *)

Module FitPoints.

Import F64 F64Facts PyFacts MaskFacts SqrtFacts LikelihoodFit LikelihoodFitCells.
#[local] Open Scope float_scope.

(** X11: the parabola fits get the grid points strictly inside the window
    [(chi2_minpos - min_fit, chi2_minpos + max_fit)] with their chi-square, in
    grid order and still paired, each with uncertainty 1.0; a grid value that
    is NaN is never among them; and the three arrays have one length. When the
    curve and the grid differ in length the selection raises IndexError. *)
Theorem fit_points_window (tau chi2 : list float) (chi2_minpos min_fit max_fit : float) :
  let inside (x : float) :=
    (chi2_minpos - min_fit <? x) && (x <? chi2_minpos + max_fit) in
  (length chi2 <> length tau ->
   fit_points tau chi2 chi2_minpos min_fit max_fit = Raise IndexError)
  /\ (length chi2 = length tau ->
      exists x y s,
        fit_points tau chi2 chi2_minpos min_fit max_fit = Ok (x, y, s)
        /\ zip x y = filter (fun p => inside (fst p) = true) (zip tau chi2)
        /\ length y = length x
        /\ s = replicate (length x) 1
        /\ forall v, v ∈ x ->
             (chi2_minpos - min_fit <? v) = true
             /\ (v <? chi2_minpos + max_fit) = true
             /\ is_nan v = false).
Proof.
  intros inside. unfold fit_points, fit_window. fold inside.
  rewrite (mask_index_Ok tau) by apply length_fmap. simpl. split.
  - intros H. rewrite (mask_index_IndexError chi2) by (rewrite length_fmap; lia).
    reflexivity.
  - intros H.
    rewrite (mask_index_Ok chi2) by (rewrite length_fmap; lia). simpl.
    rewrite (mask_index_Ok (Np.ones_like tau))
      by (unfold Np.ones_like; rewrite length_fmap, length_replicate; reflexivity).
    simpl. eexists _, _, _. split; [reflexivity|]. split; [|split; [|split]].
    + rewrite <- select_zip.
      replace (inside <$> tau) with ((fun p => inside (fst p)) <$> zip tau chi2).
      * apply select_fmap_mask.
      * transitivity (inside <$> (fst <$> zip tau chi2)).
        -- rewrite <- list_fmap_compose. reflexivity.
        -- rewrite fst_zip by lia. reflexivity.
    + apply length_select. exact H.
    + unfold Np.ones_like. rewrite select_replicate. f_equal.
      apply length_select. apply length_replicate.
    + intros v Hv. rewrite select_fmap_mask in Hv.
      apply list_elem_of_filter in Hv as [Hv _].
      apply andb_true_iff in Hv as [Hl Hu].
      split; [exact Hl|]. split; [exact Hu|].
      apply (SignFacts.ltb_not_nan _ _ Hu).
Qed.

Lemma fit_points_window_witness :
  exists x y s,
    fit_points [0.5; 1; 1.5] [5; 0; 5] 1 0.15 0.2 = Ok (x, y, s)
    /\ length y = length x.
Proof.
  destruct (fit_points_window [0.5; 1; 1.5] [5; 0; 5] 1 0.15 0.2) as [_ H].
  destruct (H eq_refl) as (x & y & s & Hf & _ & Hl & _).
  exists x, y, s. split; [exact Hf | exact Hl].
Defined.

(** X17: after a scan that has found a chi-square below its start value, the
    selection for the parabola fits does not raise, and when the window
    brackets the minimum position in binary64
    ([chi2_minpos - min_fit < chi2_minpos < chi2_minpos + max_fit], as for the
    notebook's 0.15 and 0.20 around any grid value of its range) the minimum
    point itself, with its chi-square, is among the points of the fit. *)
Theorem fit_points_after_scan (binned : float -> result (float * float))
    (unbinned : float -> float) (scores : float -> float * float)
    (Ntau_steps : nat) (min_tau max_tau : float) (st : scan_state)
    (min_fit max_fit : float) :
  (forall x, binned x = Ok (scores x)) ->
  tau_scan binned unbinned Ntau_steps min_tau max_tau = Ok st ->
  (chi2_minval st <? 999999.9) = true ->
  (chi2_minpos st - min_fit <? chi2_minpos st) = true ->
  (chi2_minpos st <? chi2_minpos st + max_fit) = true ->
  exists x y s,
    fit_points (tau st) (chi2 st) (chi2_minpos st) min_fit max_fit = Ok (x, y, s)
    /\ (chi2_minpos st, chi2_minval st) ∈ zip x y
    /\ length y = length x /\ length s = length x.
Proof.
  intros Hb Hst Hlt Hlo Hhi.
  destruct (GridScanner.scanned_minimum_on_curve _ _ _ _ _ _ _ Hb Hst Hlt)
    as (Ht & Hc & imin & Hmin & Hpos).
  unfold fit_points, fit_window.
  rewrite (mask_index_Ok (tau st)) by apply length_fmap. simpl.
  rewrite (mask_index_Ok (chi2 st)) by (rewrite length_fmap; lia). simpl.
  rewrite (mask_index_Ok (Np.ones_like (tau st)))
    by (unfold Np.ones_like; rewrite length_fmap, length_replicate; reflexivity).
  simpl. eexists _, _, _. split; [reflexivity|]. split; [|split].
  - rewrite <- select_zip.
    set (inside := fun x => (chi2_minpos st - min_fit <? x)
                            && (x <? chi2_minpos st + max_fit)).
    replace (inside <$> tau st)
      with ((fun p => inside (fst p)) <$> zip (tau st) (chi2 st)).
    + rewrite select_fmap_mask. apply list_elem_of_filter. split.
      * unfold inside. simpl. rewrite Hlo, Hhi. reflexivity.
      * apply list_elem_of_lookup. exists imin.
        apply lookup_zip_with_Some. eauto.
    + transitivity (inside <$> (fst <$> zip (tau st) (chi2 st))).
      * rewrite <- list_fmap_compose. reflexivity.
      * rewrite fst_zip by lia. reflexivity.
  - apply length_select. lia.
  - unfold Np.ones_like. apply length_select. rewrite length_replicate. reflexivity.
Qed.

Lemma fit_points_after_scan_witness :
  exists x y s,
    fit_points [0.5; 1; 1.5] [5; 0; 5] 1 0.15 0.2 = Ok (x, y, s)
    /\ (1, 0) ∈ zip x y.
Proof.
  destruct (tau_scan (fun x => Ok (if x =? 1 then (0, 0) else (5, 5))) (fun _ => 0)
              2 0.5 1.5) as [st|e] eqn:Hst.
  - destruct (fit_points_after_scan _ _
                (fun x => if x =? 1 then (0, 0) else (5, 5)) _ _ _ st 0.15 0.2
                (fun x => eq_refl) Hst) as (x & y & s & Hf & Hin & _);
      try (vm_compute in Hst; injection Hst as <-; reflexivity).
    vm_compute in Hst. injection Hst as <-.
    exists x, y, s. split; [exact Hf | exact Hin].
  - vm_compute in Hst. discriminate Hst.
Defined.

Lemma bin_centers_cons (a b : float) (e : list float) :
  bin_centers (a :: b :: e) = (b + a) / 2 :: bin_centers (b :: e).
Proof. reflexivity. Qed.

Lemma length_bin_centers (e : list float) :
  length (bin_centers e) = (length e - 1)%nat.
Proof.
  induction e as [|a [|b e] IH]; [reflexivity | reflexivity|].
  rewrite bin_centers_cons. simpl length at 1. rewrite IH. simpl. lia.
Qed.

Lemma bins_cons (a b : float) (e : list float) (n : Z) (ys : list Z) :
  bins (a :: b :: e) (n :: ys) = (a, b, n) :: bins (b :: e) ys.
Proof. reflexivity. Qed.

Lemma fit_point_bins (ys : list Z) (e : list float) :
  length e = (length ys + 1)%nat ->
  zip (zip (bin_centers e) ys) (count_errors ys) = fit_point <$> bins e ys.
Proof.
  revert e. induction ys as [|n ys IH]; intros e H.
  - destruct e as [|a [|b e]]; try (simpl in H; lia). reflexivity.
  - destruct e as [|a [|b e]]; try (simpl in H; lia).
    rewrite bin_centers_cons, bins_cons. simpl. f_equal.
    apply IH. simpl in *. lia.
Qed.

Lemma snd_bins (ys : list Z) (e : list float) :
  length e = (length ys + 1)%nat -> snd <$> bins e ys = ys.
Proof.
  intros H. unfold bins. apply snd_zip.
  rewrite length_zip_with, length_drop. lia.
Qed.

(** X12: the chi-square fit of the histogram gets one point per bin with a
    count above zero, in bin order: the center of the bin, its count and the
    square root of the count, still paired. Every uncertainty it gets is a
    number above zero (for counts that binary64 holds exactly), so the fit
    never divides by a zero or a NaN uncertainty. When the edges are not one
    more than the counts the selection raises IndexError. *)
Theorem fit_input_points (xExp_edges : list float) (yExp : list Z) :
  ((length xExp_edges - 1)%nat <> length yExp ->
   fit_input xExp_edges yExp = Raise IndexError)
  /\ (length xExp_edges = (length yExp + 1)%nat ->
      (forall nobs, nobs ∈ yExp -> (nobs < 2 ^ 53)%Z) ->
      exists x y s,
        fit_input xExp_edges yExp = Ok (x, y, s)
        /\ zip (zip x y) s
           = fit_point <$> filter (fun b => (0 < snd b)%Z) (bins xExp_edges yExp)
        /\ length y = length x /\ length s = length x
        /\ (forall nobs, nobs ∈ y -> (0 < nobs)%Z)
        /\ (forall sigma, sigma ∈ s -> finite sigma /\ (0 <? sigma) = true)).
Proof.
  unfold fit_input, nonempty_bins. split.
  - intros H. rewrite (mask_index_IndexError (bin_centers xExp_edges));
      [reflexivity|].
    rewrite length_fmap, length_bin_centers. lia.
  - intros H Hexact.
    rewrite (mask_index_Ok (bin_centers xExp_edges))
      by (rewrite length_fmap, length_bin_centers; lia).
    simpl. rewrite (mask_index_Ok yExp) by apply length_fmap. simpl.
    rewrite (mask_index_Ok (count_errors yExp))
      by (unfold count_errors; rewrite !length_fmap; reflexivity).
    simpl. eexists _, _, _. split; [reflexivity|].
    assert (Hy : forall nobs,
               nobs ∈ Np.select yExp ((fun nobs => (0 <? nobs)%Z) <$> yExp) ->
               (0 < nobs)%Z /\ nobs ∈ yExp).
    { intros nobs Hn. rewrite select_fmap_mask in Hn.
      apply list_elem_of_filter in Hn as [Hp Hn]. split; [lia | exact Hn]. }
    split; [|split; [|split; [|split]]].
    + rewrite <- !select_zip, (fit_point_bins _ _ H).
      replace ((fun nobs => (0 <? nobs)%Z) <$> yExp)
        with ((fun b : float * float * Z => (0 <? snd b)%Z) <$> bins xExp_edges yExp).
      * apply (select_bins fit_point (fun b => (0 <? snd b)%Z)).
        intros b. simpl. lia.
      * transitivity ((fun nobs => (0 <? nobs)%Z) <$> (snd <$> bins xExp_edges yExp)).
        -- rewrite <- list_fmap_compose. reflexivity.
        -- rewrite (snd_bins yExp xExp_edges H). reflexivity.
    + symmetry. apply length_select. rewrite length_bin_centers. lia.
    + unfold count_errors. rewrite select_fmap, length_fmap.
      symmetry. apply length_select. rewrite length_bin_centers. lia.
    + intros nobs Hn. apply Hy, Hn.
    + intros sigma Hs. unfold count_errors in Hs. rewrite select_fmap in Hs.
      apply list_elem_of_fmap in Hs as (nobs & -> & Hn).
      destruct (Hy nobs Hn) as [Hp Hin].
      apply sqrt_count_positive. split; [exact Hp | apply Hexact, Hin].
Qed.

Lemma fit_input_points_witness :
  exists x y s,
    fit_input [0; 1; 2; 3] [4%Z; 0%Z; 9%Z] = Ok (x, y, s)
    /\ zip (zip x y) s = [(0.5, 4%Z, 2); (2.5, 9%Z, 3)].
Proof.
  destruct (fit_input_points [0; 1; 2; 3] [4%Z; 0%Z; 9%Z]) as [_ H].
  destruct (H eq_refl) as (x & y & s & Hf & Hz & _).
  - intros nobs Hn. repeat (apply elem_of_cons in Hn as [->|Hn]; [lia|]).
    inversion Hn.
  - exists x, y, s. split; [exact Hf|]. rewrite Hz. vm_compute. reflexivity.
Defined.

End FitPoints.

(** ** TheChiSquareMiracle: the points and the chi-square of the model *)

Module Miracle.

Import F64 F64Facts F64Sign SignFacts PyFacts LoopFacts MaskFacts SqrtFacts.
Import LikelihoodFit ChiSquareMiracle.
#[local] Open Scope float_scope.

Lemma edge_sums_cons (a b : float) (e : list float) :
  zip_with PrimFloat.add (removelast (a :: b :: e)) (drop 1 (a :: b :: e))
  = (a + b) :: zip_with PrimFloat.add (removelast (b :: e)) (drop 1 (b :: e)).
Proof. reflexivity. Qed.

Lemma length_edge_sums (e : list float) :
  length (zip_with PrimFloat.add (removelast e) (drop 1 e)) = (length e - 1)%nat.
Proof.
  induction e as [|a [|b e] IH]; [reflexivity | reflexivity|].
  rewrite edge_sums_cons. cbn [length]. rewrite IH. cbn [length]. lia.
Qed.

Lemma edge_sums_bins (ys : list Z) (e : list float) :
  length e = (length ys + 1)%nat ->
  zip_with PrimFloat.add (removelast e) (drop 1 e)
  = (fun b : float * float * Z => fst (fst b) + snd (fst b)) <$> bins e ys.
Proof.
  revert e. induction ys as [|n ys IH]; intros e H.
  - destruct e as [|a [|b e]]; try (simpl in H; lia). reflexivity.
  - destruct e as [|a [|b e]]; try (simpl in H; lia).
    rewrite edge_sums_cons, FitPoints.bins_cons, fmap_cons. f_equal.
    apply IH. simpl in *. lia.
Qed.

Section Chi2.

Variable np_exp : float -> float.
Variable np_sum : list float -> float.
Variable binwidth : float.

Let chi2_owncalc := chi2_owncalc np_exp np_sum binwidth.
Let chi2_bin := chi2_bin np_exp binwidth.
Let chi2_curve := chi2_curve np_exp np_sum binwidth.

(** The bins with a count above zero. *)
Let filled (counts : list Z) (bin_edges : list float) : list (float * float * Z) :=
  filter (fun b => (0 < snd b)%Z) (bins bin_edges counts).

Lemma histogram_points_filled (counts : list Z) (bin_edges : list float) :
  length bin_edges = (length counts + 1)%nat ->
  histogram_points counts bin_edges
  = Ok {| x := (fun b : float * float * Z => 0.5 * (fst (fst b) + snd (fst b)))
               <$> filled counts bin_edges;
          y := snd <$> filled counts bin_edges;
          sy := (fun b : float * float * Z => sqrt (float_of_int (snd b)))
                <$> filled counts bin_edges |}.
Proof.
  intros H. unfold histogram_points.
  assert (Hmask : (fun n => (0 <? n)%Z) <$> counts
                  = (fun b : float * float * Z => (0 <? snd b)%Z) <$> bins bin_edges counts).
  { transitivity ((fun n => (0 <? n)%Z) <$> (snd <$> bins bin_edges counts)).
    - rewrite (FitPoints.snd_bins counts bin_edges H). reflexivity.
    - rewrite <- list_fmap_compose. reflexivity. }
  assert (Hp : forall b : float * float * Z, (0 <? snd b)%Z = true <-> (0 < snd b)%Z)
    by (intros b; lia).
  rewrite (mask_index_Ok (zip_with _ _ _))
    by (rewrite length_fmap, length_edge_sums; lia).
  simpl. rewrite (mask_index_Ok counts) by apply length_fmap. simpl.
  assert (Hsel : Np.select counts ((fun n => (0 <? n)%Z) <$> counts)
                 = snd <$> filled counts bin_edges).
  { rewrite Hmask. rewrite <- (FitPoints.snd_bins counts bin_edges H) at 1.
    apply (select_bins snd _ _ _ Hp). }
  rewrite Hsel, (edge_sums_bins counts bin_edges H), Hmask.
  rewrite (select_bins _ _ _ _ Hp).
  unfold filled. rewrite <- !list_fmap_compose. reflexivity.
Qed.

(** X13: [chi2_owncalc] sums one term per bin with a count above zero, in bin
    order, the bins without a count being left out when the points are made:
    the term of a bin is the square of (count - model at the bin center) /
    sqrt(count). The divisor is a number above zero (for counts that binary64
    holds exactly) and no term compares below zero. On arrays with one more
    edge than counts making the points does not raise. *)
Theorem chi2_owncalc_terms (counts : list Z) (bin_edges : list float)
    (N mu sigma : float) :
  length bin_edges = (length counts + 1)%nat ->
  (forall n, n ∈ counts -> (n < 2 ^ 53)%Z) ->
  exists d,
    histogram_points counts bin_edges = Ok d
    /\ length (x d) = length (y d) /\ length (sy d) = length (y d)
    /\ y d = filter (fun n => (0 < n)%Z) counts
    /\ chi2_owncalc d N mu sigma
       = np_sum (chi2_bin N mu sigma <$> filled counts bin_edges)
    /\ (forall s, s ∈ sy d -> finite s /\ (0 <? s) = true)
    /\ (forall b, (chi2_bin N mu sigma b <? 0) = false).
Proof.
  intros H Hexact. eexists. split; [apply histogram_points_filled, H|].
  simpl. rewrite !length_fmap.
  split; [reflexivity|]. split; [reflexivity|]. split; [|split; [|split]].
  - unfold filled. rewrite <- (FitPoints.snd_bins counts bin_edges H) at 2.
    symmetry. apply (filter_fmap snd (fun n => (0 < n)%Z)).
  - unfold chi2_owncalc, ChiSquareMiracle.chi2_owncalc, func_gauss. simpl.
    f_equal. rewrite <- !list_fmap_compose.
    repeat first [rewrite zip_with_fmap_l | rewrite zip_with_fmap_r
                 | rewrite zip_with_diag].
    rewrite <- list_fmap_compose. reflexivity.
  - intros s Hs. apply list_elem_of_fmap in Hs as ([[lo hi] n] & -> & Hb).
    unfold filled in Hb. apply list_elem_of_filter in Hb as [Hp Hb].
    apply sqrt_count_positive. simpl in *. split; [exact Hp|].
    apply Hexact. unfold bins in Hb. apply elem_of_zip_r in Hb. exact Hb.
  - intros b. unfold chi2_bin, ChiSquareMiracle.chi2_bin.
    apply not_negative_spec, not_negative_sq.
Qed.

Lemma fmap_lookup_range {A} (f : float -> A) (z : A) (l : list float) :
  (fun i => from_option f z (l !! i)) <$> range (length l) = f <$> l.
Proof.
  induction l as [|v l IH] using rev_ind; [reflexivity|].
  rewrite length_app, Nat.add_1_r, range_S, !fmap_app. f_equal.
  - rewrite <- IH. apply list_fmap_ext. intros i j Hj.
    apply lookup_lt_Some in Hj as Hlt. rewrite length_range in Hlt.
    unfold range in Hj. rewrite lookup_seq_lt in Hj by exact Hlt.
    injection Hj as <-. rewrite lookup_app_l by exact Hlt. reflexivity.
  - simpl. rewrite list_lookup_middle by reflexivity. reflexivity.
Qed.

(** X14: the loop over the mean fills every entry of [y_chi2]: entry [i] is
    the chi-square of the model at [x_chi2[i]], every initial 0.0 is
    overwritten, and the loop does not raise. *)
Theorem chi2_curve_filled (d : points) (N sigma : float) (x_chi2 : list float) :
  chi2_curve d N sigma x_chi2
  = Ok ((fun mu => chi2_owncalc d N mu sigma) <$> x_chi2).
Proof.
  unfold chi2_curve, ChiSquareMiracle.chi2_curve.
  set (chi2_at := fun i => from_option (fun mu => chi2_owncalc d N mu sigma) 0
                             (x_chi2 !! i)).
  set (body := fun (y_chi2 : list float) (i : nat) => _).
  assert (Hk : forall k, (k <= length x_chi2)%nat ->
                 for_each body (range k) (replicate (length x_chi2) 0)
                 = Ok ((chi2_at <$> range k) ++ replicate (length x_chi2 - k) 0)).
  { induction k as [|k IH]; intros Hk.
    - rewrite Nat.sub_0_r. reflexivity.
    - rewrite range_S, for_each_app, IH by lia. simpl. unfold body at 1.
      destruct (index_lt x_chi2 k Hk) as (mu & Hmu & ->). simpl.
      assert (E : ChiSquareMiracle.chi2_owncalc np_exp np_sum binwidth d N mu sigma
                  = chi2_at k) by (unfold chi2_at; rewrite Hmu; reflexivity).
      rewrite E, <- range_S. f_equal. apply (Scan.fill_next chi2_at). lia. }
  rewrite Hk by lia. rewrite Nat.sub_diag. simpl. rewrite app_nil_r.
  f_equal. apply fmap_lookup_range.
Qed.

End Chi2.

Lemma chi2_owncalc_terms_witness :
  exists d,
    histogram_points [4%Z; 0%Z; 9%Z] [0; 1; 2; 3] = Ok d
    /\ x d = [0.5; 2.5] /\ y d = [4%Z; 9%Z] /\ sy d = [2; 3].
Proof.
  destruct (chi2_owncalc_terms (fun _ => 0) (fun _ => 0) 0.1 [4%Z; 0%Z; 9%Z]
              [0; 1; 2; 3] 1000 0 1 eq_refl) as (d & Hd & _).
  - intros n Hn. repeat (apply elem_of_cons in Hn as [->|Hn]; [lia|]).
    inversion Hn.
  - exists d. split; [exact Hd|].
    vm_compute in Hd. injection Hd as <-. repeat split; reflexivity.
Defined.

End Miracle.

(** ** Error propagation: the correlation term *)

Module CorrelationTerm.

Import F64 F64Facts SignFacts SqrtFacts ErrorPropagation ErrorPropagationCells.
#[local] Open Scope float_scope.

Lemma is_nan_Prim2SF (x : float) : is_nan x = true <-> Prim2SF x = S754_nan.
Proof.
  rewrite is_nan_spec. split.
  - intros ->. reflexivity.
  - apply nan_of_spec.
Qed.

(** The square root is NaN exactly below zero and on NaN. *)
Lemma sqrt_nan_iff (x : float) :
  is_nan (sqrt x) = true <-> (x <? 0) = true \/ is_nan x = true.
Proof.
  rewrite !is_nan_Prim2SF, sqrt_spec, FloatAxioms.ltb_spec.
  change (Prim2SF 0) with (S754_zero false).
  pose proof (Prim2SF_valid x) as Hv.
  destruct (Prim2SF x) as [s|s| |s m e] eqn:E; unfold SF64sqrt, SFsqrt.
  - split; [discriminate | intros [H|H]; [destruct s|]; discriminate H].
  - destruct s; simpl; split; auto; intros [H|H]; discriminate H.
  - split; auto.
  - destruct s.
    + split; [left; reflexivity | reflexivity].
    + destruct (sqrt_positive_spec m e Hv) as (m' & e' & Hs).
      unfold SFsqrt in Hs. rewrite Hs.
      split; [discriminate | intros [H|H]; discriminate H].
Qed.

(** The sign of a product. *)
Lemma mul_signed (a b : float) (sa sb : bool) :
  signed sa (Prim2SF a) -> signed sb (Prim2SF b) ->
  Prim2SF (a * b) = S754_nan \/ signed (xorb sa sb) (Prim2SF (a * b)).
Proof.
  rewrite mul_spec. unfold SF64mul, SFmul. intros Ha Hb.
  destruct (Prim2SF a) as [s|s| |s m e]; simpl in Ha; try contradiction; subst s;
    destruct (Prim2SF b) as [s|s| |s m' e']; simpl in Hb; try contradiction;
    subst s; try (left; reflexivity); try (right; reflexivity).
  right. apply binary_round_aux_signed. lia.
Qed.

Lemma mul_nan_l (y : float) : nan * y = nan.
Proof. apply nan_of_spec. rewrite mul_spec. reflexivity. Qed.

Lemma negative_signed (x : float) : (x <? 0) = true -> signed true (Prim2SF x).
Proof.
  rewrite FloatAxioms.ltb_spec. change (Prim2SF 0) with (S754_zero false).
  destruct (Prim2SF x) as [s|s| |s m e]; simpl; try discriminate;
    destruct s; try discriminate; reflexivity.
Qed.

Lemma positive_signed (x : float) : (0 <? x) = true -> signed false (Prim2SF x).
Proof.
  intros H. destruct (positive_spec x H) as [(m & e & ->)| ->]; reflexivity.
Qed.

(** The square root of a value of sign [-] is NaN, or -0.0 at -0.0. *)
Lemma sqrt_of_negative (x : float) :
  signed true (Prim2SF x) ->
  is_nan (sqrt x) = true \/ (x = -0 /\ sqrt x = -0).
Proof.
  intros H. destruct (Prim2SF x) as [s|s| |s m e] eqn:E; simpl in H;
    try contradiction; subst s.
  - right. assert (Ex : x = -0) by (apply (of_spec _ _ E)).
    subst x. split; reflexivity.
  - left. apply sqrt_nan_iff. left. rewrite FloatAxioms.ltb_spec, E. reflexivity.
  - left. apply sqrt_nan_iff. left. rewrite FloatAxioms.ltb_spec, E. reflexivity.
Qed.

(** X15: the correlation term of the analytic formula is the square root of
    [rho12*sig1*sig2], the covariance the simulation uses as it is, and it
    is NaN exactly when that product is below zero or NaN. A correlation
    from -1 up to, but not including, 0 passes the check of the correlation,
    and with two uncertainties above zero the term is then NaN, or -0.0 when
    the product underflows to -0.0: never a number above zero. *)
Theorem vSigmaCorr_negative_correlation (p : parameters) :
  (is_nan (vSigmaCorr p) = true
   <-> (cov12 p <? 0) = true \/ is_nan (cov12 p) = true)
  /\ ((-1 <=? rho12 p) = true -> (rho12 p <? 0) = true ->
      (0 <? sig1 p) = true -> (0 <? sig2 p) = true ->
      check_correlation (rho12 p) = Ok tt
      /\ (is_nan (vSigmaCorr p) = true
          \/ (cov12 p = -0 /\ vSigmaCorr p = -0))
      /\ (0 <? vSigmaCorr p) = false).
Proof.
  split; [apply sqrt_nan_iff|].
  intros Hlo Hneg H1 H2.
  assert (Hv : is_nan (vSigmaCorr p) = true \/ (cov12 p = -0 /\ vSigmaCorr p = -0)).
  { unfold vSigmaCorr, fSC. fold (cov12 p). unfold cov12.
    destruct (mul_signed _ _ true false (negative_signed _ Hneg)
                (positive_signed _ H1)) as [N|S1].
    - left. apply nan_of_spec in N. rewrite N, mul_nan_l. reflexivity.
    - destruct (mul_signed _ _ _ false S1 (positive_signed _ H2)) as [N|S2].
      + left. apply nan_of_spec in N. rewrite N. reflexivity.
      + apply sqrt_of_negative, S2. }
  split; [|split; [exact Hv|]].
  - unfold check_correlation. rewrite Hlo.
    rewrite (ltb_leb _ _ (ltb_trans _ 0 1 Hneg eq_refl)). reflexivity.
  - destruct Hv as [N|[_ ->]]; [|reflexivity].
    apply is_nan_spec in N. rewrite N. reflexivity.
Qed.

Lemma vSigmaCorr_negative_correlation_witness :
  check_correlation (-0.5) = Ok tt
  /\ (0 <? vSigmaCorr {| mu1 := 3.5; sig1 := 0.4; mu2 := 0.8; sig2 := 0.2;
                         rho12 := -0.5 |}) = false.
Proof.
  destruct (proj2 (vSigmaCorr_negative_correlation
             {| mu1 := 3.5; sig1 := 0.4; mu2 := 0.8; sig2 := 0.2; rho12 := -0.5 |})
             eq_refl eq_refl eq_refl eq_refl) as (Hc & _ & Hv).
  split; [exact Hc | exact Hv].
Defined.

(** The two cases at work: NaN with the uncertainties 0.4 and 0.2 and the
    correlation -0.5; -0.0 with the least correlation below zero, whose
    product with 0.4 underflows. *)
Lemma vSigmaCorr_cases :
  is_nan (vSigmaCorr {| mu1 := 3.5; sig1 := 0.4; mu2 := 0.8; sig2 := 0.2;
                        rho12 := -0.5 |}) = true
  /\ vSigmaCorr {| mu1 := 3.5; sig1 := 0.4; mu2 := 0.8; sig2 := 0.2;
                   rho12 := -0x1p-1074 |} = -0.
Proof. split; reflexivity. Qed.

Lemma SFcompare_None (a b : spec_float) :
  SFcompare a b = None -> a = S754_nan \/ b = S754_nan.
Proof.
  destruct a as [sa|sa| |sa ma ea], b as [sb|sb| |sb mb eb]; simpl; auto;
    try discriminate; try (destruct sa; discriminate);
    try (destruct sb; discriminate); try (destruct sa, sb; discriminate).
Qed.

(** Two numbers are ordered one way or the other. *)
Lemma leb_false_ltb (a b : float) :
  is_nan a = false -> is_nan b = false -> (a <=? b) = false -> (b <? a) = true.
Proof.
  intros Ha Hb. rewrite FloatAxioms.leb_spec, FloatAxioms.ltb_spec.
  unfold SFleb, SFltb. rewrite (SFcompare_antisym (Prim2SF a) (Prim2SF b)).
  destruct (SFcompare (Prim2SF a) (Prim2SF b)) as [[]|] eqn:E; simpl;
    try discriminate; try reflexivity.
  intros _. destruct (SFcompare_None _ _ E) as [N|N]; apply is_nan_Prim2SF in N;
    congruence.
Qed.

(** X16: the check of the correlation lets through exactly the values with
    [-1 <= rho12 <= 1] and raises ValueError on every other one: the values
    below -1, the values above 1 and NaN, on which both comparisons are
    False. *)
Theorem check_correlation_cases (rho : float) :
  (check_correlation rho = Ok tt <-> (-1 <=? rho) && (rho <=? 1) = true)
  /\ (check_correlation rho = Raise (ValueError rho)
      <-> (rho <? -1) = true \/ (1 <? rho) = true \/ is_nan rho = true)
  /\ (is_nan rho = true -> check_correlation rho = Raise (ValueError rho)).
Proof.
  assert (Hnan : is_nan rho = true -> check_correlation rho = Raise (ValueError rho)).
  { intros H. apply is_nan_spec in H. subst rho. reflexivity. }
  split; [|split; [|exact Hnan]].
  - unfold check_correlation.
    destruct ((-1 <=? rho) && (rho <=? 1)); simpl; split; congruence.
  - split.
    + intros H. destruct (is_nan rho) eqn:En; [auto|].
      unfold check_correlation in H.
      destruct (-1 <=? rho) eqn:Hlo.
      * destruct (rho <=? 1) eqn:Hhi; [discriminate H|].
        right. left. apply leb_false_ltb; [exact En | reflexivity | exact Hhi].
      * left. apply leb_false_ltb; [reflexivity | exact En | exact Hlo].
    + intros [H|[H|H]]; [| |apply Hnan, H]; unfold check_correlation;
        apply ltb_leb_false in H; rewrite H; [|rewrite andb_false_r]; reflexivity.
Qed.

Lemma check_correlation_cases_witness :
  check_correlation nan = Raise (ValueError nan).
Proof. apply (check_correlation_cases nan). reflexivity. Defined.

End CorrelationTerm.

(** ** The chi-square evaluators of the two notebooks *)

Module ChiSquare.

Import F64 F64Facts PyFacts LikelihoodFit ChiSquareMiracle.
#[local] Open Scope float_scope.

(** A count equal to the model's value gives the term 0.0 in
    [chi2_owncalc]. *)
Lemma owncalc_term_exact (nobs : Z) (y_fit : float) :
  (0 < nobs < 2 ^ 53)%Z -> (float_of_int nobs =? y_fit) = true ->
  sq ((float_of_int nobs - y_fit) / sqrt (float_of_int nobs)) = 0.
Proof.
  intros Hn He. destruct (Evaluators.float_of_int_pos nobs Hn) as (m & e & Hs).
  rewrite (Evaluators.eqb_positive_eq _ _ m e Hs He).
  rewrite sub_diag by (unfold finite; rewrite Hs; exact I).
  destruct (SqrtFacts.sqrt_positive _ m e Hs) as (m' & e' & Hq).
  assert (E : 0 / sqrt (float_of_int nobs) = 0).
  { apply (of_spec _ (S754_zero false)). rewrite div_spec, Hq. reflexivity. }
  rewrite E. reflexivity.
Qed.

(** C3, as stated, fails on [chi2_owncalc]. With the four events of the
    sample in the one bin from 0 to 1 ([binwidth = 1]) and the hypothesis
    [mu = 0.5], [sigma = 0.1], the expected count of the bin is 15.96 for
    [N = 4]: the density at the bin center times the bin width times the
    argument [N], above the total event count, which no integral of a
    density over the bin scaled by that count is. And the chi-square moves
    with [N] on the same sample and hypothesis. *)
Lemma owncalc_expectation_not_integral :
  exists d,
    histogram_points [4%Z] [0; 1] = Ok d
    /\ x d = [0.5] /\ y d = [4%Z] /\ sy d = [2]
    /\ func_gauss exp_table 1 (x d) 4 0.5 0.1 = [15.957691216057308]
    /\ (4 <? 15.957691216057308) = true
    /\ chi2_owncalc exp_table sum_table 1 d 4 0.5 0.1 = 35.746594804643522
    /\ chi2_owncalc exp_table sum_table 1 d 8 0.5 0.1 = 194.81714408280334.
Proof.
  eexists. split; [vm_compute; reflexivity|].
  repeat split; vm_compute; reflexivity.
Qed.

(** C3 (amended): on a histogram, the chi-square evaluator of the tau scan
    returns the sum over the bins with [nobs > 0] of [(nobs - nexp)**2 / nobs],
    the power being the C library's, with [nexp] the integral of the
    exponential density over the bin scaled by the number of events; a bin
    with [nobs = 0] leaves the sum as it is, and a bin whose count equals
    [nexp] adds the term 0 (counts below 2^53, which binary64 holds exactly,
    and [pow(0.0, 2) = 0.0]). [chi2_owncalc] returns [np.sum] over the bins
    with a count above zero of [((nobs - y_fit)/sqrt(nobs))**2], where
    [y_fit] is its argument [N] times the bin width times the Gaussian
    density at the bin center; there too a bin whose count equals [y_fit]
    has the term 0. *)
Theorem chi2_evaluators
    (libm_pow : float -> float -> float) (np_exp np_log : float -> float)
    (poisson_pmf : Z -> float -> float) (np_sum : list float -> float)
    (Ntimes Nbins : nat) (xExp_edges : list float) (yExp : list Z)
    (tau_hypo : float)
    (binwidth : float) (counts : list Z) (bin_edges : list float)
    (N mu sigma : float) :
  length yExp = Nbins ->
  length xExp_edges = (Nbins + 1)%nat ->
  length bin_edges = (length counts + 1)%nat ->
  (let nexp := Specification.predicted np_exp Ntimes tau_hypo in
   exists hist : list (float * float * Z),
     length hist = Nbins
     /\ (forall ibin xlow xhigh nobs,
           hist !! ibin = Some (xlow, xhigh, nobs)
           <-> xExp_edges !! ibin = Some xlow
               /\ xExp_edges !! (ibin + 1)%nat = Some xhigh
               /\ yExp !! ibin = Some nobs)
     /\ chi2_score libm_pow np_exp np_log poisson_pmf Ntimes Nbins xExp_edges yExp
          tau_hypo
        = Ok (Specification.chi_square (fun d => libm_pow d 2) np_exp Ntimes
                tau_hypo hist)
     /\ (forall ibin xlow xhigh nobs acc,
           hist !! ibin = Some (xlow, xhigh, nobs) ->
           exists chi2 bllh,
             bin_body libm_pow np_exp np_log poisson_pmf Ntimes xExp_edges yExp
               tau_hypo acc ibin = Ok (chi2, bllh)
             /\ (nobs = 0%Z -> chi2 = fst acc)
             /\ ((0 < nobs)%Z ->
                 chi2 = fst acc
                        + libm_pow (float_of_int nobs - nexp xlow xhigh) 2
                          / float_of_int nobs)
             /\ (libm_pow 0 2 = 0 -> (0 < nobs < 2 ^ 53)%Z ->
                 (float_of_int nobs =? nexp xlow xhigh) = true ->
                 libm_pow (float_of_int nobs - nexp xlow xhigh) 2
                 / float_of_int nobs = 0)))
  /\ (let y_fit := fun xlow xhigh : float =>
        N * binwidth / sqrt (2 * np_pi) / sigma
        * np_exp (-0.5 * sq ((0.5 * (xlow + xhigh) - mu) / sigma)) in
      exists (d : points) (hist : list (float * float * Z)),
        length hist = length counts
        /\ (forall ibin xlow xhigh nobs,
              hist !! ibin = Some (xlow, xhigh, nobs)
              <-> bin_edges !! ibin = Some xlow
                  /\ bin_edges !! (ibin + 1)%nat = Some xhigh
                  /\ counts !! ibin = Some nobs)
        /\ histogram_points counts bin_edges = Ok d
        /\ chi2_owncalc np_exp np_sum binwidth d N mu sigma
           = np_sum
               ((fun '(xlow, xhigh, nobs) =>
                   sq ((float_of_int nobs - y_fit xlow xhigh)
                       / sqrt (float_of_int nobs)))
                <$> filter (fun b : float * float * Z => (0 < snd b)%Z) hist)
        /\ (forall xlow xhigh nobs, (0 < nobs < 2 ^ 53)%Z ->
              (float_of_int nobs =? y_fit xlow xhigh) = true ->
              sq ((float_of_int nobs - y_fit xlow xhigh)
                  / sqrt (float_of_int nobs)) = 0)).
Proof.
  intros Hy He Hb. split.
  - intros nexp. exists (bins xExp_edges yExp).
    split; [apply (EvaluatorLoops.bins_length Nbins); assumption|].
    split; [apply EvaluatorLoops.bins_lookup|].
    split; [apply EvaluatorLoops.chi2_score_sum; assumption|].
    intros ibin xlow xhigh nobs acc Hbin.
    rewrite (EvaluatorLoops.bin_body_bin libm_pow np_exp np_log poisson_pmf Ntimes
               xExp_edges yExp tau_hypo acc ibin xlow xhigh nobs Hbin).
    eexists _, _. split; [reflexivity|]. fold (nexp xlow xhigh).
    split; [|split].
    + intros ->. reflexivity.
    + intros Hp. destruct (Z.ltb_spec 0 nobs); [reflexivity | lia].
    + intros H0 Hr Heq.
      apply (Evaluators.chi2_term_exact libm_pow nobs _ H0 Hr Heq).
  - intros y_fit. eexists _, (bins bin_edges counts).
    split; [apply (EvaluatorLoops.bins_length (length counts)); [reflexivity | exact Hb]|].
    split; [apply EvaluatorLoops.bins_lookup|].
    split; [apply Miracle.histogram_points_filled, Hb|].
    split.
    + unfold chi2_owncalc, func_gauss. simpl. f_equal.
      rewrite <- !list_fmap_compose.
      repeat first [rewrite zip_with_fmap_l | rewrite zip_with_fmap_r
                   | rewrite zip_with_diag].
      rewrite <- list_fmap_compose. apply list_fmap_ext.
      intros i [[xlow xhigh] nobs] _. reflexivity.
    + intros xlow xhigh nobs Hr Heq. apply owncalc_term_exact; assumption.
Qed.

Lemma chi2_evaluators_witness :
  (exists hist,
     hist !! 0%nat = Some (0, 1000, 3%Z)
     /\ chi2_score pow_table exp_table log_table pmf_table 3 2 [0; 1000; 2000]
          [3%Z; 0%Z] 0.5
        = Ok (Specification.chi_square (fun d => pow_table d 2) exp_table 3 0.5 hist))
  /\ Specification.predicted exp_table 3 0.5 0 1000 = 3
  /\ pow_table (float_of_int 3 - 3) 2 / float_of_int 3 = 0
  /\ exists d hist,
       hist !! 0%nat = Some (0, 1, 4%Z)
       /\ histogram_points [4%Z] [0; 1] = Ok d
       /\ chi2_owncalc exp_table sum_table 1 d 4 0.5 0.1
          = sum_table
              ((fun '(xlow, xhigh, nobs) =>
                  sq ((float_of_int nobs
                       - 4 * 1 / sqrt (2 * np_pi) / 0.1
                         * exp_table (-0.5 * sq ((0.5 * (xlow + xhigh) - 0.5) / 0.1)))
                      / sqrt (float_of_int nobs)))
               <$> filter (fun b : float * float * Z => (0 < snd b)%Z) hist).
Proof.
  destruct (chi2_evaluators pow_table exp_table log_table pmf_table sum_table
              3 2 [0; 1000; 2000] [3%Z; 0%Z] 0.5 1 [4%Z] [0; 1]
              4 0.5 0.1 eq_refl eq_refl eq_refl)
    as [(hist & _ & Hbins & Hsum & Hbin) (d & hist' & _ & Hbins' & Hd & Hown & _)].
  assert (H0 : hist !! 0%nat = Some (0, 1000, 3%Z))
    by (apply Hbins; repeat split).
  split; [exists hist; split; [exact H0 | exact Hsum]|].
  split; [reflexivity|]. split.
  - destruct (Hbin 0%nat 0 1000 3%Z (0, 0) H0) as (chi2 & bllh & _ & _ & _ & Hexact).
    apply Hexact; [reflexivity | lia | reflexivity].
  - exists d, hist'. split; [apply Hbins'; repeat split|].
    split; [exact Hd | exact Hown].
Defined.

End ChiSquare.

(** ** The spacing of the grid *)

Module GridSpacing.

Import QArith Qabs Qpower Lqa.
Import F64 F64Facts PyFacts LikelihoodFit Evaluators F64Exact Rounding ExactValues.
#[local] Open Scope Q_scope.










End GridSpacing.
